(** * striim-cli / nahmii-cli: the staged on-chain transaction commands

    A shallow embedding of the command handlers of the repository
    ([claim nii], [claim fees], [pay], [show payments], [show balance]) and
    of the helpers they call,
    followed by the properties of the natural-language specification that
    were checked against them.

    JavaScript values are modelled as far as the handlers look at them:
    - a Number is [NaN] or an integer ([JsNum]); BigNumber is [Z];
    - strings are Rocq strings read as ASCII text;
    - a promise that rejects and a [throw] are [Throw msg], where [msg] is
      the [message] of the error; a value is [Ok v];
    - every call that leaves the process (network, wallet, spinner, console)
      is an [Event] appended to the trace of the run, and what the outside
      world answers is read from a record with one field per call site
      (every call site of a handler runs at most once, so this is the most
      general environment a run can observe). *)

From Stdlib Require Import ZArith Bool List String Ascii Lia.
From Stdlib Require Import DecimalString DecimalZ SpecFloat.
Import ListNotations.

Local Open Scope string_scope.
Local Open Scope Z_scope.

(** ** Results of fallible calls *)

Inductive Result (A : Type) : Type :=
| Ok (value : A)
| Throw (message : string).

Arguments Ok {A} value.
Arguments Throw {A} message.

Definition isOk {A : Type} (r : Result A) : bool :=
  match r with Ok _ => true | Throw _ => false end.

Definition isThrow {A : Type} (r : Result A) : bool := negb (isOk r).

(** ** The fragment of JavaScript the handlers rely on *)

Module Js.

(** A Number as the validators see it: [NaN] or an integer.  ([-0] is
    identified with [0]: the handlers only compare, subtract one and print.) *)
Inductive JsNum : Type :=
| NaN
| Num (z : Z).

(** A value of [argv]. *)
Inductive JsValue : Type :=
| JUndefined
| JNumber (n : JsNum)
| JString (s : string).

(** Relational operators on Numbers: every comparison with [NaN] is false. *)
Definition le (a b : JsNum) : bool :=
  match a, b with Num x, Num y => x <=? y | _, _ => false end.

Definition lt (a b : JsNum) : bool :=
  match a, b with Num x, Num y => x <? y | _, _ => false end.

Definition gt (a b : JsNum) : bool := lt b a.

Definition sub (a b : JsNum) : JsNum :=
  match a, b with Num x, Num y => Num (x - y) | _, _ => NaN end.

Definition isNaN (a : JsNum) : bool :=
  match a with NaN => true | Num _ => false end.

(** [BigNumber.prototype.toString] and, for integers, [Number.prototype.toString]. *)
Definition string_of_Z (z : Z) : string := NilZero.string_of_int (Z.to_int z).

(** The Number nearest to the integer [c >= 0], ties to even: the integers
    up to 2^53 are Numbers, and beyond them a Number has 53 significant
    bits. *)
Definition nearestNumber (c : Z) : Z :=
  let e := Z.log2 c - 52 in
  if e <=? 0 then c
  else
    let q := c / 2 ^ e in
    let r := c mod 2 ^ e in
    let half := 2 ^ (e - 1) in
    let m := if r <? half then q
             else if half <? r then q + 1
             else if Z.even q then q else q + 1 in
    m * 2 ^ e.

(** The [k] digits [s] nearest to the [n]-digit integer [x] at the scale
    [10^(n-k)] that read back as [x], if any; [n] moves up when [s] reaches
    [10^k]. *)
Definition roundTripDigits (x n k : Z) : option (Z * Z) :=
  let scale := 10 ^ (n - k) in
  let low := x / scale in
  let high := low + 1 in
  let okLow := nearestNumber (low * scale) =? x in
  let okHigh := nearestNumber (high * scale) =? x in
  let lowCloser :=
    let dl := x - low * scale in
    let dh := high * scale - x in
    (dl <? dh) || ((dl =? dh) && Z.even low) in
  if okLow && (lowCloser || negb okHigh) then Some (low, n)
  else if okHigh then Some (if high =? 10 ^ k then (10 ^ (k - 1), n + 1) else (high, n))
  else None.

(** The shortest digits that read back as [x]: the least [k] first. *)
Fixpoint shortestDigits (fuel : nat) (x n k : Z) : Z * Z * Z :=
  match fuel with
  | O => (x, n, n)
  | S fuel' =>
      match roundTripDigits x n k with
      | Some (s, n') => (s, n', k)
      | None => shortestDigits fuel' x n (k + 1)
      end
  end.

(** [Number.prototype.toString] of an integer-valued Number [x >= 10^21]:
    the shortest digits that read back as [x], in exponent form. *)
Definition exponentForm (x : Z) : string :=
  let n := Z.of_nat (String.length (string_of_Z x)) in
  let '(s, n, k) := shortestDigits 17 x n 1 in
  let digits := string_of_Z s in
  let exponent := "e+" ++ string_of_Z (n - 1) in
  if k =? 1 then digits ++ exponent
  else String.substring 0 1 digits ++ "."
       ++ String.substring 1 (Z.to_nat (k - 1)) digits ++ exponent.

(** [Number.prototype.toString] of [NaN] and of integer-valued Numbers: all
    the digits below 10^21, the exponent form from there on. *)
Definition numToString (n : JsNum) : string :=
  match n with
  | NaN => "NaN"
  | Num z =>
      if Z.abs z <? 10 ^ 21 then string_of_Z z
      else (if z <? 0 then "-" else "") ++ exponentForm (nearestNumber (Z.abs z))
  end.

(** [ToString] *)
Definition toString (v : JsValue) : string :=
  match v with
  | JUndefined => "undefined"
  | JNumber n => numToString n
  | JString s => s
  end.

(** [ToBoolean]: [undefined], [0], [NaN] and the empty string are falsy. *)
Definition truthy (v : JsValue) : bool :=
  match v with
  | JUndefined => false
  | JNumber NaN => false
  | JNumber (Num z) => negb (z =? 0)
  | JString s => negb (String.eqb s "")
  end.

(** [a || b] *)
Definition or (a b : JsValue) : JsValue := if truthy a then a else b.

Definition code (c : ascii) : Z := Z.of_N (N_of_ascii c).

(** White space and line terminators of the ASCII range. *)
Definition isWhiteSpace (c : ascii) : bool :=
  let n := code c in
  (n =? 9) || (n =? 10) || (n =? 11) || (n =? 12) || (n =? 13) || (n =? 32).

Fixpoint trimStart (s : string) : string :=
  match s with
  | EmptyString => EmptyString
  | String c rest => if isWhiteSpace c then trimStart rest else s
  end.

(** The value of [c] as a digit of the given radix (10 or 16). *)
Definition digitValue (radix : Z) (c : ascii) : option Z :=
  let n := code c in
  if (48 <=? n) && (n <=? 57) then Some (n - 48)
  else if (radix =? 16) && (97 <=? n) && (n <=? 102) then Some (n - 87)
  else if (radix =? 16) && (65 <=? n) && (n <=? 70) then Some (n - 55)
  else None.

(** The longest prefix of digits, accumulated; [None] when there is none. *)
Fixpoint parseDigits (radix : Z) (s : string) (acc : option Z) : option Z :=
  match s with
  | EmptyString => acc
  | String c rest =>
      match digitValue radix c with
      | Some d =>
          parseDigits radix rest
            (Some (radix * match acc with Some a => a | None => 0 end + d))
      | None => acc
      end
  end.

(** [parseInt(string)] with no radix: skip white space, read a sign, switch
    to radix 16 after [0x] / [0X], read the longest prefix of digits; the
    result is the Number nearest to the integer read.  ([JsNum] has no
    [Infinity]: digits that go beyond the largest Number, about 1.8e308,
    are read as the integer they spell, which the validators accept or
    refuse as they do [Infinity].) *)
Definition parseIntString (s : string) : JsNum :=
  let s := trimStart s in
  let '(sign, s) :=
    match s with
    | String "-" rest => (-1, rest)
    | String "+" rest => (1, rest)
    | _ => (1, s)
    end in
  let '(radix, s) :=
    match s with
    | String "0" (String "x" rest) => (16, rest)
    | String "0" (String "X" rest) => (16, rest)
    | _ => (10, s)
    end in
  match parseDigits radix s None with
  | None => NaN
  | Some m => Num (sign * nearestNumber m)
  end.

(** [parseInt(value)]: the argument goes through [ToString] first. *)
Definition parseInt (v : JsValue) : JsNum := parseIntString (toString v).

(** [String.prototype.split] on a one-character separator. *)
Fixpoint split (sep : ascii) (s : string) : list string :=
  match s with
  | EmptyString => [EmptyString]
  | String c rest =>
      if Ascii.eqb c sep then EmptyString :: split sep rest
      else
        match split sep rest with
        | [] => [String c EmptyString]
        | piece :: pieces => String c piece :: pieces
        end
  end.

(** An array element read by destructuring: [undefined] past the end. *)
Definition element (pieces : list string) (i : nat) : JsValue :=
  match nth_error pieces i with
  | Some piece => JString piece
  | None => JUndefined
  end.

(** [String.prototype.toUpperCase] on ASCII letters. *)
Definition upperChar (c : ascii) : ascii :=
  let n := code c in
  if (97 <=? n) && (n <=? 122) then ascii_of_N (Z.to_N (n - 32)) else c.

Fixpoint toUpperCase (s : string) : string :=
  match s with
  | EmptyString => EmptyString
  | String c rest => String (upperChar c) (toUpperCase rest)
  end.

(** [String.prototype.repeat] *)
Fixpoint repeat (s : string) (n : nat) : string :=
  match n with
  | O => EmptyString
  | S k => s ++ repeat s k
  end.

End Js.

(** ** Big-number helpers of the [ethers] library *)

Module Ethers.

(** BigNumber values are unbounded integers. *)
Definition BigNumber : Type := Z.

Definition isDigit (c : ascii) : bool :=
  let n := Js.code c in (48 <=? n) && (n <=? 57).

Fixpoint allDigits (s : string) : bool :=
  match s with
  | EmptyString => true
  | String c rest => isDigit c && allDigits rest
  end.

(** The characters [parseUnits] lets through: digits and the point. *)
Fixpoint decimalChars (s : string) : bool :=
  match s with
  | EmptyString => true
  | String c rest => (isDigit c || Ascii.eqb c ".") && decimalChars rest
  end.

(** The value of a string of decimal digits (0 for the empty string). *)
Definition digitsValue (s : string) : Z :=
  match Js.parseDigits 10 s None with
  | Some v => v
  | None => 0
  end.

Fixpoint padEnd (n : nat) (s : string) : string :=
  match n with
  | O => s
  | S k => padEnd k (s ++ "0")
  end.

Fixpoint padStart (n : nat) (s : string) : string :=
  match n with
  | O => s
  | S k => padStart k ("0" ++ s)
  end.

(** Modelled from the spec: [ethers.utils.parseUnits] belongs to an external
    library whose code is not among the sources.  The spec's normalizer
    contract ("accepts a decimal string amount and an integer decimals
    count; returns the exact integer base-unit representation using
    arbitrary-precision integer arithmetic", failing on what is not a
    decimal numeral) is followed, with the library's documented treatment
    of a leading minus sign, of a missing whole or fractional part and of a
    fraction longer than [decimals]. *)
Definition parseUnits (value : string) (decimals : nat) : Result BigNumber :=
  let '(negative, body) :=
    match value with
    | String "-" rest => (true, rest)
    | _ => (false, value)
    end in
  if negb (decimalChars body) || String.eqb body "" then
    Throw "invalid decimal value"
  else if String.eqb body "." then Throw "missing value"
  else
    match Js.split "." body with
    | [] => Throw "invalid decimal value"
    | [whole] =>
        let wei := digitsValue whole * 10 ^ Z.of_nat decimals in
        Ok (if negative then - wei else wei)
    | [whole; fraction] =>
        if (decimals <? String.length fraction)%nat
        then Throw "underflow occurred"
        else
          let fraction :=
            padEnd (decimals - String.length fraction) fraction in
          let wei :=
            digitsValue whole * 10 ^ Z.of_nat decimals
            + digitsValue fraction in
          Ok (if negative then - wei else wei)
    | _ => Throw "too many decimal points"
    end.

(** The unit name ['gwei']: nine decimals. *)
Definition gwei : nat := 9.

(** The fraction up to its last digit that is not zero. *)
Fixpoint stripTrailingZeros (s : string) : string :=
  match s with
  | EmptyString => EmptyString
  | String c rest =>
      match stripTrailingZeros rest with
      | EmptyString => if Ascii.eqb c "0" then EmptyString else String c EmptyString
      | kept => String c kept
      end
  end.

(** Modelled from the spec: [ethers.utils.formatUnits] is external as well;
    it is the inverse rendering of a base-unit integer as a decimal string
    with [decimals] fractional digits, trailing zeros dropped. *)
Definition formatUnits (value : BigNumber) (decimals : nat) : string :=
  let magnitude := Z.abs value in
  let tenPower := 10 ^ Z.of_nat decimals in
  let digits := Js.string_of_Z (magnitude mod tenPower) in
  let fraction := padStart (decimals - String.length digits) digits in
  let fraction :=
    match stripTrailingZeros fraction with
    | EmptyString => "0"
    | kept => kept
    end in
  let whole := Js.string_of_Z (magnitude / tenPower) in
  (if value <? 0 then "-" else "") ++ whole ++ "." ++ fraction.

End Ethers.

(** ** Data exchanged with the chain *)

(** [{gasLimit, gasPrice}]: the limit is the Number the validator returned,
    the price a BigNumber in base units. *)
Record GasOptions : Type := mkGasOptions {
  gasLimit : Js.JsNum;
  gasPrice : Ethers.BigNumber
}.

(** What a submission resolves to before mining. *)
Record TransactionHandle : Type := mkTransactionHandle {
  hash : string
}.

(** What [getTransactionConfirmation] resolves to. *)
Record ConfirmationRecord : Type := mkConfirmationRecord {
  transactionHash : string;
  blockNumber : Z;
  gasUsed : Ethers.BigNumber
}.

(** The public shape of one report entry. *)
Record Receipt : Type := mkReceipt {
  receiptTransactionHash : string;
  receiptBlockNumber : Z;
  receiptGasUsed : string;
  href : string
}.

(** ** Observable events of a run *)

Inductive Event : Type :=
| ProviderFrom
| NewStriimProvider
| PrivateKey
| Erc20ContractFrom (symbol : string)
| BalanceOf (address : string)
| Release (periodIndex : Js.JsNum) (options : GasOptions)
| GetTransactionConfirmation (txHash : string) (timeout : Js.JsNum)
| GetDepositAllowance (symbol : string)
| ApproveTokenDeposit (amount : Js.JsValue) (symbol : string) (options : GasOptions)
| CompleteTokenDeposit (amount : Js.JsValue) (symbol : string) (options : GasOptions)
| SpinnerStart (text : string)
| SpinnerSucceed (text : string)
| SpinnerFail (text : option string)
| DebugLog (text : string)
| ConsoleError (text : string)
| ConsoleLog (report : list (option Receipt))
| ConsoleDebug (json : string)
| StopUpdate
| GetSupportedTokens
| NewPayment (amount currency sender recipient : string)
| PaymentSign
| PaymentRegister.

(** ** Runs: a trace of events and a result *)

Module Eff.

Definition M (A : Type) : Type := list Event * Result A.

Definition ret {A : Type} (a : A) : M A := ([], Ok a).

Definition bind {A B : Type} (c : M A) (k : A -> M B) : M B :=
  match c with
  | (t, Ok a) => let '(t', r) := k a in ((t ++ t')%list, r)
  | (t, Throw m) => (t, Throw m)
  end.

(** A pure computation that may throw. *)
Definition lift {A : Type} (r : Result A) : M A := ([], r).

Definition throw {A : Type} (message : string) : M A := ([], Throw message).

(** A call that cannot fail. *)
Definition emit (e : Event) : M unit := ([e], Ok tt).

(** A call answered by the outside world. *)
Definition call {A : Type} (e : Event) (answer : Result A) : M A := ([e], answer).

(** [try { body } catch (err) { handler err }] *)
Definition tryCatch {A : Type} (body : M A) (handler : string -> M A) : M A :=
  match body with
  | (t, Ok a) => (t, Ok a)
  | (t, Throw m) => let '(t', r) := handler m in ((t ++ t')%list, r)
  end.

(** [try { body } finally { cleanup }]: the cleanup runs on every outcome of
    the body, and an error thrown by the cleanup replaces that outcome. *)
Definition finally {A : Type} (body : M A) (cleanup : M unit) : M A :=
  let '(t, r) := body in
  let '(t', r') := cleanup in
  ((t ++ t')%list, match r' with Ok _ => r | Throw m => Throw m end).

Definition trace {A : Type} (c : M A) : list Event := fst c.
Definition result {A : Type} (c : M A) : Result A := snd c.

End Eff.

Notation "x <- c ;; k" := (Eff.bind c (fun x => k))
  (at level 61, c at next level, right associativity).
Notation "c ;;; k" := (Eff.bind c (fun _ => k))
  (at level 61, right associativity).

(** ** [claim nii for period <period>] (src/commands/claim-commands/nii.js) *)

Module Nii.

Import Js.

(** [argv] as the handler reads it. *)
Record Argv : Type := mkArgv {
  period : JsValue;
  gas : JsValue;
  price : JsValue;
  timeout : JsValue
}.

(** What the outside world answers, one field per call site in source order.
    Loading the modules, the constructors, the spinner, the debug log, the
    console and [provider.stopUpdate()] are taken not to fail. *)
Record World : Type := mkWorld {
  walletAddress : string;
  providerFrom : Result unit;
  privateKey : Result unit;
  erc20ContractFrom : Result unit;
  openingBalance : Result Z;
  releaseTx : Result TransactionHandle;
  releaseConfirmation : Result ConfirmationRecord;
  depositBalance : Result Z;
  depositAllowance : Result Z;
  clearTx : Result TransactionHandle;
  clearConfirmation : Result ConfirmationRecord;
  approveTx : Result TransactionHandle;
  approveConfirmation : Result ConfirmationRecord;
  completeTx : Result TransactionHandle;
  completeConfirmation : Result ConfirmationRecord;
  closingBalance : Result Z
}.

Definition validateGasPrice (priceGWei : JsValue) : Result JsNum :=
  let price := parseInt priceGWei in
  if le price (Num 0) then Throw "Gas price must be a number higher than 0."
  else Ok price.

Definition validateGasLimit (gas : JsValue) : Result JsNum :=
  let gasLimit := parseInt gas in
  if le gasLimit (Num 0) then Throw "Gas limit must be a number higher than 0."
  else Ok gasLimit.

Definition validatePeriod (period : JsValue) : Result JsNum :=
  let period := parseInt period in
  if lt period (Num 1) || gt period (Num 120)
  then Throw "Period must be a number from 1 to 120."
  else Ok period.

Definition validateTimeout (timeout : JsValue) : Result JsNum :=
  let timeout := parseInt timeout in
  if le timeout (Num 0) then Throw "Timeout must be a number higher than 0."
  else Ok timeout.

Definition reduceReceipt (txReceipt : option ConfirmationRecord) : option Receipt :=
  match txReceipt with
  | None => None
  | Some r =>
      Some {| receiptTransactionHash := transactionHash r;
              receiptBlockNumber := blockNumber r;
              receiptGasUsed := string_of_Z (gasUsed r);
              href := "https://ropsten.etherscan.io/tx/" ++ transactionHash r |}
  end.

Section Handler.

Variable w : World.
Variable period : JsNum.
Variable options : GasOptions.
Variable timeout : JsNum.

(** Lines 53-66: the release step inside its own [try]/[catch]; the value
    is [releaseReceipt], [None] while it is still [undefined]. *)
Definition releaseStep : Eff.M (option ConfirmationRecord) :=
  Eff.tryCatch
    (Eff.emit (SpinnerStart ("1/8 - Registering claim for period " ++ numToString period)) ;;;
     tx <- Eff.call (Release (sub period (Num 1)) options) (releaseTx w) ;;
     Eff.emit (SpinnerSucceed ("1/8 - Claim registered for period " ++ numToString period)) ;;;
     Eff.emit (SpinnerStart "2/8 - Confirming claim") ;;;
     receipt <- Eff.call (GetTransactionConfirmation (hash tx) timeout)
                         (releaseConfirmation w) ;;
     Eff.emit (SpinnerSucceed "2/8 - Claim confirmed") ;;;
     Eff.ret (Some receipt))
    (fun err =>
       Eff.emit (DebugLog err) ;;;
       Eff.emit (SpinnerFail (Some err)) ;;;
       Eff.ret None).

(** Lines 78-90: clear a non-zero allowance, or mark steps 3 and 4 skipped. *)
Definition clearStep (allowance : Z) : Eff.M unit :=
  if allowance >? 0 then
    Eff.emit (SpinnerStart "3/8 - Clearing allowance") ;;;
    pendingClearTx <- Eff.call (ApproveTokenDeposit (JNumber (Num 0)) "NII" options)
                               (clearTx w) ;;
    Eff.emit (SpinnerSucceed "3/8 - Allowance cleared") ;;;
    Eff.emit (SpinnerStart "4/8 - Confirming allowance is cleared") ;;;
    _ <- Eff.call (GetTransactionConfirmation (hash pendingClearTx) timeout)
                  (clearConfirmation w) ;;
    Eff.emit (SpinnerSucceed "4/8 - Allowance confirmed cleared")
  else
    Eff.emit (SpinnerSucceed "3/8 - Skipped") ;;;
    Eff.emit (SpinnerSucceed "4/8 - Skipped").

(** Lines 75-105: the value is [approveReceipt], [None] for [null]. *)
Definition approveStep (niiBalance allowance : Z) : Eff.M (option ConfirmationRecord) :=
  if allowance <? niiBalance then
    clearStep allowance ;;;
    Eff.emit (SpinnerStart ("5/8 - Approving transfer of " ++ string_of_Z niiBalance ++ " NII")) ;;;
    pendingApprovalTx <-
      Eff.call (ApproveTokenDeposit (JString (Ethers.formatUnits niiBalance 15)) "NII" options)
               (approveTx w) ;;
    Eff.emit (SpinnerSucceed "5/8 - Transfer approval registered") ;;;
    Eff.emit (SpinnerStart "6/8 - Confirming transfer approval") ;;;
    receipt <- Eff.call (GetTransactionConfirmation (hash pendingApprovalTx) timeout)
                        (approveConfirmation w) ;;
    Eff.emit (SpinnerSucceed "6/8 - Transfer approval confirmed") ;;;
    Eff.ret (Some receipt)
  else
    Eff.emit (SpinnerSucceed "3/8 - Skipped") ;;;
    Eff.emit (SpinnerSucceed "4/8 - Skipped") ;;;
    Eff.emit (SpinnerSucceed "5/8 - Skipped") ;;;
    Eff.emit (SpinnerSucceed "6/8 - Skipped") ;;;
    Eff.ret None.

(** Lines 107-113. *)
Definition completeStep (niiBalance : Z) : Eff.M ConfirmationRecord :=
  Eff.emit (SpinnerStart "7/8 - Registering nahmii deposit") ;;;
  pendingCompleteTx <-
    Eff.call (CompleteTokenDeposit (JString (Ethers.formatUnits niiBalance 15)) "NII" options)
             (completeTx w) ;;
  Eff.emit (SpinnerSucceed "7/8 - nahmii deposit registered") ;;;
  Eff.emit (SpinnerStart "8/8 - Confirming nahmii deposit") ;;;
  receipt <- Eff.call (GetTransactionConfirmation (hash pendingCompleteTx) timeout)
                      (completeConfirmation w) ;;
  Eff.emit (SpinnerSucceed ("8/8 - nahmii deposit of " ++ string_of_Z niiBalance ++ " NII confirmed")) ;;;
  Eff.ret receipt.

(** Lines 47-118: the body of the outer [try]. *)
Definition tryBody : Eff.M unit :=
  opening <- Eff.call (BalanceOf (walletAddress w)) (openingBalance w) ;;
  Eff.emit (DebugLog ("Opening on-chain balance: " ++ Ethers.formatUnits opening 15 ++ " NII")) ;;;
  releaseReceipt <- releaseStep ;;
  niiBalance <- Eff.call (BalanceOf (walletAddress w)) (depositBalance w) ;;
  Eff.emit (DebugLog ("Depositing: " ++ Ethers.formatUnits niiBalance 15 ++ " NII")) ;;;
  Eff.emit (SpinnerStart "Checking allowance") ;;;
  allowance <- Eff.call (GetDepositAllowance "NII") (depositAllowance w) ;;
  Eff.emit (SpinnerSucceed ("Allowance retrieved: " ++ string_of_Z allowance)) ;;;
  approveReceipt <- approveStep niiBalance allowance ;;
  completeReceipt <- completeStep niiBalance ;;
  Eff.emit (ConsoleError "Please allow a few minutes for the nahmii balance to be updated!") ;;;
  let output := map reduceReceipt [releaseReceipt; approveReceipt; Some completeReceipt] in
  Eff.emit (ConsoleLog output).

(** Lines 120-124. *)
Definition catchBlock (err : string) : Eff.M unit :=
  Eff.emit (DebugLog err) ;;;
  Eff.emit (SpinnerFail None) ;;;
  Eff.throw ("Claiming NII failed: " ++ err).

(** Lines 125-130. *)
Definition finallyBlock : Eff.M unit :=
  closing <- Eff.call (BalanceOf (walletAddress w)) (closingBalance w) ;;
  Eff.emit (DebugLog ("Closing on-chain balance: " ++ Ethers.formatUnits closing 15 ++ " NII")) ;;;
  Eff.emit StopUpdate.

(** Lines 46-130. *)
Definition guarded : Eff.M unit :=
  Eff.finally (Eff.tryCatch tryBody catchBlock) finallyBlock.

End Handler.

(** Lines 31-37: the gas policy, resolved before anything else happens. *)
Definition resolve (argv : Argv) : Result (JsNum * GasOptions * JsNum) :=
  match validatePeriod (period argv) with
  | Throw m => Throw m
  | Ok period =>
  match validateGasLimit (or (gas argv) (JNumber (Num 800000))) with
  | Throw m => Throw m
  | Ok gasLimit =>
  match validateTimeout (timeout argv) with
  | Throw m => Throw m
  | Ok timeout =>
  match validateGasPrice (or (price argv) (JNumber (Num 12))) with
  | Throw m => Throw m
  | Ok gasPriceGWEI =>
  match Ethers.parseUnits (numToString gasPriceGWEI) Ethers.gwei with
  | Throw m => Throw m
  | Ok gasPrice =>
      Ok (period, {| gasLimit := gasLimit; gasPrice := gasPrice |}, timeout)
  end end end end end.

(** Lines 30-131. *)
Definition handler (w : World) (argv : Argv) : Eff.M unit :=
  resolved <- Eff.lift (resolve argv) ;;
  let '(period, options, timeout) := resolved in
  Eff.call ProviderFrom (providerFrom w) ;;;
  Eff.call PrivateKey (privateKey w) ;;;
  Eff.call (Erc20ContractFrom "NII") (erc20ContractFrom w) ;;;
  guarded w period options timeout.

End Nii.

(** ** [claim fees for <currency>] (the handler stored after the tests in
    src/commands/pay.spec.js): its range and its gas policy *)

Module Fees.

Import Js.

(** [Symbol.for('block')] and [Symbol.for('accrual')] *)
Inductive RangeType : Type :=
| blockSymbol
| accrualSymbol.

Record Range : Type := mkRange {
  type : RangeType;
  first : JsNum;
  last : JsNum
}.

Record Argv : Type := mkArgv {
  blocks : JsValue;
  accruals : JsValue;
  gas : JsValue;
  price : JsValue;
  timeout : JsValue
}.

Definition validateGasPrice (priceGWei : JsValue) : Result JsNum :=
  let price := parseInt priceGWei in
  if le price (Num 0) then Throw "Gas price must be a number higher than 0."
  else Ok price.

Definition validateGasLimit (gas : JsValue) : Result JsNum :=
  let gasLimit := parseInt gas in
  if le gasLimit (Num 0) then Throw "Gas limit must be a number higher than 0."
  else Ok gasLimit.

Definition validateBlock (index : JsValue) (name : string) : Result JsNum :=
  let index := parseInt index in
  if isNaN index || lt index (Num 0)
  then Throw (name ++ " block number must be a number higher than 0.")
  else Ok index.

Definition validateAccrual (index : JsValue) (name : string) : Result JsNum :=
  let index := parseInt index in
  if isNaN index || lt index (Num 0)
  then Throw (name ++ " accrual index must be a number higher than 0.")
  else Ok index.

Definition validateTimeout (timeout : JsValue) : Result JsNum :=
  let timeout := parseInt timeout in
  if le timeout (Num 0) then Throw "Timeout must be a number higher than 0."
  else Ok timeout.

(** [const [first, last] = text.split('-')]; only a string has [split]. *)
Definition splitRange (text : JsValue) : Result (JsValue * JsValue) :=
  match text with
  | JString s =>
      let pieces := split "-" s in
      Ok (element pieces 0, element pieces 1)
  | _ => Throw "split is not a function"
  end.

(** The object literal [{type, first, last}]: [first] is validated before [last]. *)
Definition buildRange (kind : RangeType)
    (validate : JsValue -> string -> Result JsNum)
    (text : JsValue) : Result Range :=
  match splitRange text with
  | Throw m => Throw m
  | Ok (firstIndex, lastIndex) =>
      match validate firstIndex "First" with
      | Throw m => Throw m
      | Ok f =>
          match validate (or lastIndex firstIndex) "Last" with
          | Throw m => Throw m
          | Ok l => Ok {| type := kind; first := f; last := l |}
          end
      end
  end.

(** Lines 230-246: [range] stays [undefined] ([None]) when neither option
    is given. *)
Definition range (argv : Argv) : Result (option Range) :=
  if truthy (blocks argv) then
    match buildRange blockSymbol validateBlock (blocks argv) with
    | Throw m => Throw m
    | Ok r => Ok (Some r)
    end
  else if truthy (accruals argv) then
    match buildRange accrualSymbol validateAccrual (accruals argv) with
    | Throw m => Throw m
    | Ok r => Ok (Some r)
    end
  else Ok None.

(** Lines 248-253: the gas policy. *)
Definition resolve (argv : Argv) : Result (GasOptions * JsNum) :=
  match validateGasLimit (gas argv) with
  | Throw m => Throw m
  | Ok gasLimit =>
  match validateTimeout (timeout argv) with
  | Throw m => Throw m
  | Ok timeout =>
  match validateGasPrice (price argv) with
  | Throw m => Throw m
  | Ok gasPriceGWEI =>
  match Ethers.parseUnits (numToString gasPriceGWEI) Ethers.gwei with
  | Throw m => Throw m
  | Ok gasPrice => Ok ({| gasLimit := gasLimit; gasPrice := gasPrice |}, timeout)
  end end end end.

End Fees.

(** ** Binary64 arithmetic, for the handler that computes with Numbers *)

Module JsDouble.

Import Js.

Definition prec : Z := 53.
Definition emax : Z := 1024.

Definition double : Type := spec_float.

(** The digits at the head of [s] and what follows them. *)
Fixpoint spanDigits (s : string) : string * string :=
  match s with
  | EmptyString => (EmptyString, EmptyString)
  | String c rest =>
      if Ethers.isDigit c then
        let '(digits, tail) := spanDigits rest in (String c digits, tail)
      else (EmptyString, s)
  end.

(** The exponent part [e[+-]digits] at the head of [s], 0 when there is none. *)
Definition exponentPart (s : string) : Z :=
  match s with
  | String c rest =>
      if Ascii.eqb c "e" || Ascii.eqb c "E" then
        let '(sign, rest) :=
          match rest with
          | String "-" r => (-1, r)
          | String "+" r => (1, r)
          | _ => (1, rest)
          end in
        match parseDigits 10 rest None with
        | Some e => sign * e
        | None => 0
        end
      else 0
  | EmptyString => 0
  end.

(** The Number nearest to [n / d] (ties to even). *)
Definition nearest (negative : bool) (n d : Z) : double :=
  match n, d with
  | Zpos pn, Zpos pd =>
      SFdiv prec emax (S754_finite negative pn 0) (S754_finite false pd 0)
  | _, _ => S754_zero negative
  end.

(** [parseFloat(string)]: the longest prefix that is a decimal literal. *)
Definition parseFloat (s : string) : double :=
  let s := trimStart s in
  let '(negative, s) :=
    match s with
    | String "-" rest => (true, rest)
    | String "+" rest => (false, rest)
    | _ => (false, s)
    end in
  if String.prefix "Infinity" s then S754_infinity negative
  else
    let '(whole, tail) := spanDigits s in
    let '(fraction, tail) :=
      match tail with
      | String "." rest => spanDigits rest
      | _ => (EmptyString, tail)
      end in
    if String.eqb whole "" && String.eqb fraction "" then S754_nan
    else
      let mantissa := Ethers.digitsValue (whole ++ fraction) in
      let exponent := exponentPart tail - Z.of_nat (String.length fraction) in
      nearest negative (mantissa * 10 ^ Z.max 0 exponent) (10 ^ Z.max 0 (- exponent)).

(** [10 ** decimals], exact while the power is a Number (up to 10^22). *)
Definition pow10 (decimals : nat) : double :=
  binary_normalize prec emax (10 ^ Z.of_nat decimals) 0 false.

Definition mul (a b : double) : double := SFmul prec emax a b.

(** The real value of a finite Number as a fraction [numerator / 2^k]. *)
Definition exactValue (x : double) : option (Z * Z) :=
  match x with
  | S754_zero _ => Some (0, 1)
  | S754_finite negative m e =>
      let n := if negative then Zneg m else Zpos m in
      if 0 <=? e then Some (n * 2 ^ e, 1) else Some (n, 2 ^ (- e))
  | _ => None
  end.

Definition sameDouble (x y : double) : bool :=
  match x, y with
  | S754_zero a, S754_zero b => Bool.eqb a b
  | S754_infinity a, S754_infinity b => Bool.eqb a b
  | S754_finite a m e, S754_finite b m' e' =>
      Bool.eqb a b && Pos.eqb m m' && (e =? e')
  | _, _ => false
  end.

(** [a / b < 10^n], for [b > 0]. *)
Definition belowPow10 (a b n : Z) : bool :=
  if 0 <=? n then a <? b * 10 ^ n else a * 10 ^ (- n) <? b.

(** The least [n' >= n] with [a / b < 10^n']. *)
Fixpoint decimalExponent (fuel : nat) (n a b : Z) : Z :=
  match fuel with
  | O => n
  | S fuel' => if belowPow10 a b n then n else decimalExponent fuel' (n + 1) a b
  end.

(** Whether the decimal [s * 10^(n-k)] reads back as [x]. *)
Definition readsBack (x : double) (s n k : Z) : bool :=
  sameDouble x (nearest false (s * 10 ^ Z.max 0 (n - k)) (10 ^ Z.max 0 (k - n))).

(** The digits [s] (with [k] of them) nearest to [a / b] at scale [10^(n-k)]
    that read back as [x], if any; [n] moves up when [s] reaches [10^k]. *)
Definition digitsAt (x : double) (a b n k : Z) : option (Z * Z) :=
  let p := a * 10 ^ Z.max 0 (k - n) in
  let q := b * 10 ^ Z.max 0 (n - k) in
  let low := p / q in
  let high := low + 1 in
  let normal (s : Z) := if s =? 10 ^ k then (10 ^ (k - 1), n + 1) else (s, n) in
  let okLow := (10 ^ (k - 1) <=? low) && readsBack x low n k in
  let okHigh := let '(s, n') := normal high in readsBack x s n' k in
  let lowCloser :=
    let dl := p - low * q in
    let dh := high * q - p in
    (dl <? dh) || ((dl =? dh) && Z.even low) in
  if okLow && (lowCloser || negb okHigh) then Some (low, n)
  else if okHigh then Some (normal high)
  else None.

(** The shortest digits that read back as [x]: the least [k] first. *)
Fixpoint shortest (fuel : nat) (x : double) (a b n k : Z) : Z * Z * Z :=
  match fuel with
  | O => (0, n, k)
  | S fuel' =>
      match digitsAt x a b n k with
      | Some (s, n') => (s, n', k)
      | None => shortest fuel' x a b n (k + 1)
      end
  end.

Definition zeros (n : Z) : string := repeat "0" (Z.to_nat n).

(** [Number.prototype.toString] of a positive finite Number [a / b]. *)
Definition positiveToString (x : double) (a b : Z) : string :=
  let n := decimalExponent 700 (-330) a b in
  let '(s, n, k) := shortest 17 x a b n 1 in
  let digits := string_of_Z s in
  if (k <=? n) && (n <=? 21) then digits ++ zeros (n - k)
  else if (0 <? n) && (n <=? 21) then
    String.substring 0 (Z.to_nat n) digits ++ "."
    ++ String.substring (Z.to_nat n) (Z.to_nat (k - n)) digits
  else if (-6 <? n) && (n <=? 0) then "0." ++ zeros (- n) ++ digits
  else
    let e := n - 1 in
    let exponent := (if e <? 0 then "-" else "+") ++ string_of_Z (Z.abs e) in
    if k =? 1 then digits ++ "e" ++ exponent
    else String.substring 0 1 digits ++ "."
         ++ String.substring 1 (Z.to_nat (k - 1)) digits ++ "e" ++ exponent.

(** [Number.prototype.toString] *)
Definition toString (x : double) : string :=
  match x with
  | S754_nan => "NaN"
  | S754_zero _ => "0"
  | S754_infinity negative => if negative then "-Infinity" else "Infinity"
  | S754_finite negative m e =>
      let '(a, b) := if 0 <=? e then (Zpos m * 2 ^ e, 1) else (Zpos m, 2 ^ (- e)) in
      (if negative then "-" else "") ++ positiveToString (S754_finite false m e) a b
  end.

End JsDouble.

(** ** [pay <amount> <currency> to <recipient>] *)

Module Pay.

Import Js.

Record Token : Type := mkToken {
  currency : string;
  symbol : string;
  decimals : nat
}.

Record Argv : Type := mkArgv {
  amount : string;
  argvCurrency : string;
  recipient : string
}.

(** What lies outside the handler.  [prefix0x] is [striim.utils.prefix0x],
    a function of the SDK ([../sdk]), which is not among the sources: it is
    taken as any function on strings.  The other fields are the configured
    wallet address, [process.env.LOG_LEVEL === 'debug'], and the answers to
    the calls that may fail. *)
Record World : Type := mkWorld {
  prefix0x : string -> string;
  walletAddress : string;
  logLevelDebug : bool;
  supportedTokens : Result (list Token);
  privateKey : Result unit;
  register : Result string
}.

Definition sameSymbol (wanted : string) (t : Token) : bool :=
  String.eqb (toUpperCase (symbol t)) (toUpperCase wanted).

(** [tokenDefinition.decimals] and the like: reading a property of [undefined] throws. *)
Definition defined (definition : option Token) : Result Token :=
  match definition with
  | Some t => Ok t
  | None => Throw "Cannot read property 'decimals' of undefined"
  end.

Definition catchBlock (w : World) (err : string) : Eff.M unit :=
  (if logLevelDebug w then Eff.emit (ConsoleError err) else Eff.ret tt) ;;;
  Eff.throw ("Payment failed: " ++ err).

Section Submit.

Variable w : World.
Variable argv : Argv.

(** From the amount in base units to the registered payment; the two
    versions of the handler share these lines. *)
Definition submit (amount : string) (definition : Token) : Eff.M unit :=
  let currency := prefix0x w (currency definition) in
  let recipient := prefix0x w (recipient argv) in
  let sender := prefix0x w (walletAddress w) in
  Eff.emit (NewPayment amount currency sender recipient) ;;;
  Eff.call PrivateKey (privateKey w) ;;;
  Eff.emit PaymentSign ;;;
  response <- Eff.call PaymentRegister (register w) ;;
  Eff.emit (ConsoleDebug response).

(** src/commands/pay.js, lines 43-54 *)
Definition getCurrencyBySymbol (symbol : string) : Eff.M (option Token) :=
  if String.eqb (toUpperCase symbol) "ETH" then
    Eff.ret (Some {| currency := prefix0x w (repeat "00" 20);
                     symbol := "ETH";
                     decimals := 18 |})
  else
    tokens <- Eff.call GetSupportedTokens (supportedTokens w) ;;
    Eff.ret (find (sameSymbol symbol) tokens).

(** src/commands/pay.js, line 20: the amount in base units, as a string. *)
Definition normalize (amount : string) (decimals : nat) : Result string :=
  match Ethers.parseUnits amount decimals with
  | Ok wei => Ok (string_of_Z wei)
  | Throw m => Throw m
  end.

(** src/commands/pay.js, lines 13-40 *)
Definition handler : Eff.M unit :=
  Eff.tryCatch
    (Eff.emit NewStriimProvider ;;;
     currencyDefinition <- getCurrencyBySymbol (argvCurrency argv) ;;
     definition <- Eff.lift (defined currencyDefinition) ;;
     amount <- Eff.lift (normalize (amount argv) (decimals definition)) ;;
     submit amount definition)
    (catchBlock w).

(** src/unnamed/part_000, line 19: the amount as a Number,
    [parseFloat(argv.amount) * 10 ** tokenDefinition.decimals]. *)
Definition floatAmount (amount : string) (decimals : nat) : JsDouble.double :=
  JsDouble.mul (JsDouble.parseFloat amount) (JsDouble.pow10 decimals).

(** src/unnamed/part_000, lines 10-39: the handler that computes the
    amount with Numbers. *)
Definition floatHandler : Eff.M unit :=
  Eff.tryCatch
    (Eff.emit NewStriimProvider ;;;
     tokens <- Eff.call GetSupportedTokens (supportedTokens w) ;;
     let tokenDefinition := find (sameSymbol (argvCurrency argv)) tokens in
     definition <- Eff.lift (defined tokenDefinition) ;;
     let amount :=
       JsDouble.toString (floatAmount (amount argv) (decimals definition)) in
     submit amount definition)
    (catchBlock w).

End Submit.

End Pay.

(** ** [deposit <amount> <currency>]: the amount check *)

Module Deposit.

(** The two messages the command's tests look for
    ([/amount.*number/i] and [/amount.*zero/i]). *)
Definition InvalidAmount : string := "Amount must be a number.".
Definition ZeroAmount : string := "Amount must be greater than zero.".

(** Modelled from the spec: src/commands/deposit.js is not among the
    sources, only its tests are.  Section 4.1: the normalizer "accepts a
    decimal string amount and an integer decimals count; returns the exact
    integer base-unit representation", it "fails with InvalidAmount when the
    input is not a valid non-negative decimal numeral, and with ZeroAmount
    when the normalized value is exactly zero". *)
Definition normalize (amount : string) (decimals : nat) : Result Z :=
  match Ethers.parseUnits amount decimals with
  | Throw _ => Throw InvalidAmount
  | Ok wei =>
      if wei <? 0 then Throw InvalidAmount
      else if wei =? 0 then Throw ZeroAmount
      else Ok wei
  end.

Section Handler.

(** What the command does once the provider exists is not modelled. *)
Variable rest : Z -> Eff.M unit.
Variable providerFrom : Result unit.
Variable decimals : nat.

(** Modelled from the spec: section 7, input validation is "detected
    before any network call"; the tests of the command check that the
    provider was not instantiated when the amount is rejected. *)
Definition handler (amount : string) : Eff.M unit :=
  wei <- Eff.lift (normalize amount decimals) ;;
  Eff.call ProviderFrom providerFrom ;;;
  rest wei.

End Handler.

End Deposit.

(** ** What is observed of a run *)

(** The on-chain steps of the NII workflow. *)
Inductive StepName : Type :=
| StepRelease
| StepClear
| StepApprove
| StepComplete.

(** The step an event submits: [approveTokenDeposit(0, ...)] is the clearing
    of the allowance, [approveTokenDeposit(<string>, ...)] the approval. *)
Definition stepOf (e : Event) : option StepName :=
  match e with
  | Release _ _ => Some StepRelease
  | ApproveTokenDeposit (Js.JNumber _) _ _ => Some StepClear
  | ApproveTokenDeposit _ _ _ => Some StepApprove
  | CompleteTokenDeposit _ _ _ => Some StepComplete
  | _ => None
  end.

(** The steps submitted during a run, in order. *)
Fixpoint submitted (t : list Event) : list StepName :=
  match t with
  | [] => []
  | e :: rest =>
      match stepOf e with
      | Some s => s :: submitted rest
      | None => submitted rest
      end
  end.

Definition isAllowanceStep (s : StepName) : bool :=
  match s with
  | StepClear | StepApprove => true
  | _ => false
  end.

(** The steps the allowance rule decides about. *)
Definition allowanceSteps (t : list Event) : list StepName :=
  filter isAllowanceStep (submitted t).

(** Calls that reach the chain or the API. *)
Definition isNetworkCall (e : Event) : bool :=
  match e with
  | ProviderFrom | Erc20ContractFrom _ | BalanceOf _ | Release _ _
  | GetTransactionConfirmation _ _ | GetDepositAllowance _
  | ApproveTokenDeposit _ _ _ | CompleteTokenDeposit _ _ _
  | GetSupportedTokens | PaymentRegister => true
  | _ => false
  end.

(** How often [provider.stopUpdate()] ran. *)
Fixpoint stopUpdates (t : list Event) : nat :=
  match t with
  | [] => O
  | StopUpdate :: rest => S (stopUpdates rest)
  | _ :: rest => stopUpdates rest
  end.

(** The reports written with [console.log]. *)
Fixpoint reports (t : list Event) : list (list (option Receipt)) :=
  match t with
  | [] => []
  | ConsoleLog report :: rest => report :: reports rest
  | _ :: rest => reports rest
  end.

(** The amounts handed to the approval and to the completion of the deposit. *)
Fixpoint approveAmounts (t : list Event) : list Js.JsValue :=
  match t with
  | [] => []
  | ApproveTokenDeposit (Js.JString a) _ _ :: rest => Js.JString a :: approveAmounts rest
  | _ :: rest => approveAmounts rest
  end.

Fixpoint completeAmounts (t : list Event) : list Js.JsValue :=
  match t with
  | [] => []
  | CompleteTokenDeposit a _ _ :: rest => a :: completeAmounts rest
  | _ :: rest => completeAmounts rest
  end.

(** The amounts of the payments created. *)
Fixpoint paymentAmounts (t : list Event) : list string :=
  match t with
  | [] => []
  | NewPayment amount _ _ _ :: rest => amount :: paymentAmounts rest
  | _ :: rest => paymentAmounts rest
  end.

(** ** Outcomes of the steps, read off the world *)

(** The release step went through: submitted and confirmed. *)
Definition releaseConfirmed (w : Nii.World) : bool :=
  isOk (Nii.releaseTx w) && isOk (Nii.releaseConfirmation w).

(** The clearing of the allowance, when it is submitted, goes through. *)
Definition clearConfirmed (w : Nii.World) : bool :=
  isOk (Nii.clearTx w) && isOk (Nii.clearConfirmation w).

(** The approval, when it is submitted, goes through. *)
Definition approveConfirmed (w : Nii.World) : bool :=
  isOk (Nii.approveTx w) && isOk (Nii.approveConfirmation w).

(** "The submission or the confirmation of the required step [s] fails with
    message [m]", in a run whose allowance check read balance [R] and
    allowance [A]: the step is one the run reaches (the steps before it were
    skipped or went through) and the world rejects its submission, or accepts
    it and rejects the wait for its confirmation. *)
Inductive RequiredFailure (w : Nii.World) (R A : Z) : StepName -> string -> Prop :=
| ClearSubmissionFails m :
    A < R -> 0 < A ->
    Nii.clearTx w = Throw m ->
    RequiredFailure w R A StepClear m
| ClearConfirmationFails m :
    A < R -> 0 < A ->
    isOk (Nii.clearTx w) = true -> Nii.clearConfirmation w = Throw m ->
    RequiredFailure w R A StepClear m
| ApproveSubmissionFails m :
    A < R -> (0 < A -> clearConfirmed w = true) ->
    Nii.approveTx w = Throw m ->
    RequiredFailure w R A StepApprove m
| ApproveConfirmationFails m :
    A < R -> (0 < A -> clearConfirmed w = true) ->
    isOk (Nii.approveTx w) = true -> Nii.approveConfirmation w = Throw m ->
    RequiredFailure w R A StepApprove m
| CompleteSubmissionFails m :
    (A < R -> (0 < A -> clearConfirmed w = true) /\ approveConfirmed w = true) ->
    Nii.completeTx w = Throw m ->
    RequiredFailure w R A StepComplete m
| CompleteConfirmationFails m :
    (A < R -> (0 < A -> clearConfirmed w = true) /\ approveConfirmed w = true) ->
    isOk (Nii.completeTx w) = true -> Nii.completeConfirmation w = Throw m ->
    RequiredFailure w R A StepComplete m.

(** "The release step fails with message [m]": its submission is rejected, or
    accepted and the wait for its confirmation is rejected. *)
Definition ReleaseFailure (w : Nii.World) (m : string) : Prop :=
  Nii.releaseTx w = Throw m
  \/ (isOk (Nii.releaseTx w) = true /\ Nii.releaseConfirmation w = Throw m).

(** One of the three reads of the body (the two balance reads, the
    allowance read) is rejected with [m]. *)
Definition readFails (w : Nii.World) (m : string) : Prop :=
  Nii.openingBalance w = Throw m
  \/ (isOk (Nii.openingBalance w) = true /\ Nii.depositBalance w = Throw m)
  \/ (isOk (Nii.openingBalance w) = true /\ isOk (Nii.depositBalance w) = true
      /\ Nii.depositAllowance w = Throw m).

(** The provider was obtained: the run got past [NahmiiProvider.from]. *)
Definition providerAcquired (w : Nii.World) (argv : Nii.Argv) : bool :=
  isOk (Nii.resolve argv) && isOk (Nii.providerFrom w).

(** The run reaches the outer [try]: the arguments resolve, and the provider,
    the key and the token contract are obtained. *)
Definition started (w : Nii.World) (argv : Nii.Argv) : bool :=
  providerAcquired w argv
  && isOk (Nii.privateKey w) && isOk (Nii.erc20ContractFrom w).

(** The same world with another answer to the first balance read. *)
Definition withOpeningBalance (w : Nii.World) (answer : Result Z) : Nii.World :=
  {| Nii.walletAddress := Nii.walletAddress w;
     Nii.providerFrom := Nii.providerFrom w;
     Nii.privateKey := Nii.privateKey w;
     Nii.erc20ContractFrom := Nii.erc20ContractFrom w;
     Nii.openingBalance := answer;
     Nii.releaseTx := Nii.releaseTx w;
     Nii.releaseConfirmation := Nii.releaseConfirmation w;
     Nii.depositBalance := Nii.depositBalance w;
     Nii.depositAllowance := Nii.depositAllowance w;
     Nii.clearTx := Nii.clearTx w;
     Nii.clearConfirmation := Nii.clearConfirmation w;
     Nii.approveTx := Nii.approveTx w;
     Nii.approveConfirmation := Nii.approveConfirmation w;
     Nii.completeTx := Nii.completeTx w;
     Nii.completeConfirmation := Nii.completeConfirmation w;
     Nii.closingBalance := Nii.closingBalance w |}.

(** A trace without its debug log lines. *)
Definition isDebugLog (e : Event) : bool :=
  match e with DebugLog _ => true | _ => false end.

Definition withoutDebugLog (t : list Event) : list Event :=
  filter (fun e => negb (isDebugLog e)) t.

(** ** Properties of computations *)

(** A computation that, when it throws, throws at a call to the outside
    world: that call is the last event of its trace. *)
Definition abortsAtCall {A : Type} (c : Eff.M A) : Prop :=
  forall m, Eff.result c = Throw m ->
  exists pre e, Eff.trace c = (pre ++ [e])%list /\ isNetworkCall e = true.

(** Every event of a run satisfies [P]. *)
Definition everyEvent {A : Type} (P : Event -> Prop) (c : Eff.M A) : Prop :=
  Forall P (Eff.trace c).

(** The event, if it submits a transaction, carries the gas options [o];
    if it waits for a confirmation, it waits with the timeout [t]. *)
Definition usesPolicy (o : GasOptions) (t : Js.JsNum) (e : Event) : Prop :=
  match e with
  | Release _ o' | ApproveTokenDeposit _ _ o' | CompleteTokenDeposit _ _ o' => o' = o
  | GetTransactionConfirmation _ t' => t' = t
  | _ => True
  end.

(** An observation that reads a trace event by event. *)
Class Observation {X : Type} (obs : list Event -> list X) : Prop :=
  obs_app : forall t u, obs (t ++ u)%list = (obs t ++ obs u)%list.

(** ** The range option the fee claim reads *)

(** The text the handler splits: [argv.blocks] when it is truthy, else
    [argv.accruals]. *)
Definition rangeText (argv : Fees.Argv) : Js.JsValue :=
  if Js.truthy (Fees.blocks argv) then Fees.blocks argv else Fees.accruals argv.

Definition rangeKind (argv : Fees.Argv) : Fees.RangeType :=
  if Js.truthy (Fees.blocks argv) then Fees.blockSymbol else Fees.accrualSymbol.

(** What the validators of a bound reject: [NaN] and negative numbers. *)
Definition badBound (n : Js.JsNum) : bool := Js.isNaN n || Js.lt n (Js.Num 0).

(** The first bound and the last bound as the handler passes them on. *)
Definition firstBound (s : string) : Js.JsValue := Js.element (Js.split "-" s) 0.

Definition lastBound (s : string) : Js.JsValue :=
  Js.or (Js.element (Js.split "-" s) 1) (firstBound s).

Fixpoint contains (c : ascii) (s : string) : bool :=
  match s with
  | EmptyString => false
  | String c' rest => Ascii.eqb c' c || contains c rest
  end.

(** ** Reading decimal digits *)

(** The value read from the digits [d] after the digits that gave [acc]. *)
Fixpoint readAfter (d : Decimal.uint) (acc : Z) : Z :=
  match d with
  | Decimal.Nil => acc
  | Decimal.D0 d => readAfter d (10 * acc + 0)
  | Decimal.D1 d => readAfter d (10 * acc + 1)
  | Decimal.D2 d => readAfter d (10 * acc + 2)
  | Decimal.D3 d => readAfter d (10 * acc + 3)
  | Decimal.D4 d => readAfter d (10 * acc + 4)
  | Decimal.D5 d => readAfter d (10 * acc + 5)
  | Decimal.D6 d => readAfter d (10 * acc + 6)
  | Decimal.D7 d => readAfter d (10 * acc + 7)
  | Decimal.D8 d => readAfter d (10 * acc + 8)
  | Decimal.D9 d => readAfter d (10 * acc + 9)
  end.

(** ** Sample runs *)

Module Sample.

Definition handle (h : string) : Result TransactionHandle :=
  Ok {| hash := h |}.

Definition mined (h : string) (block used : Z) : Result ConfirmationRecord :=
  Ok {| transactionHash := h; blockNumber := block; gasUsed := used |}.

(** [claim nii for period 1] with the defaults of the options. *)
Definition argv : Nii.Argv :=
  {| Nii.period := Js.JNumber (Js.Num 1);
     Nii.gas := Js.JNumber (Js.Num 800000);
     Nii.price := Js.JNumber (Js.Num 12);
     Nii.timeout := Js.JNumber (Js.Num 60) |}.

(** The same with [--timeout=abc]: an option of type number that does not
    parse reaches the handler as [NaN]. *)
Definition argvTimeoutNaN : Nii.Argv :=
  {| Nii.period := Js.JNumber (Js.Num 1);
     Nii.gas := Js.JNumber (Js.Num 800000);
     Nii.price := Js.JNumber (Js.Num 12);
     Nii.timeout := Js.JNumber Js.NaN |}.

Definition options : GasOptions :=
  {| gasLimit := Js.Num 800000; gasPrice := 12000000000 |}.

(** A world in which every call not named here succeeds. *)
Definition build (key : Result unit) (release complete : Result TransactionHandle)
    (balance allowance : Z) (closing : Result Z) : Nii.World :=
  {| Nii.walletAddress := "0x1234567890123456789012345678901234567890";
     Nii.providerFrom := Ok tt;
     Nii.privateKey := key;
     Nii.erc20ContractFrom := Ok tt;
     Nii.openingBalance := Ok 0;
     Nii.releaseTx := release;
     Nii.releaseConfirmation := mined "0xaa" 100 50000;
     Nii.depositBalance := Ok balance;
     Nii.depositAllowance := Ok allowance;
     Nii.clearTx := handle "0xbb";
     Nii.clearConfirmation := mined "0xbb" 101 30000;
     Nii.approveTx := handle "0xcc";
     Nii.approveConfirmation := mined "0xcc" 102 45000;
     Nii.completeTx := complete;
     Nii.completeConfirmation := mined "0xdd" 103 90000;
     Nii.closingBalance := closing |}.

(** Every call succeeds; the wallet holds [balance] after the release and
    has approved [allowance] before. *)
Definition world (balance allowance : Z) : Nii.World :=
  build (Ok tt) (handle "0xaa") (handle "0xdd") balance allowance (Ok 0).

(** The same, but the release is refused. *)
Definition releaseRefused (balance allowance : Z) : Nii.World :=
  build (Ok tt) (Throw "nothing to release") (handle "0xdd") balance allowance (Ok 0).

(** Every step succeeds, then the balance read of the [finally] block fails. *)
Definition closingReadFails : Nii.World :=
  build (Ok tt) (handle "0xaa") (handle "0xdd") 5000 5000 (Throw "network error").

(** No allowance yet; the completion of the deposit is refused. *)
Definition completeRefused : Nii.World :=
  build (Ok tt) (handle "0xaa") (Throw "transaction failed") 5000 0 (Ok 0).

(** The provider is obtained, then the private key cannot be decrypted. *)
Definition keyRefused : Nii.World :=
  build (Throw "invalid password") (handle "0xaa") (handle "0xdd") 5000 5000 (Ok 0).


(** The network goes down during the completion of the deposit: the
    completion is refused, and so is the balance read of the [finally]
    block. *)
Definition outage : Nii.World :=
  build (Ok tt) (handle "0xaa") (Throw "transaction failed") 5000 0
    (Throw "network error").

End Sample.

Module FeesSample.

Definition accruals (text : string) (gas timeout : Js.JsNum) : Fees.Argv :=
  {| Fees.blocks := Js.JUndefined;
     Fees.accruals := Js.JString text;
     Fees.gas := Js.JNumber gas;
     Fees.price := Js.JNumber (Js.Num 12);
     Fees.timeout := Js.JNumber timeout |}.

(** [claim fees for NII --accruals=5-2] *)
Definition descending : Fees.Argv := accruals "5-2" (Js.Num 6000000) (Js.Num 60).

(** [--accruals=0-2] *)
Definition ascending : Fees.Argv := accruals "0-2" (Js.Num 6000000) (Js.Num 60).

(** [--accrual=3] *)
Definition single : Fees.Argv := accruals "3" (Js.Num 6000000) (Js.Num 60).

(** [--accruals=0-2 --gas=abc --timeout=abc]: options of type number that
    do not parse reach the handler as [NaN]. *)
Definition unparsable : Fees.Argv := accruals "0-2" Js.NaN Js.NaN.

End FeesSample.

Module PaySample.

(** The currencies of the tests of the pay command, and one with 18 decimals. *)
Definition hbt : Pay.Token :=
  {| Pay.currency := "0x0000000000000000000000000000000000000001";
     Pay.symbol := "HBT";
     Pay.decimals := 15 |}.

Definition wtf : Pay.Token :=
  {| Pay.currency := "0x0000000000000000000000000000000000000002";
     Pay.symbol := "WTF";
     Pay.decimals := 7 |}.

Definition tt1 : Pay.Token :=
  {| Pay.currency := "0x0000000000000000000000000000000000000003";
     Pay.symbol := "TT1";
     Pay.decimals := 18 |}.

(** In the sample runs [prefix0x] puts [0x] before a string that does not
    start with it. *)
Definition world : Pay.World :=
  {| Pay.prefix0x := fun s => if String.prefix "0x" s then s else "0x" ++ s;
     Pay.walletAddress := "0x1234567890123456789012345678901234567891";
     Pay.logLevelDebug := false;
     Pay.supportedTokens := Ok [hbt; wtf; tt1];
     Pay.privateKey := Ok tt;
     Pay.register := Ok "{}" |}.

Definition pay (amount currency : string) : Pay.Argv :=
  {| Pay.amount := amount;
     Pay.argvCurrency := currency;
     Pay.recipient := "0x1234567890123456789012345678901234567890" |}.

End PaySample.

(** ** Proof automation *)

(** Case analysis on every answer of the world that a goal still waits for. *)
Ltac answer_cases :=
  repeat match goal with
         | |- context [Eff.call _ ?r] =>
             lazymatch r with
             | Ok _ => fail
             | Throw _ => fail
             | _ => let E := fresh "E" in destruct r eqn:E
             end
         end.

(** * The other commands, and the rest of the fee claim *)

(** ** Runs over the events of a command

    The commands below have events of their own; their runs are the runs of
    [Eff], over any type of events. *)

Module Run.

Definition M (E A : Type) : Type := list E * Result A.

Definition ret {E A : Type} (a : A) : M E A := ([], Ok a).

Definition bind {E A B : Type} (c : M E A) (k : A -> M E B) : M E B :=
  match c with
  | (t, Ok a) => let '(t', r) := k a in ((t ++ t')%list, r)
  | (t, Throw m) => (t, Throw m)
  end.

(** A pure computation that may throw. *)
Definition lift {E A : Type} (r : Result A) : M E A := ([], r).

Definition throw {E A : Type} (message : string) : M E A := ([], Throw message).

(** A call that cannot fail. *)
Definition emit {E : Type} (e : E) : M E unit := ([e], Ok tt).

(** A call answered by the outside world. *)
Definition call {E A : Type} (e : E) (answer : Result A) : M E A := ([e], answer).

(** [if (condition) { body }] *)
Definition when {E : Type} (condition : bool) (body : M E unit) : M E unit :=
  if condition then body else ret tt.

(** [try { body } catch (err) { handler err }] *)
Definition tryCatch {E A : Type} (body : M E A) (handler : string -> M E A) : M E A :=
  match body with
  | (t, Ok a) => (t, Ok a)
  | (t, Throw m) => let '(t', r) := handler m in ((t ++ t')%list, r)
  end.

(** [try { body } finally { cleanup }] *)
Definition finally {E A : Type} (body : M E A) (cleanup : M E unit) : M E A :=
  let '(t, r) := body in
  let '(t', r') := cleanup in
  ((t ++ t')%list, match r' with Ok _ => r | Throw m => Throw m end).

Definition trace {E A : Type} (c : M E A) : list E := fst c.
Definition result {E A : Type} (c : M E A) : Result A := snd c.

(** How many events of a trace satisfy [p]. *)
Definition count {E : Type} (p : E -> bool) (t : list E) : nat :=
  List.length (List.filter p t).

(** Every event of a run satisfies [P]. *)
Definition every {E A : Type} (P : E -> Prop) (c : M E A) : Prop :=
  Forall P (trace c).

End Run.

Declare Scope run_scope.

Notation "x <- c ;; k" := (Run.bind c (fun x => k))
  (at level 61, c at next level, right associativity) : run_scope.
Notation "c ;;; k" := (Run.bind c (fun _ => k))
  (at level 61, right associativity) : run_scope.

(** The message of the TypeError raised by reading [property] of [undefined]. *)
Definition cannotRead (property : string) : string :=
  "Cannot read property '" ++ property ++ "' of undefined".

(** [String.prototype.toLowerCase] on ASCII letters. *)
Definition lowerChar (c : ascii) : ascii :=
  let n := Js.code c in
  if (65 <=? n) && (n <=? 90) then ascii_of_N (Z.to_N (n + 32)) else c.

Fixpoint toLowerCase (s : string) : string :=
  match s with
  | EmptyString => EmptyString
  | String c rest => String (lowerChar c) (toLowerCase rest)
  end.

(** ** [show payments] (src/commands/show-commands/payments.js) *)

Module Payments.

Local Open Scope run_scope.

(** [payment.sender] and [payment.recipient]: an object whose [wallet] is a
    string, or [undefined] when the field is missing. *)
Record Party : Type := mkParty {
  wallet : option string
}.

(** A pending payment as far as the command reads it; [None] is a party that
    is missing from the object. *)
Record Payment : Type := mkPayment {
  id : string;
  sender : option Party;
  recipient : option Party
}.

(** What [getPendingPayments] can resolve to: [null] or [undefined]; a value
    that is no array, with its [length] truthy or not; an array. *)
Inductive Pending : Type :=
| Nothing
| Other (lengthTruthy : bool)
| Array (payments : list Payment).

Inductive Event : Type :=
| ProviderFrom
| GetPendingPayments
| ConsoleLog (payments : list Payment)
| DebugLog (err : string)
| StopUpdate.

(** What the outside world answers; the configured wallet address is a
    string, and the debug log, the console and [provider.stopUpdate()] are
    taken not to fail. *)
Record World : Type := mkWorld {
  walletAddress : string;
  providerFrom : Result unit;
  pendingPayments : Result Pending
}.

Section Handler.

(** [nahmii.utils.strip0x] belongs to the SDK: any function from a string or
    [undefined] to a string, that may throw. *)
Variable strip0x : option string -> Result string.

Variable w : World.

(** Lines 6-10. *)
Definition isSameAddress (a b : option string) : Result bool :=
  match strip0x a with
  | Throw m => Throw m
  | Ok a =>
      match strip0x b with
      | Throw m => Throw m
      | Ok b => Ok (String.eqb (toLowerCase a) (toLowerCase b))
      end
  end.

(** [party.wallet] *)
Definition walletOf (party : option Party) : Result (option string) :=
  match party with
  | None => Throw (cannotRead "wallet")
  | Some p => Ok (wallet p)
  end.

(** Lines 20-23: the recipient is looked at only when the sender is not the
    configured wallet. *)
Definition isMyPayment (payment : Payment) : Result bool :=
  match walletOf (sender payment) with
  | Throw m => Throw m
  | Ok a =>
      match isSameAddress a (Some (walletAddress w)) with
      | Throw m => Throw m
      | Ok true => Ok true
      | Ok false =>
          match walletOf (recipient payment) with
          | Throw m => Throw m
          | Ok b => isSameAddress b (Some (walletAddress w))
          end
      end
  end.

(** [Array.prototype.filter] with a callback that may throw. *)
Fixpoint filter (keep : Payment -> Result bool) (payments : list Payment)
    : Result (list Payment) :=
  match payments with
  | [] => Ok []
  | p :: rest =>
      match keep p with
      | Throw m => Throw m
      | Ok kept =>
          match filter keep rest with
          | Throw m => Throw m
          | Ok others => Ok (if kept then p :: others else others)
          end
      end
  end.

(** Lines 26-29: [if (!payments.length) payments = [];] and the filter. *)
Definition mine (payments : Pending) : Result (list Payment) :=
  match payments with
  | Nothing => Throw (cannotRead "length")
  | Other false => Ok []
  | Other true => Throw "payments.filter is not a function"
  | Array l => filter isMyPayment l
  end.

(** Lines 16-39. *)
Definition handler : Run.M Event unit :=
  Run.call ProviderFrom (providerFrom w) ;;;
  Run.finally
    (Run.tryCatch
       (payments <- Run.call GetPendingPayments (pendingPayments w) ;;
        payments <- Run.lift (mine payments) ;;
        Run.emit (ConsoleLog payments))
       (fun err =>
          Run.emit (DebugLog err) ;;;
          Run.throw "Unable to show pending payments."))
    (Run.emit StopUpdate).

End Handler.

Definition isStopUpdate (e : Event) : bool :=
  match e with StopUpdate => true | _ => false end.

Definition isConsoleLog (e : Event) : bool :=
  match e with ConsoleLog _ => true | _ => false end.

(** The address a party is known by, when it has one. *)
Definition address (party : option Party) : option string :=
  match party with
  | Some p => wallet p
  | None => None
  end.

End Payments.

(** ** [show balance] (src/unnamed/part_001) *)

Module Balance.

Local Open Scope run_scope.

Inductive Event : Type :=
| PrivateKey
| GetNahmiiBalance
| ConsoleLog (balances : string)
| ConsoleError (err : string).

(** [balances] is the JSON text of what the wallet answers. *)
Record World : Type := mkWorld {
  logLevelDebug : bool;
  privateKey : Result unit;
  nahmiiBalance : Result string
}.

(** Lines 9-23. *)
Definition handler (w : World) : Run.M Event unit :=
  Run.tryCatch
    (Run.call PrivateKey (privateKey w) ;;;
     balances <- Run.call GetNahmiiBalance (nahmiiBalance w) ;;
     Run.emit (ConsoleLog balances))
    (fun err =>
       Run.when (logLevelDebug w) (Run.emit (ConsoleError err)) ;;;
       Run.throw "Unable to retrieve the balance.").

Definition isConsoleLog (e : Event) : bool :=
  match e with ConsoleLog _ => true | _ => false end.

Definition isConsoleError (e : Event) : bool :=
  match e with ConsoleError _ => true | _ => false end.

End Balance.

(** ** [claim fees for <currency>]: the whole handler (src/commands/pay.spec.js,
    lines 229-322) *)

Module FeesClaim.

Import Js.

Local Open Scope run_scope.

(** [provider.getTokenInfo] *)
Record TokenInfo : Type := mkTokenInfo {
  currency : string;
  symbol : string
}.

(** Amounts are the texts the SDK answers; they are printed and handed to
    [parseFloat] as they are. *)
Inductive Event : Type :=
| ProviderFrom
| PrivateKey
| GetNetwork
| GetTokenInfo (currency : string)
| CurrencyFrom (ct : string)
| ClaimableFees (kind : Fees.RangeType) (first last : JsNum)
| WithdrawableFees
| ClaimFees (kind : Fees.RangeType) (first last : JsNum) (options : GasOptions)
| GetTransactionConfirmation (txHash : string) (timeout : JsNum)
| MonetaryAmountFrom (amount currency : string)
| WithdrawFees (amount : string) (options : GasOptions)
| SpinnerStart (text : string)
| SpinnerSucceed (text : string)
| SpinnerFail
| DebugLog (err : string)
| StopUpdate.

(** What the outside world answers, one field per call site in source
    order.  The two reads under [Promise.all] are both started; when both
    reject, [stagedRejectsFirst] tells which rejection is the one awaited.
    Reading the configuration, the constructors, the spinner, the debug log
    and [provider.stopUpdate()] are taken not to fail. *)
Record World : Type := mkWorld {
  providerFrom : Result unit;
  privateKey : Result unit;
  network : Result unit;
  tokenInfo : Result TokenInfo;
  currencyFrom : Result unit;
  claimable : Result string;
  staged : Result string;
  stagedRejectsFirst : bool;
  claimTx : Result TransactionHandle;
  claimConfirmation : Result ConfirmationRecord;
  withdrawable : Result string;
  monetaryAmount : Result unit;
  withdrawTx : Result TransactionHandle;
  withdrawConfirmation : Result ConfirmationRecord
}.

(** [0 < x] on Numbers. *)
Definition positive (x : JsDouble.double) : bool :=
  match x with
  | S754_finite false _ _ | S754_infinity false => true
  | _ => false
  end.

(** [0 < parseFloat(amount)] *)
Definition isPositive (amount : string) : bool :=
  positive (JsDouble.parseFloat amount).

(** [await Promise.all([a, b])] once both calls were made. *)
Definition all (w : World) : Result (string * string) :=
  match claimable w, staged w with
  | Ok c, Ok s => Ok (c, s)
  | Throw m, Ok _ => Throw m
  | Ok _, Throw m => Throw m
  | Throw m, Throw m' => Throw (if stagedRejectsFirst w then m' else m)
  end.

Section Handler.

Variable w : World.
Variable argvCurrency : string.
Variable range : option Fees.Range.
Variable options : GasOptions.
Variable timeout : JsNum.

(** Lines 265-272: [range.type] is read first; [range] is [undefined] when
    neither [--blocks] nor [--accruals] was given. *)
Definition rangeInUse : Result Fees.Range :=
  match range with
  | None => Throw (cannotRead "type")
  | Some r => Ok r
  end.

(** Lines 287-296. *)
Definition claimStep (r : Fees.Range) (info : TokenInfo) (claimableAmount : string)
    : Run.M Event unit :=
  if isPositive claimableAmount then
    Run.emit (SpinnerStart ("Claiming " ++ claimableAmount ++ " " ++ symbol info)) ;;;
    claimAndStageTx <-
      Run.call (ClaimFees (Fees.type r) (Fees.first r) (Fees.last r) options) (claimTx w) ;;
    _ <- Run.call (GetTransactionConfirmation (hash claimAndStageTx) timeout)
                  (claimConfirmation w) ;;
    Run.emit (SpinnerSucceed ("Claim of " ++ claimableAmount ++ " " ++ symbol info
                              ++ " confirmed"))
  else
    Run.emit (SpinnerSucceed "Nothing to claim").

(** Lines 298-312. *)
Definition withdrawStep (info : TokenInfo) : Run.M Event unit :=
  Run.emit (SpinnerStart "Obtaining withdrawable amount") ;;;
  withdrawableAmount <- Run.call WithdrawableFees (withdrawable w) ;;
  Run.emit (SpinnerSucceed ("Withdrawable amount of " ++ symbol info ++ " is "
                            ++ withdrawableAmount)) ;;;
  if isPositive withdrawableAmount then
    Run.emit (SpinnerStart ("Withdrawing " ++ withdrawableAmount ++ " " ++ symbol info)) ;;;
    Run.call (MonetaryAmountFrom withdrawableAmount (currency info)) (monetaryAmount w) ;;;
    withdrawTx <- Run.call (WithdrawFees withdrawableAmount options) (withdrawTx w) ;;
    _ <- Run.call (GetTransactionConfirmation (hash withdrawTx) timeout)
                  (withdrawConfirmation w) ;;
    Run.emit (SpinnerSucceed ("Withdrawal of " ++ withdrawableAmount ++ " " ++ symbol info
                              ++ " confirmed"))
  else
    Run.emit (SpinnerSucceed "Nothing to withdraw").

(** Lines 265-312: the body of the [try]. *)
Definition tryBody : Run.M Event unit :=
  r <- Run.lift rangeInUse ;;
  info <- Run.call (GetTokenInfo argvCurrency) (tokenInfo w) ;;
  Run.call (CurrencyFrom (currency info)) (currencyFrom w) ;;;
  Run.emit (SpinnerStart "Obtaining claimable amount") ;;;
  Run.emit (ClaimableFees (Fees.type r) (Fees.first r) (Fees.last r)) ;;;
  Run.emit WithdrawableFees ;;;
  amounts <- Run.lift (all w) ;;
  let '(claimableAmount, stagedAmount) := amounts in
  Run.emit (SpinnerSucceed ("Claimable amount of " ++ symbol info ++ " is "
                            ++ claimableAmount)) ;;;
  Run.when (isPositive stagedAmount)
    (Run.emit (SpinnerSucceed ("Previously claimed (and not withdrawn) amount of "
                               ++ symbol info ++ " is " ++ stagedAmount))) ;;;
  claimStep r info claimableAmount ;;;
  withdrawStep info.

(** Lines 314-318. *)
Definition catchBlock (err : string) : Run.M Event unit :=
  Run.emit (DebugLog err) ;;;
  Run.emit SpinnerFail ;;;
  Run.throw ("Claiming of fees failed: " ++ err).

(** Lines 264-321. *)
Definition guarded : Run.M Event unit :=
  Run.finally (Run.tryCatch tryBody catchBlock) (Run.emit StopUpdate).

End Handler.

(** Lines 229-322: the range and the gas policy are settled first; then the
    provider, the key and the network are obtained, outside the [try]. *)
Definition handler (w : World) (argv : Fees.Argv) (argvCurrency : string)
    : Run.M Event unit :=
  range <- Run.lift (Fees.range argv) ;;
  resolved <- Run.lift (Fees.resolve argv) ;;
  let '(options, timeout) := resolved in
  Run.call ProviderFrom (providerFrom w) ;;;
  Run.call PrivateKey (privateKey w) ;;;
  Run.call GetNetwork (network w) ;;;
  guarded w argvCurrency range options timeout.

Definition isStopUpdate (e : Event) : bool :=
  match e with StopUpdate => true | _ => false end.

Definition isClaim (e : Event) : bool :=
  match e with ClaimFees _ _ _ _ => true | _ => false end.

Definition isWithdrawal (e : Event) : bool :=
  match e with WithdrawFees _ _ => true | _ => false end.

(** Calls of the fee claimant: reads and submissions. *)
Definition isClaimantCall (e : Event) : bool :=
  match e with
  | ClaimableFees _ _ _ | WithdrawableFees | ClaimFees _ _ _ _ | WithdrawFees _ _ => true
  | _ => false
  end.

(** The event, if it reads or claims fees, does so for the range [r]; if it
    submits a transaction, it carries the gas options [o]; if it waits for a
    confirmation, it waits with the timeout [t]. *)
Definition usesArguments (r : Fees.Range) (o : GasOptions) (t : JsNum) (e : Event) : Prop :=
  match e with
  | ClaimableFees k f l => k = Fees.type r /\ f = Fees.first r /\ l = Fees.last r
  | ClaimFees k f l o' => k = Fees.type r /\ f = Fees.first r /\ l = Fees.last r /\ o' = o
  | WithdrawFees _ o' => o' = o
  | GetTransactionConfirmation _ t' => t' = t
  | _ => True
  end.

(** The run reaches the [try]: range and gas policy are accepted, and the
    provider, the key and the network are obtained. *)
Definition started (w : World) (argv : Fees.Argv) : bool :=
  isOk (Fees.range argv) && isOk (Fees.resolve argv)
  && isOk (providerFrom w) && isOk (privateKey w) && isOk (network w).

End FeesClaim.

(** ** Sample runs of the other commands *)

Module PaymentsSample.

(** A [strip0x] that removes a leading [0x] and fails on [undefined]. *)
Definition strip (s : string) : string :=
  if String.prefix "0x" s then String.substring 2 (String.length s - 2) s else s.

Definition strip0x (a : option string) : Result string :=
  match a with
  | Some s => Ok (strip s)
  | None => Throw (cannotRead "replace")
  end.

Definition wallet1 : string := "0x" ++ Js.repeat "00" 19 ++ "01".
Definition wallet2 : string := "0x" ++ Js.repeat "00" 19 ++ "02".
Definition wallet3 : string := "0x" ++ Js.repeat "00" 19 ++ "03".

Definition payment (id sender recipient : string) : Payments.Payment :=
  {| Payments.id := id;
     Payments.sender := Some {| Payments.wallet := Some sender |};
     Payments.recipient := Some {| Payments.wallet := Some recipient |} |}.

(** The payments of the tests of the command. *)
Definition testPayments : list Payments.Payment :=
  [payment "1" wallet1 wallet2; payment "2" wallet1 wallet3; payment "3" wallet2 wallet1;
   payment "4" wallet3 wallet2; payment "5" wallet3 wallet1].

Definition world (answer : Result Payments.Pending) : Payments.World :=
  {| Payments.walletAddress := wallet1;
     Payments.providerFrom := Ok tt;
     Payments.pendingPayments := answer |}.

(** A payment without its sender. *)
Definition anonymous : Payments.Payment :=
  {| Payments.id := "6";
     Payments.sender := None;
     Payments.recipient := Some {| Payments.wallet := Some wallet1 |} |}.

End PaymentsSample.

(** ** Outcomes of the fee claim, read off the world *)

(** The claim of [claimableAmount] needs no transaction, or its transaction
    is submitted and confirmed. *)
Definition claimSettled (w : FeesClaim.World) (claimableAmount : string) : bool :=
  negb (FeesClaim.isPositive claimableAmount)
  || (isOk (FeesClaim.claimTx w) && isOk (FeesClaim.claimConfirmation w)).

(** The withdrawable amount is read, is positive, and is accepted as a
    monetary amount: a withdrawal is submitted. *)
Definition withdrawalDue (w : FeesClaim.World) : bool :=
  match FeesClaim.withdrawable w with
  | Ok amount => FeesClaim.isPositive amount && isOk (FeesClaim.monetaryAmount w)
  | Throw _ => false
  end.

(** The withdrawable amount is read, and needs no transaction or its
    transaction is submitted and confirmed. *)
Definition withdrawalSettled (w : FeesClaim.World) : bool :=
  match FeesClaim.withdrawable w with
  | Ok amount =>
      negb (FeesClaim.isPositive amount)
      || (isOk (FeesClaim.monetaryAmount w) && isOk (FeesClaim.withdrawTx w)
          && isOk (FeesClaim.withdrawConfirmation w))
  | Throw _ => false
  end.

Module FeesClaimSample.

Definition nii : FeesClaim.TokenInfo :=
  {| FeesClaim.currency := "0x0000000000000000000000000000000000000001";
     FeesClaim.symbol := "NII" |}.

(** A world in which every call succeeds, with the three amounts answered. *)
Definition world (claimable staged withdrawable : string) : FeesClaim.World :=
  {| FeesClaim.providerFrom := Ok tt;
     FeesClaim.privateKey := Ok tt;
     FeesClaim.network := Ok tt;
     FeesClaim.tokenInfo := Ok nii;
     FeesClaim.currencyFrom := Ok tt;
     FeesClaim.claimable := Ok claimable;
     FeesClaim.staged := Ok staged;
     FeesClaim.stagedRejectsFirst := false;
     FeesClaim.claimTx := Sample.handle "0xc1";
     FeesClaim.claimConfirmation := Sample.mined "0xc1" 10 21000;
     FeesClaim.withdrawable := Ok withdrawable;
     FeesClaim.monetaryAmount := Ok tt;
     FeesClaim.withdrawTx := Sample.handle "0xd1";
     FeesClaim.withdrawConfirmation := Sample.mined "0xd1" 11 21000 |}.

(** [claim fees for NII] with neither [--accruals] nor [--blocks]. *)
Definition noRange : Fees.Argv :=
  {| Fees.blocks := Js.JUndefined;
     Fees.accruals := Js.JUndefined;
     Fees.gas := Js.JNumber (Js.Num 6000000);
     Fees.price := Js.JNumber (Js.Num 12);
     Fees.timeout := Js.JNumber (Js.Num 60) |}.

Definition options : GasOptions :=
  {| gasLimit := Js.Num 6000000; gasPrice := 12000000000 |}.

Definition range : Fees.Range :=
  {| Fees.type := Fees.accrualSymbol; Fees.first := Js.Num 0; Fees.last := Js.Num 2 |}.

End FeesClaimSample.

(** The spinner of the fee claim after the events of [t]: [None] when it is
    started while it spins. *)
Fixpoint feesSpinner (spinning : bool) (t : list FeesClaim.Event) : option bool :=
  match t with
  | [] => Some spinning
  | FeesClaim.SpinnerStart _ :: rest => if spinning then None else feesSpinner true rest
  | FeesClaim.SpinnerSucceed _ :: rest => feesSpinner false rest
  | FeesClaim.SpinnerFail :: rest => feesSpinner false rest
  | _ :: rest => feesSpinner spinning rest
  end.

(** ** More observations of the NII claim and of the payment *)

(** The event, if it registers a claim, does so for the period index [i]. *)
Definition releasesIndex (i : Js.JsNum) (e : Event) : Prop :=
  match e with
  | Release i' _ => i' = i
  | _ => True
  end.

(** The place of a step in the workflow. *)
Definition stepRank (s : StepName) : nat :=
  match s with
  | StepRelease => 0
  | StepClear => 1
  | StepApprove => 2
  | StepComplete => 3
  end.

(** The steps are in the order of the workflow, none of them twice. *)
Fixpoint inOrder (steps : list StepName) : bool :=
  match steps with
  | [] => true
  | s :: rest =>
      match rest with
      | [] => true
      | s' :: _ => (stepRank s <? stepRank s')%nat && inOrder rest
      end
  end.

(** The spinner after the events of [t], when it was spinning or not before
    them: [None] when it is started while it spins. *)
Fixpoint spinner (spinning : bool) (t : list Event) : option bool :=
  match t with
  | [] => Some spinning
  | SpinnerStart _ :: rest => if spinning then None else spinner true rest
  | SpinnerSucceed _ :: rest => spinner false rest
  | SpinnerFail _ :: rest => spinner false rest
  | _ :: rest => spinner spinning rest
  end.

(** [argv] with another currency. *)
Definition withCurrency (argv : Pay.Argv) (currency : string) : Pay.Argv :=
  {| Pay.amount := Pay.amount argv;
     Pay.argvCurrency := currency;
     Pay.recipient := Pay.recipient argv |}.

Definition isConsoleDebug (e : Event) : bool :=
  match e with ConsoleDebug _ => true | _ => false end.

Definition isConsoleError (e : Event) : bool :=
  match e with ConsoleError _ => true | _ => false end.

(** * Properties *)

Local Arguments String.append : simpl never.
Local Arguments Js.string_of_Z : simpl never.
Local Arguments Ethers.formatUnits : simpl never.

(** ** Strings *)

(** A string without the separator is a single piece. *)
Lemma split_without_separator (c : ascii) (s : string) :
  contains c s = false -> Js.split c s = [s].
Proof.
  induction s as [|c' s IH]; simpl; [reflexivity|].
  destruct (Ascii.eqb c' c); [discriminate|]. simpl.
  intros H. now rewrite (IH H).
Qed.

(** ** Laws of the run combinators *)

Section EffLaws.

Context {A B : Type}.

Lemma bind_trace (c : Eff.M A) (k : A -> Eff.M B) :
  Eff.trace (Eff.bind c k) =
  (Eff.trace c ++ match Eff.result c with
                  | Ok a => Eff.trace (k a)
                  | Throw _ => []
                  end)%list.
Proof.
  destruct c as [t [a|m]]; simpl.
  - now destruct (k a).
  - now rewrite app_nil_r.
Qed.

Lemma bind_result (c : Eff.M A) (k : A -> Eff.M B) :
  Eff.result (Eff.bind c k) =
  match Eff.result c with
  | Ok a => Eff.result (k a)
  | Throw m => Throw m
  end.
Proof. destruct c as [t [a|m]]; simpl; [now destruct (k a)|reflexivity]. Qed.

Lemma tryCatch_trace (c : Eff.M A) (h : string -> Eff.M A) :
  Eff.trace (Eff.tryCatch c h) =
  (Eff.trace c ++ match Eff.result c with
                  | Ok _ => []
                  | Throw m => Eff.trace (h m)
                  end)%list.
Proof.
  destruct c as [t [a|m]]; simpl.
  - now rewrite app_nil_r.
  - now destruct (h m).
Qed.

Lemma tryCatch_result (c : Eff.M A) (h : string -> Eff.M A) :
  Eff.result (Eff.tryCatch c h) =
  match Eff.result c with
  | Ok a => Ok a
  | Throw m => Eff.result (h m)
  end.
Proof. destruct c as [t [a|m]]; simpl; [reflexivity|now destruct (h m)]. Qed.

Lemma finally_trace (c : Eff.M A) (f : Eff.M unit) :
  Eff.trace (Eff.finally c f) = (Eff.trace c ++ Eff.trace f)%list.
Proof. now destruct c, f. Qed.

Lemma finally_result (c : Eff.M A) (f : Eff.M unit) :
  Eff.result (Eff.finally c f) =
  match Eff.result f with
  | Ok _ => Eff.result c
  | Throw m => Throw m
  end.
Proof. now destruct c, f. Qed.

End EffLaws.

(** ** Observations distribute over the parts of a run *)

Lemma submitted_obs : Observation submitted.
Proof.
  intros t u. induction t as [|e t IH]; simpl; [reflexivity|].
  destruct (stepOf e); simpl; now rewrite IH.
Qed.

#[local] Existing Instance submitted_obs.

Lemma allowanceSteps_obs : Observation allowanceSteps.
Proof. intros t u. unfold allowanceSteps. now rewrite obs_app, filter_app. Qed.

#[local] Existing Instance allowanceSteps_obs.

Lemma reports_obs : Observation reports.
Proof.
  intros t u. induction t as [|e t IH]; simpl; [reflexivity|].
  destruct e; simpl; now rewrite IH.
Qed.

#[local] Existing Instance reports_obs.

Lemma approveAmounts_obs : Observation approveAmounts.
Proof.
  intros t u. induction t as [|e t IH]; simpl; [reflexivity|].
  destruct e as [| | | | | | | |a ? ?| | | | | | | | | | | | |]; simpl; try (now rewrite IH).
  destruct a; simpl; now rewrite IH.
Qed.

#[local] Existing Instance approveAmounts_obs.

Lemma completeAmounts_obs : Observation completeAmounts.
Proof.
  intros t u. induction t as [|e t IH]; simpl; [reflexivity|].
  destruct e; simpl; now rewrite IH.
Qed.

#[local] Existing Instance completeAmounts_obs.

Lemma paymentAmounts_obs : Observation paymentAmounts.
Proof.
  intros t u. induction t as [|e t IH]; simpl; [reflexivity|].
  destruct e; simpl; now rewrite IH.
Qed.

#[local] Existing Instance paymentAmounts_obs.

Lemma stopUpdates_app (t u : list Event) :
  stopUpdates (t ++ u) = (stopUpdates t + stopUpdates u)%nat.
Proof.
  induction t as [|e t IH]; simpl; [reflexivity|].
  destruct e; simpl; now rewrite IH.
Qed.

Section ObservationLaws.

Context {X : Type} (obs : list Event -> list X) `{!Observation obs}.
Context {A B : Type}.

Lemma obs_nil : obs [] = [].
Proof.
  pose proof (obs_app [] []) as H. simpl in H.
  apply (f_equal (@List.length X)) in H. rewrite List.length_app in H.
  destruct (obs []); [reflexivity|simpl in H; lia].
Qed.

Lemma obs_bind (c : Eff.M A) (k : A -> Eff.M B) :
  obs (Eff.trace (Eff.bind c k)) =
  (obs (Eff.trace c) ++ match Eff.result c with
                        | Ok a => obs (Eff.trace (k a))
                        | Throw _ => []
                        end)%list.
Proof.
  rewrite bind_trace, obs_app. f_equal.
  destruct (Eff.result c); [reflexivity|apply obs_nil].
Qed.

Lemma obs_tryCatch (c : Eff.M A) (h : string -> Eff.M A) :
  obs (Eff.trace (Eff.tryCatch c h)) =
  (obs (Eff.trace c) ++ match Eff.result c with
                        | Ok _ => []
                        | Throw m => obs (Eff.trace (h m))
                        end)%list.
Proof.
  rewrite tryCatch_trace, obs_app. f_equal.
  destruct (Eff.result c); [apply obs_nil|reflexivity].
Qed.

Lemma obs_finally (c : Eff.M A) (f : Eff.M unit) :
  obs (Eff.trace (Eff.finally c f)) = (obs (Eff.trace c) ++ obs (Eff.trace f))%list.
Proof. now rewrite finally_trace, obs_app. Qed.

End ObservationLaws.

(** ** The blocks of the NII handler *)

Section NiiBlocks.

Variable w : Nii.World.
Variable p : Js.JsNum.
Variable o : GasOptions.
Variable t : Js.JsNum.

Lemma tryBody_unfold (opening R A : Z) :
  Nii.openingBalance w = Ok opening ->
  Nii.depositBalance w = Ok R ->
  Nii.depositAllowance w = Ok A ->
  Nii.tryBody w p o t =
  (Eff.emit (BalanceOf (Nii.walletAddress w)) ;;;
   Eff.emit (DebugLog ("Opening on-chain balance: " ++ Ethers.formatUnits opening 15 ++ " NII")) ;;;
   releaseReceipt <- Nii.releaseStep w p o t ;;
   Eff.emit (BalanceOf (Nii.walletAddress w)) ;;;
   Eff.emit (DebugLog ("Depositing: " ++ Ethers.formatUnits R 15 ++ " NII")) ;;;
   Eff.emit (SpinnerStart "Checking allowance") ;;;
   Eff.emit (GetDepositAllowance "NII") ;;;
   Eff.emit (SpinnerSucceed ("Allowance retrieved: " ++ Js.string_of_Z A)) ;;;
   approveReceipt <- Nii.approveStep w o t R A ;;
   completeReceipt <- Nii.completeStep w o t R ;;
   Eff.emit (ConsoleError "Please allow a few minutes for the nahmii balance to be updated!") ;;;
   Eff.emit (ConsoleLog (map Nii.reduceReceipt [releaseReceipt; approveReceipt; Some completeReceipt]))).
Proof.
  intros Ho Hr Ha. unfold Nii.tryBody. rewrite Ho, Hr, Ha. reflexivity.
Qed.

Lemma releaseStep_result :
  Eff.result (Nii.releaseStep w p o t) =
  Ok match Nii.releaseTx w, Nii.releaseConfirmation w with
     | Ok _, Ok r => Some r
     | _, _ => None
     end.
Proof. unfold Nii.releaseStep. answer_cases; reflexivity. Qed.

(** What each block lets be observed. *)
Lemma releaseStep_observed :
  let tr := Eff.trace (Nii.releaseStep w p o t) in
  submitted tr = [StepRelease] /\ allowanceSteps tr = [] /\ reports tr = []
  /\ approveAmounts tr = [] /\ completeAmounts tr = [] /\ stopUpdates tr = O.
Proof. unfold Nii.releaseStep. answer_cases; repeat split. Qed.

Lemma completeStep_observed R :
  let tr := Eff.trace (Nii.completeStep w o t R) in
  submitted tr = [StepComplete] /\ allowanceSteps tr = [] /\ reports tr = []
  /\ approveAmounts tr = []
  /\ completeAmounts tr = [Js.JString (Ethers.formatUnits R 15)]
  /\ stopUpdates tr = O.
Proof. unfold Nii.completeStep. answer_cases; repeat split. Qed.

Lemma approveStep_observed R A :
  let tr := Eff.trace (Nii.approveStep w o t R A) in
  reports tr = [] /\ completeAmounts tr = [] /\ stopUpdates tr = O
  /\ (forall a, In a (approveAmounts tr) -> a = Js.JString (Ethers.formatUnits R 15))
  /\ ~ In StepRelease (submitted tr) /\ ~ In StepComplete (submitted tr).
Proof.
  unfold Nii.approveStep, Nii.clearStep.
  destruct (A <? R); [destruct (A >? 0)|]; answer_cases; simpl;
    repeat split; intuition congruence.
Qed.

Lemma finallyBlock_observed :
  let tr := Eff.trace (Nii.finallyBlock w) in
  submitted tr = [] /\ allowanceSteps tr = [] /\ reports tr = []
  /\ approveAmounts tr = [] /\ completeAmounts tr = []
  /\ stopUpdates tr = (if isOk (Nii.closingBalance w) then 1 else 0)%nat.
Proof. unfold Nii.finallyBlock. answer_cases; repeat split. Qed.

Lemma completeStep_result R :
  Eff.result (Nii.completeStep w o t R) =
  match Nii.completeTx w with
  | Throw m => Throw m
  | Ok _ =>
      match Nii.completeConfirmation w with
      | Throw m => Throw m
      | Ok r => Ok r
      end
  end.
Proof. unfold Nii.completeStep. answer_cases; reflexivity. Qed.

Lemma approveStep_result R A :
  Eff.result (Nii.approveStep w o t R A) =
  if A <? R then
    match (if A >? 0 then
             match Nii.clearTx w with
             | Throw m => Throw m
             | Ok _ =>
                 match Nii.clearConfirmation w with
                 | Throw m => Throw m
                 | Ok _ => Ok tt
                 end
             end
           else Ok tt) with
    | Throw m => Throw m
    | Ok _ =>
        match Nii.approveTx w with
        | Throw m => Throw m
        | Ok _ =>
            match Nii.approveConfirmation w with
            | Throw m => Throw m
            | Ok r => Ok (Some r)
            end
        end
    end
  else Ok None.
Proof.
  unfold Nii.approveStep, Nii.clearStep.
  destruct (A <? R); [destruct (A >? 0)|]; answer_cases; reflexivity.
Qed.


(** The run of the guarded part: the body, the catch block when the body
    threw, the cleanup. *)
Lemma guarded_trace :
  Eff.trace (Nii.guarded w p o t) =
  (Eff.trace (Nii.tryBody w p o t)
   ++ match Eff.result (Nii.tryBody w p o t) with
      | Ok _ => []
      | Throw m => [DebugLog m; SpinnerFail None]
      end
   ++ Eff.trace (Nii.finallyBlock w))%list.
Proof.
  unfold Nii.guarded. rewrite finally_trace, tryCatch_trace, <- app_assoc.
  now destruct (Eff.result (Nii.tryBody w p o t)).
Qed.

Lemma guarded_result :
  Eff.result (Nii.guarded w p o t) =
  match Nii.closingBalance w with
  | Throw m => Throw m
  | Ok _ =>
      match Eff.result (Nii.tryBody w p o t) with
      | Ok u => Ok u
      | Throw m => Throw ("Claiming NII failed: " ++ m)
      end
  end.
Proof.
  unfold Nii.guarded. rewrite finally_result, tryCatch_result.
  unfold Nii.finallyBlock. destruct (Nii.closingBalance w); reflexivity.
Qed.

Lemma finallyBlock_trace :
  Eff.trace (Nii.finallyBlock w) =
  BalanceOf (Nii.walletAddress w)
  :: match Nii.closingBalance w with
     | Ok closing =>
         [DebugLog ("Closing on-chain balance: " ++ Ethers.formatUnits closing 15 ++ " NII");
          StopUpdate]
     | Throw _ => []
     end.
Proof. unfold Nii.finallyBlock. destruct (Nii.closingBalance w); reflexivity. Qed.

(** The body once its three reads are answered. *)
Lemma tryBody_trace (opening R A : Z) :
  Nii.openingBalance w = Ok opening ->
  Nii.depositBalance w = Ok R ->
  Nii.depositAllowance w = Ok A ->
  Eff.trace (Nii.tryBody w p o t) =
  ([BalanceOf (Nii.walletAddress w);
    DebugLog ("Opening on-chain balance: " ++ Ethers.formatUnits opening 15 ++ " NII")]
   ++ Eff.trace (Nii.releaseStep w p o t)
   ++ [BalanceOf (Nii.walletAddress w);
       DebugLog ("Depositing: " ++ Ethers.formatUnits R 15 ++ " NII");
       SpinnerStart "Checking allowance";
       GetDepositAllowance "NII";
       SpinnerSucceed ("Allowance retrieved: " ++ Js.string_of_Z A)]
   ++ Eff.trace (Nii.approveStep w o t R A)
   ++ match Eff.result (Nii.approveStep w o t R A) with
      | Throw _ => []
      | Ok approveReceipt =>
          Eff.trace (Nii.completeStep w o t R)
          ++ match Eff.result (Nii.completeStep w o t R) with
             | Throw _ => []
             | Ok completeReceipt =>
                 [ConsoleError "Please allow a few minutes for the nahmii balance to be updated!";
                  ConsoleLog
                    (map Nii.reduceReceipt
                       [match Nii.releaseTx w, Nii.releaseConfirmation w with
                        | Ok _, Ok r => Some r
                        | _, _ => None
                        end;
                        approveReceipt; Some completeReceipt])]
             end
      end)%list.
Proof.
  intros Ho Hr Ha. rewrite (tryBody_unfold _ _ _ Ho Hr Ha).
  pose proof releaseStep_result as Hrel.
  destruct (Nii.releaseStep w p o t) as [tr rr]. simpl in Hrel. subst rr.
  destruct (Nii.approveStep w o t R A) as [ta [ra|ma]];
    [destruct (Nii.completeStep w o t R) as [tc [rc|mc]]|];
    cbn; repeat rewrite <- app_assoc; rewrite ?app_nil_r; reflexivity.
Qed.

Lemma tryBody_result (opening R A : Z) :
  Nii.openingBalance w = Ok opening ->
  Nii.depositBalance w = Ok R ->
  Nii.depositAllowance w = Ok A ->
  Eff.result (Nii.tryBody w p o t) =
  match Eff.result (Nii.approveStep w o t R A) with
  | Throw m => Throw m
  | Ok _ =>
      match Eff.result (Nii.completeStep w o t R) with
      | Throw m => Throw m
      | Ok _ => Ok tt
      end
  end.
Proof.
  intros Ho Hr Ha. rewrite (tryBody_unfold _ _ _ Ho Hr Ha).
  pose proof releaseStep_result as Hrel.
  destruct (Nii.releaseStep w p o t) as [tr rr]. simpl in Hrel. subst rr.
  destruct (Nii.approveStep w o t R A) as [ta [ra|ma]];
    [destruct (Nii.completeStep w o t R) as [tc [rc|mc]]|];
    reflexivity.
Qed.


End NiiBlocks.

(** ** A failure inside the body stops it at the failing call *)

Section AbortsAtCall.

Context {A B : Type}.

Lemma abortsAtCall_ret (a : A) : abortsAtCall (Eff.ret a).
Proof. intros m H. discriminate. Qed.

Lemma abortsAtCall_emit (e : Event) : abortsAtCall (Eff.emit e).
Proof. intros m H. discriminate. Qed.

Lemma abortsAtCall_call (e : Event) (r : Result A) :
  isNetworkCall e = true -> abortsAtCall (Eff.call e r).
Proof. intros He m H. exists [], e. now split. Qed.

Lemma abortsAtCall_bind (c : Eff.M A) (k : A -> Eff.M B) :
  abortsAtCall c -> (forall a, abortsAtCall (k a)) -> abortsAtCall (Eff.bind c k).
Proof.
  intros Hc Hk m H. rewrite bind_result in H. rewrite bind_trace.
  destruct (Eff.result c) as [a|m'] eqn:Ec.
  - destruct (Hk a m H) as (pre & e & Ht & He).
    exists (Eff.trace c ++ pre)%list, e. now rewrite Ht, app_assoc.
  - destruct (Hc m' Ec) as (pre & e & Ht & He).
    exists pre, e. now rewrite app_nil_r.
Qed.

Lemma abortsAtCall_total (c : Eff.M A) (a : A) :
  Eff.result c = Ok a -> abortsAtCall c.
Proof. intros H m H'. congruence. Qed.

End AbortsAtCall.

Create HintDb aborts.

#[local] Hint Resolve abortsAtCall_ret abortsAtCall_emit abortsAtCall_call
  abortsAtCall_bind : aborts.

Section NiiAborts.

Variable w : Nii.World.
Variable p : Js.JsNum.
Variable o : GasOptions.
Variable t : Js.JsNum.

Lemma releaseStep_aborts : abortsAtCall (Nii.releaseStep w p o t).
Proof. eapply abortsAtCall_total, releaseStep_result. Qed.

Lemma clearStep_aborts A : abortsAtCall (Nii.clearStep w o t A).
Proof. unfold Nii.clearStep. destruct (A >? 0); auto 20 with aborts. Qed.

Lemma approveStep_aborts R A : abortsAtCall (Nii.approveStep w o t R A).
Proof.
  pose proof (clearStep_aborts A).
  unfold Nii.approveStep. destruct (A <? R); auto 20 with aborts.
Qed.

Lemma completeStep_aborts R : abortsAtCall (Nii.completeStep w o t R).
Proof. unfold Nii.completeStep. auto 20 with aborts. Qed.

Lemma tryBody_aborts : abortsAtCall (Nii.tryBody w p o t).
Proof.
  pose proof releaseStep_aborts. pose proof approveStep_aborts.
  pose proof completeStep_aborts.
  unfold Nii.tryBody. auto 30 with aborts.
Qed.

End NiiAborts.

(** ** The allowance rule *)




(** ** Failure policy *)

Section NiiFailures.

Variable w : Nii.World.
Variable p : Js.JsNum.
Variable o : GasOptions.
Variable t : Js.JsNum.

Lemma approveStep_submitted R A :
  submitted (Eff.trace (Nii.approveStep w o t R A)) =
  if A <? R then
    if A >? 0 then
      if clearConfirmed w then [StepClear; StepApprove] else [StepClear]
    else [StepApprove]
  else [].
Proof.
  unfold Nii.approveStep, Nii.clearStep, clearConfirmed.
  destruct (A <? R); [|reflexivity].
  destruct (A >? 0); answer_cases; reflexivity.
Qed.

Lemma guarded_submitted :
  submitted (Eff.trace (Nii.guarded w p o t)) =
  submitted (Eff.trace (Nii.tryBody w p o t)).
Proof.
  rewrite guarded_trace. repeat rewrite (obs_app (obs := submitted)).
  rewrite (proj1 (finallyBlock_observed w)), app_nil_r.
  destruct (Eff.result (Nii.tryBody w p o t)); simpl; now rewrite app_nil_r.
Qed.

Lemma tryBody_submitted (opening R A : Z) :
  Nii.openingBalance w = Ok opening ->
  Nii.depositBalance w = Ok R ->
  Nii.depositAllowance w = Ok A ->
  submitted (Eff.trace (Nii.tryBody w p o t)) =
  (StepRelease :: submitted (Eff.trace (Nii.approveStep w o t R A))
   ++ if isOk (Eff.result (Nii.approveStep w o t R A)) then [StepComplete] else [])%list.
Proof.
  intros Ho Hr Ha. rewrite (tryBody_trace _ _ _ _ _ _ _ Ho Hr Ha).
  repeat rewrite (obs_app (obs := submitted)).
  rewrite (proj1 (releaseStep_observed _ _ _ _)). simpl. f_equal. f_equal.
  destruct (Eff.result (Nii.approveStep w o t R A)); [|reflexivity].
  rewrite (obs_app (obs := submitted)), (proj1 (completeStep_observed _ _ _ _)).
  now destruct (Eff.result (Nii.completeStep w o t R)).
Qed.

(** Whatever makes the body throw, the run stops there: the catch block
    and the cleanup follow, nothing else. *)
Lemma body_failure_aborts (m : string) :
  Eff.result (Nii.tryBody w p o t) = Throw m ->
  (exists pre e, Eff.trace (Nii.tryBody w p o t) = (pre ++ [e])%list
                 /\ isNetworkCall e = true)
  /\ Eff.trace (Nii.guarded w p o t) =
     (Eff.trace (Nii.tryBody w p o t) ++ [DebugLog m; SpinnerFail None]
      ++ Eff.trace (Nii.finallyBlock w))%list
  /\ isThrow (Eff.result (Nii.guarded w p o t)) = true
  /\ (isOk (Nii.closingBalance w) = true ->
      Eff.result (Nii.guarded w p o t) = Throw ("Claiming NII failed: " ++ m)).
Proof.
  intros H. split; [exact (tryBody_aborts w p o t m H)|].
  rewrite guarded_trace, guarded_result, H.
  repeat split.
  - now destruct (Nii.closingBalance w).
  - now destruct (Nii.closingBalance w).
Qed.

Lemma required_failure_throws (opening R A : Z) (s : StepName) (m : string) :
  Nii.openingBalance w = Ok opening ->
  Nii.depositBalance w = Ok R ->
  Nii.depositAllowance w = Ok A ->
  RequiredFailure w R A s m ->
  Eff.result (Nii.tryBody w p o t) = Throw m
  /\ exists earlier, submitted (Eff.trace (Nii.tryBody w p o t)) = (earlier ++ [s])%list.
Proof.
  intros Ho Hr Ha Hf.
  rewrite (tryBody_result _ _ _ _ _ _ _ Ho Hr Ha),
          (tryBody_submitted _ _ _ Ho Hr Ha),
          approveStep_submitted, approveStep_result, completeStep_result.
  destruct Hf as [m Hlt Hpos Hc|m Hlt Hpos Hs Hc|m Hlt Hclr Hc|m Hlt Hclr Hs Hc
                 |m Hpre Hc|m Hpre Hs Hc];
    unfold clearConfirmed, approveConfirmed in *.
  - apply Z.ltb_lt in Hlt. apply Z.gtb_lt in Hpos. rewrite Hlt, Hpos, Hc.
    split; [reflexivity|]. now exists [StepRelease].
  - apply Z.ltb_lt in Hlt. apply Z.gtb_lt in Hpos. rewrite Hlt, Hpos, Hc.
    destruct (Nii.clearTx w); [|simpl in *; discriminate].
    split; [reflexivity|]. now exists [StepRelease].
  - apply Z.ltb_lt in Hlt. rewrite Hlt, Hc.
    destruct (Z.gtb_spec A 0) as [Hpos|Hpos].
    + specialize (Hclr Hpos).
      destruct (Nii.clearTx w); [|simpl in *; discriminate].
      destruct (Nii.clearConfirmation w); [|simpl in *; discriminate].
      split; [reflexivity|]. now exists [StepRelease; StepClear].
    + split; [reflexivity|]. now exists [StepRelease].
  - apply Z.ltb_lt in Hlt. rewrite Hlt, Hc.
    destruct (Nii.approveTx w); [|simpl in *; discriminate].
    destruct (Z.gtb_spec A 0) as [Hpos|Hpos].
    + specialize (Hclr Hpos).
      destruct (Nii.clearTx w); [|simpl in *; discriminate].
      destruct (Nii.clearConfirmation w); [|simpl in *; discriminate].
      split; [reflexivity|]. now exists [StepRelease; StepClear].
    + split; [reflexivity|]. now exists [StepRelease].
  - rewrite Hc. destruct (Z.ltb_spec A R) as [Hlt|Hlt].
    + destruct (Hpre Hlt) as [Hclr Happ].
      destruct (Nii.approveTx w); [|simpl in *; discriminate].
      destruct (Nii.approveConfirmation w); [|simpl in *; discriminate].
      destruct (Z.gtb_spec A 0) as [Hpos|Hpos].
      * specialize (Hclr Hpos).
        destruct (Nii.clearTx w); [|simpl in *; discriminate].
        destruct (Nii.clearConfirmation w); [|simpl in *; discriminate].
        split; [reflexivity|]. now exists [StepRelease; StepClear; StepApprove].
      * split; [reflexivity|]. now exists [StepRelease; StepApprove].
    + split; [reflexivity|]. now exists [StepRelease].
  - rewrite Hc. destruct (Nii.completeTx w); [|simpl in *; discriminate].
    destruct (Z.ltb_spec A R) as [Hlt|Hlt].
    + destruct (Hpre Hlt) as [Hclr Happ].
      destruct (Nii.approveTx w); [|simpl in *; discriminate].
      destruct (Nii.approveConfirmation w); [|simpl in *; discriminate].
      destruct (Z.gtb_spec A 0) as [Hpos|Hpos].
      * specialize (Hclr Hpos).
        destruct (Nii.clearTx w); [|simpl in *; discriminate].
        destruct (Nii.clearConfirmation w); [|simpl in *; discriminate].
        split; [reflexivity|]. now exists [StepRelease; StepClear; StepApprove].
      * split; [reflexivity|]. now exists [StepRelease; StepApprove].
    + split; [reflexivity|]. now exists [StepRelease].
Qed.

End NiiFailures.

(** ** The body when one of its reads fails *)

Section NiiReads.

Variable w : Nii.World.
Variable p : Js.JsNum.
Variable o : GasOptions.
Variable t : Js.JsNum.

Lemma reads_or_not :
  (exists opening R A,
      Nii.openingBalance w = Ok opening /\ Nii.depositBalance w = Ok R
      /\ Nii.depositAllowance w = Ok A)
  \/ exists m, readFails w m.
Proof.
  unfold readFails.
  destruct (Nii.openingBalance w) as [opening|m]; [|right; eauto].
  destruct (Nii.depositBalance w) as [R|m]; [|right; eauto].
  destruct (Nii.depositAllowance w) as [A|m]; [|right; exists m; auto].
  left. eauto 6.
Qed.

Lemma tryBody_read_failure (m : string) :
  readFails w m ->
  let tr := Eff.trace (Nii.tryBody w p o t) in
  Eff.result (Nii.tryBody w p o t) = Throw m
  /\ reports tr = [] /\ approveAmounts tr = [] /\ completeAmounts tr = []
  /\ allowanceSteps tr = [] /\ stopUpdates tr = O.
Proof.
  pose proof (releaseStep_result w p o t) as Hres.
  pose proof (releaseStep_observed w p o t) as Hobs.
  unfold readFails, Nii.tryBody.
  intros [H|[[Ho H]|(Ho & Hr & H)]].
  - rewrite H. repeat split.
  - destruct (Nii.openingBalance w); [|discriminate]. rewrite H.
    destruct (Nii.releaseStep w p o t) as [tr rr]. simpl in Hres, Hobs. subst rr.
    unfold allowanceSteps in *. cbn.
    rewrite (obs_app (obs := reports)), (obs_app (obs := approveAmounts)),
      (obs_app (obs := completeAmounts)), (obs_app (obs := submitted)),
      filter_app, stopUpdates_app.
    destruct Hobs as (_ & -> & -> & -> & -> & ->). repeat split.
  - destruct (Nii.openingBalance w); [|discriminate].
    destruct (Nii.depositBalance w); [|discriminate]. rewrite H.
    destruct (Nii.releaseStep w p o t) as [tr rr]. simpl in Hres, Hobs. subst rr.
    unfold allowanceSteps in *. cbn.
    rewrite (obs_app (obs := reports)), (obs_app (obs := approveAmounts)),
      (obs_app (obs := completeAmounts)), (obs_app (obs := submitted)),
      filter_app, stopUpdates_app.
    destruct Hobs as (_ & -> & -> & -> & -> & ->). repeat split.
Qed.

(** The report the body prints, from the answers of the world. *)
Lemma tryBody_reports (opening R A : Z) :
  Nii.openingBalance w = Ok opening ->
  Nii.depositBalance w = Ok R ->
  Nii.depositAllowance w = Ok A ->
  reports (Eff.trace (Nii.tryBody w p o t)) =
  match Eff.result (Nii.approveStep w o t R A) with
  | Throw _ => []
  | Ok approveReceipt =>
      match Eff.result (Nii.completeStep w o t R) with
      | Throw _ => []
      | Ok completeReceipt =>
          [map Nii.reduceReceipt
             [match Nii.releaseTx w, Nii.releaseConfirmation w with
              | Ok _, Ok r => Some r
              | _, _ => None
              end;
              approveReceipt; Some completeReceipt]]
      end
  end.
Proof.
  intros Ho Hr Ha. rewrite (tryBody_trace _ _ _ _ _ _ _ Ho Hr Ha).
  repeat rewrite (obs_app (obs := reports)).
  destruct (releaseStep_observed w p o t) as (_ & _ & -> & _).
  destruct (approveStep_observed w o t R A) as (-> & _).
  simpl. destruct (Eff.result (Nii.approveStep w o t R A)); [|reflexivity].
  rewrite (obs_app (obs := reports)).
  destruct (completeStep_observed w o t R) as (_ & _ & -> & _).
  now destruct (Eff.result (Nii.completeStep w o t R)).
Qed.

Lemma guarded_reports :
  reports (Eff.trace (Nii.guarded w p o t)) =
  reports (Eff.trace (Nii.tryBody w p o t)).
Proof.
  rewrite guarded_trace. repeat rewrite (obs_app (obs := reports)).
  destruct (finallyBlock_observed w) as (_ & _ & -> & _).
  destruct (Eff.result (Nii.tryBody w p o t)); simpl; now rewrite app_nil_r.
Qed.

(** Nothing is printed by a body that throws. *)
Lemma tryBody_throw_reports (m : string) :
  Eff.result (Nii.tryBody w p o t) = Throw m ->
  reports (Eff.trace (Nii.tryBody w p o t)) = [].
Proof.
  intros H. destruct reads_or_not as [(opening & R & A & Ho & Hr & Ha)|[m' Hf]].
  - rewrite (tryBody_reports _ _ _ Ho Hr Ha).
    rewrite (tryBody_result _ _ _ _ _ _ _ Ho Hr Ha) in H.
    destruct (Eff.result (Nii.approveStep w o t R A)); [|reflexivity].
    destruct (Eff.result (Nii.completeStep w o t R)); [discriminate|reflexivity].
  - now destruct (tryBody_read_failure m' Hf) as (_ & -> & _).
Qed.

Lemma tryBody_ok_reads (u : unit) :
  Eff.result (Nii.tryBody w p o t) = Ok u ->
  exists opening R A,
    Nii.openingBalance w = Ok opening /\ Nii.depositBalance w = Ok R
    /\ Nii.depositAllowance w = Ok A.
Proof.
  intros H. destruct reads_or_not as [Hreads|[m Hf]]; [exact Hreads|].
  destruct (tryBody_read_failure m Hf) as (Hthrow & _). congruence.
Qed.

End NiiReads.

Section NiiAdvisory.

Variable w : Nii.World.
Variable p : Js.JsNum.
Variable o : GasOptions.
Variable t : Js.JsNum.

Lemma releaseStep_failure (m : string) :
  ReleaseFailure w m ->
  Eff.result (Nii.releaseStep w p o t) = Ok None
  /\ exists pre,
      Eff.trace (Nii.releaseStep w p o t)
      = (pre ++ [DebugLog m; SpinnerFail (Some m)])%list.
Proof.
  unfold ReleaseFailure, Nii.releaseStep. intros [H|[Hs H]].
  - rewrite H. split; [reflexivity|]. now eexists [_; _].
  - destruct (Nii.releaseTx w); [|discriminate]. rewrite H.
    split; [reflexivity|]. now eexists [_; _; _; _; _].
Qed.

(** After the release step, whatever its outcome, the body goes on to
    read the balance again. *)
Lemma tryBody_continues (opening : Z) :
  Nii.openingBalance w = Ok opening ->
  exists rest,
    Eff.trace (Nii.tryBody w p o t)
    = (BalanceOf (Nii.walletAddress w)
       :: DebugLog ("Opening on-chain balance: " ++ Ethers.formatUnits opening 15 ++ " NII")
       :: Eff.trace (Nii.releaseStep w p o t)
       ++ BalanceOf (Nii.walletAddress w) :: rest)%list.
Proof.
  intros Ho.
  destruct (Nii.depositBalance w) as [R|m] eqn:Hr;
    [destruct (Nii.depositAllowance w) as [A|m] eqn:Ha|].
  - rewrite (tryBody_trace _ _ _ _ _ _ _ Ho Hr Ha). eexists. reflexivity.
  - unfold Nii.tryBody. rewrite Ho, Hr, Ha.
    pose proof (releaseStep_result w p o t) as Hres.
    destruct (Nii.releaseStep w p o t) as [tr rr]. simpl in Hres. subst rr.
    eexists. cbn. reflexivity.
  - unfold Nii.tryBody. rewrite Ho, Hr.
    pose proof (releaseStep_result w p o t) as Hres.
    destruct (Nii.releaseStep w p o t) as [tr rr]. simpl in Hres. subst rr.
    exists []. reflexivity.
Qed.

End NiiAdvisory.

(** The failure policy of the guarded part.  Required steps: when the
    submission or the confirmation of a required step (clear, approve,
    complete) fails with message [m], the body stops at the failing call,
    the only events that follow are those of the catch block and of the
    cleanup, the failing step is the last step submitted, and the run is
    rejected: with "Claiming NII failed: m" whenever the balance read of the
    cleanup answers.  Advisory step: when the release step fails, the
    failure is recorded on the spinner, the release receipt stays undefined,
    the body goes on with the next balance read, and the first slot of any
    report printed is null. *)
Theorem failure_policy
    (w : Nii.World) (p : Js.JsNum) (o : GasOptions) (t : Js.JsNum) :
  (forall opening R A s m,
      Nii.openingBalance w = Ok opening ->
      Nii.depositBalance w = Ok R ->
      Nii.depositAllowance w = Ok A ->
      RequiredFailure w R A s m ->
      (exists pre e, Eff.trace (Nii.tryBody w p o t) = (pre ++ [e])%list
                     /\ isNetworkCall e = true)
      /\ Eff.trace (Nii.guarded w p o t) =
         (Eff.trace (Nii.tryBody w p o t) ++ [DebugLog m; SpinnerFail None]
          ++ Eff.trace (Nii.finallyBlock w))%list
      /\ (exists earlier,
             submitted (Eff.trace (Nii.guarded w p o t)) = (earlier ++ [s])%list)
      /\ isThrow (Eff.result (Nii.guarded w p o t)) = true
      /\ (isOk (Nii.closingBalance w) = true ->
          Eff.result (Nii.guarded w p o t) = Throw ("Claiming NII failed: " ++ m)))
  /\
  (forall m,
      ReleaseFailure w m ->
      Eff.result (Nii.releaseStep w p o t) = Ok None
      /\ (exists pre,
             Eff.trace (Nii.releaseStep w p o t)
             = (pre ++ [DebugLog m; SpinnerFail (Some m)])%list)
      /\ (forall opening,
             Nii.openingBalance w = Ok opening ->
             exists pre rest,
               Eff.trace (Nii.guarded w p o t)
               = (pre ++ [SpinnerFail (Some m); BalanceOf (Nii.walletAddress w)]
                  ++ rest)%list)
      /\ (forall report,
             In report (reports (Eff.trace (Nii.guarded w p o t))) ->
             hd_error report = Some None)).
Proof.
  split.
  - intros opening R A s m Ho Hr Ha Hf.
    destruct (required_failure_throws w p o t _ _ _ _ _ Ho Hr Ha Hf) as [Hthrow Hlast].
    destruct (body_failure_aborts w p o t m Hthrow) as (H1 & H2 & H3 & H4).
    rewrite guarded_submitted. repeat split; assumption.
  - intros m Hf.
    destruct (releaseStep_failure w p o t m Hf) as [Hres [pre Htr]].
    repeat split; [assumption|now exists pre| |].
    + intros opening Ho.
      destruct (tryBody_continues w p o t opening Ho) as (rest & Hbody).
      rewrite guarded_trace, Hbody, Htr.
      eexists (_ :: _ :: pre ++ [DebugLog m])%list. eexists.
      simpl. repeat rewrite <- app_assoc. simpl. reflexivity.
    + intros report Hin. rewrite guarded_reports in Hin.
      destruct (reads_or_not w) as [(opening & R & A & Ho & Hr & Ha)|[m' Hrf]].
      * rewrite (tryBody_reports w p o t _ _ _ Ho Hr Ha) in Hin.
        destruct (Eff.result (Nii.approveStep w o t R A)); [|contradiction].
        destruct (Eff.result (Nii.completeStep w o t R)); [|contradiction].
        destruct Hin as [<-|[]].
        unfold ReleaseFailure in Hf. destruct Hf as [->|[Hs ->]]; [reflexivity|].
        now destruct (Nii.releaseTx w).
      * destruct (tryBody_read_failure w p o t m' Hrf) as (_ & Hrep & _).
        rewrite Hrep in Hin. contradiction.
Qed.

Lemma failure_policy_witness :
  (exists earlier,
      submitted (Eff.trace (Nii.guarded Sample.completeRefused (Js.Num 1)
                              Sample.options (Js.Num 60)))
      = (earlier ++ [StepComplete])%list)
  /\ Eff.result (Nii.releaseStep (Sample.releaseRefused 5000 5000) (Js.Num 1)
                   Sample.options (Js.Num 60)) = Ok None.
Proof.
  split.
  - refine (proj1 (proj2 (proj2
      (proj1 (failure_policy Sample.completeRefused (Js.Num 1) Sample.options (Js.Num 60))
         0 5000 0 StepComplete "transaction failed" eq_refl eq_refl eq_refl _)))).
    apply CompleteSubmissionFails; [|reflexivity].
    intros _. split; [intros H; inversion H|reflexivity].
  - refine (proj1
      (proj2 (failure_policy (Sample.releaseRefused 5000 5000) (Js.Num 1)
                Sample.options (Js.Num 60))
         "nothing to release" _)).
    left. reflexivity.
Defined.

(** ** Cleanup *)

Lemma handler_unfold (w : Nii.World) (argv : Nii.Argv) :
  Nii.handler w argv =
  match Nii.resolve argv with
  | Throw m => ([], Throw m)
  | Ok (p, o, t) =>
      match Nii.providerFrom w with
      | Throw m => ([ProviderFrom], Throw m)
      | Ok _ =>
          match Nii.privateKey w with
          | Throw m => ([ProviderFrom; PrivateKey], Throw m)
          | Ok _ =>
              match Nii.erc20ContractFrom w with
              | Throw m => ([ProviderFrom; PrivateKey; Erc20ContractFrom "NII"], Throw m)
              | Ok _ =>
                  ([ProviderFrom; PrivateKey; Erc20ContractFrom "NII"]
                     ++ Eff.trace (Nii.guarded w p o t),
                   Eff.result (Nii.guarded w p o t))%list
              end
          end
      end
  end.
Proof.
  unfold Nii.handler.
  destruct (Nii.resolve argv) as [[[p o] t]|m]; [|reflexivity].
  destruct (Nii.providerFrom w); [|reflexivity].
  destruct (Nii.privateKey w); [|reflexivity].
  destruct (Nii.erc20ContractFrom w); [|reflexivity].
  cbv beta iota delta [Eff.bind Eff.lift Eff.call].
  destruct (Nii.guarded w p o t) as [tg [u|m]]; reflexivity.
Qed.

(** C2 fails on the code.  The network goes down while the deposit is
    completed: the completion, a required step, is refused with "transaction
    failed"; no step is submitted after it and nothing is printed, but the
    balance read at the head of the [finally] block is refused too, and the
    caller receives that error, "network error": the error of the required
    step is lost.  It is so in every run: when the closing balance read is
    refused its error is what the handler rejects with, whatever happened
    before.  The defect is the one behind the missing cleanup: the [finally]
    block awaits a balance read. *)
Theorem required_error_is_lost_when_closing_read_fails :
  (let run := Nii.handler Sample.outage Sample.argv in
   RequiredFailure Sample.outage 5000 0 StepComplete "transaction failed"
   /\ submitted (Eff.trace run) = [StepRelease; StepApprove; StepComplete]
   /\ reports (Eff.trace run) = []
   /\ In (DebugLog "transaction failed") (Eff.trace run)
   /\ Eff.result run = Throw "network error")
  /\ (forall w argv m,
        started w argv = true ->
        Nii.closingBalance w = Throw m ->
        Eff.result (Nii.handler w argv) = Throw m).
Proof.
  split.
  - cbv zeta. split; [|vm_compute; intuition].
    apply CompleteSubmissionFails; [|reflexivity].
    intros _. split; [intros H; inversion H|reflexivity].
  - intros w argv m Hstarted Hclosing.
    unfold started, providerAcquired in Hstarted. rewrite handler_unfold.
    destruct (Nii.resolve argv) as [[[p o] t]|]; [|discriminate].
    destruct (Nii.providerFrom w); [|discriminate].
    destruct (Nii.privateKey w); [|discriminate].
    destruct (Nii.erc20ContractFrom w); [|discriminate].
    cbn [Eff.result snd]. now rewrite guarded_result, Hclosing.
Qed.

Section NiiCleanup.

Variable w : Nii.World.
Variable p : Js.JsNum.
Variable o : GasOptions.
Variable t : Js.JsNum.

Lemma tryBody_stopUpdates : stopUpdates (Eff.trace (Nii.tryBody w p o t)) = O.
Proof.
  destruct (reads_or_not w) as [(opening & R & A & Ho & Hr & Ha)|[m Hf]].
  - rewrite (tryBody_trace _ _ _ _ _ _ _ Ho Hr Ha).
    repeat rewrite stopUpdates_app.
    destruct (releaseStep_observed w p o t) as (_ & _ & _ & _ & _ & ->).
    destruct (approveStep_observed w o t R A) as (_ & _ & -> & _).
    simpl. destruct (Eff.result (Nii.approveStep w o t R A)); [|reflexivity].
    rewrite stopUpdates_app.
    destruct (completeStep_observed w o t R) as (_ & _ & _ & _ & _ & ->).
    now destruct (Eff.result (Nii.completeStep w o t R)).
  - now destruct (tryBody_read_failure w p o t m Hf) as (_ & _ & _ & _ & _ & ->).
Qed.

(** The cleanup runs once when the balance read that precedes it in the
    [finally] block answers, and not at all when that read is rejected. *)
Lemma guarded_stopUpdates :
  stopUpdates (Eff.trace (Nii.guarded w p o t)) =
  (if isOk (Nii.closingBalance w) then 1 else 0)%nat.
Proof.
  rewrite guarded_trace. repeat rewrite stopUpdates_app.
  rewrite tryBody_stopUpdates.
  destruct (finallyBlock_observed w) as (_ & _ & _ & _ & _ & ->).
  now destruct (Eff.result (Nii.tryBody w p o t)).
Qed.

End NiiCleanup.

(** On every exit path of the guarded part (completion, abort on a failed
    step, failed read) the cleanup runs exactly once, provided the balance
    read at the head of the [finally] block answers. *)
Lemma cleanup_once_when_closing_read_answers
    (w : Nii.World) (argv : Nii.Argv) :
  started w argv = true ->
  isOk (Nii.closingBalance w) = true ->
  stopUpdates (Eff.trace (Nii.handler w argv)) = 1%nat.
Proof.
  unfold started, providerAcquired. intros Hs Hc. rewrite handler_unfold.
  destruct (Nii.resolve argv) as [[[p o] t]|m]; [|discriminate].
  destruct (Nii.providerFrom w); [|discriminate].
  destruct (Nii.privateKey w); [|discriminate].
  destruct (Nii.erc20ContractFrom w); [|discriminate].
  cbn [Eff.trace fst]. rewrite stopUpdates_app, guarded_stopUpdates, Hc. reflexivity.
Qed.

Lemma cleanup_once_when_closing_read_answers_witness :
  stopUpdates (Eff.trace (Nii.handler Sample.completeRefused Sample.argv)) = 1%nat.
Proof.
  exact (cleanup_once_when_closing_read_answers Sample.completeRefused Sample.argv
           eq_refl eq_refl).
Defined.

(** C3 fails on the code.  Every step of the workflow succeeds and the report
    is printed; then the balance read that the [finally] block performs
    before [provider.stopUpdate()] is rejected: the provider was acquired,
    the cleanup never runs, and the handler rejects with the error of that
    read. *)
Theorem cleanup_skipped_when_closing_read_fails :
  let run := Nii.handler Sample.closingReadFails Sample.argv in
  providerAcquired Sample.closingReadFails Sample.argv = true
  /\ List.length (reports (Eff.trace run)) = 1%nat
  /\ stopUpdates (Eff.trace run) = O
  /\ Eff.result run = Throw "network error".
Proof. vm_compute. repeat split. Qed.

(** The same defect on the path before the [try]: the provider is acquired,
    the private key cannot be read, and the handler leaves without cleanup. *)
Lemma cleanup_skipped_when_key_fails :
  let run := Nii.handler Sample.keyRefused Sample.argv in
  providerAcquired Sample.keyRefused Sample.argv = true
  /\ Eff.trace run = [ProviderFrom; PrivateKey]
  /\ stopUpdates (Eff.trace run) = O
  /\ Eff.result run = Throw "invalid password".
Proof. vm_compute. repeat split. Qed.

(** ** The report *)

Section NiiReport.

Variable w : Nii.World.
Variable p : Js.JsNum.
Variable o : GasOptions.
Variable t : Js.JsNum.

(** The report of a run that prints one, slot by slot. *)
Lemma guarded_report (report : list (option Receipt)) :
  In report (reports (Eff.trace (Nii.guarded w p o t))) ->
  exists opening R A approveReceipt completeReceipt,
    Nii.openingBalance w = Ok opening
    /\ Nii.depositBalance w = Ok R
    /\ Nii.depositAllowance w = Ok A
    /\ Eff.result (Nii.approveStep w o t R A) = Ok approveReceipt
    /\ Eff.result (Nii.completeStep w o t R) = Ok completeReceipt
    /\ reports (Eff.trace (Nii.guarded w p o t)) = [report]
    /\ report =
       map Nii.reduceReceipt
         [match Nii.releaseTx w, Nii.releaseConfirmation w with
          | Ok _, Ok r => Some r
          | _, _ => None
          end;
          approveReceipt; Some completeReceipt].
Proof.
  rewrite guarded_reports. intros Hin.
  destruct (reads_or_not w) as [(opening & R & A & Ho & Hr & Ha)|[m Hf]].
  - rewrite (tryBody_reports w p o t _ _ _ Ho Hr Ha) in *.
    destruct (Eff.result (Nii.approveStep w o t R A)) as [ar|] eqn:Hap;
      [|contradiction].
    destruct (Eff.result (Nii.completeStep w o t R)) as [cr|] eqn:Hco;
      [|contradiction].
    destruct Hin as [<-|[]]. exists opening, R, A, ar, cr.
    repeat split; assumption.
  - destruct (tryBody_read_failure w p o t m Hf) as (_ & Hrep & _).
    rewrite Hrep in Hin. contradiction.
Qed.

Lemma approveStep_ok R A (approveReceipt : option ConfirmationRecord) :
  Eff.result (Nii.approveStep w o t R A) = Ok approveReceipt ->
  ((A <? R) = false /\ approveReceipt = None)
  \/ ((A <? R) = true /\ ((A >? 0) = true -> clearConfirmed w = true)
      /\ approveConfirmed w = true
      /\ exists r, Nii.approveConfirmation w = Ok r /\ approveReceipt = Some r).
Proof.
  rewrite approveStep_result. unfold clearConfirmed, approveConfirmed.
  destruct (A <? R); [|intros [= <-]; now left].
  intros H. right. split; [reflexivity|].
  destruct (A >? 0).
  - destruct (Nii.clearTx w); [|discriminate].
    destruct (Nii.clearConfirmation w); [|discriminate].
    destruct (Nii.approveTx w); [|discriminate].
    destruct (Nii.approveConfirmation w) as [r|]; [|discriminate].
    injection H as <-. repeat split. now exists r.
  - destruct (Nii.approveTx w); [|discriminate].
    destruct (Nii.approveConfirmation w) as [r|]; [|discriminate].
    injection H as <-. repeat split; [discriminate|now exists r].
Qed.

Lemma completeStep_ok R (completeReceipt : ConfirmationRecord) :
  Eff.result (Nii.completeStep w o t R) = Ok completeReceipt ->
  isOk (Nii.completeTx w) = true /\ Nii.completeConfirmation w = Ok completeReceipt.
Proof.
  rewrite completeStep_result.
  destruct (Nii.completeTx w); [|discriminate].
  destruct (Nii.completeConfirmation w); [|discriminate].
  now intros [= <-].
Qed.

End NiiReport.

(** C5 fails on the code.  The release is refused (advisory failure), the
    allowance suffices so that clear and approve are skipped, the completion
    succeeds: two steps were attempted, and the report has three slots,
    [null, null, Receipt]; the skipped approve step has a null slot. *)
Lemma report_length_is_not_attempted_steps :
  let run := Nii.handler (Sample.releaseRefused 5000 5000) Sample.argv in
  ReleaseFailure (Sample.releaseRefused 5000 5000) "nothing to release"
  /\ submitted (Eff.trace run) = [StepRelease; StepComplete]
  /\ Eff.result run = Ok tt
  /\ (exists receipt, reports (Eff.trace run) = [[None; None; Some receipt]])
  /\ ~ (exists receipt, reports (Eff.trace run) = [[None; Some receipt]]).
Proof.
  vm_compute. repeat split.
  - now left.
  - eexists. reflexivity.
  - intros [receipt H]. discriminate.
Qed.

(** C5 as amended.  A run prints at most one report; the report has exactly
    three slots, for release, approve and complete in this order, which is
    the order of submission.  The release slot is the receipt of the release
    when it was confirmed and null when it failed; the approve slot is the
    receipt of the approval and null exactly when the approval was skipped;
    the complete slot is always the receipt of the completion; the clearing
    of the allowance, submitted or not, has no slot. *)
Theorem report_has_three_fixed_slots
    (w : Nii.World) (p : Js.JsNum) (o : GasOptions) (t : Js.JsNum)
    (report : list (option Receipt)) :
  In report (reports (Eff.trace (Nii.guarded w p o t))) ->
  let steps := submitted (Eff.trace (Nii.guarded w p o t)) in
  reports (Eff.trace (Nii.guarded w p o t)) = [report]
  /\ (exists middle,
         steps = (StepRelease :: middle ++ [StepComplete])%list
         /\ (middle = [] \/ middle = [StepApprove] \/ middle = [StepClear; StepApprove]))
  /\ exists releaseSlot approveSlot completeRecord,
      report = [releaseSlot; approveSlot; Nii.reduceReceipt (Some completeRecord)]
      /\ Nii.completeConfirmation w = Ok completeRecord
      /\ releaseSlot =
         Nii.reduceReceipt
           match Nii.releaseTx w, Nii.releaseConfirmation w with
           | Ok _, Ok r => Some r
           | _, _ => None
           end
      /\ (releaseSlot = None <-> releaseConfirmed w = false)
      /\ (approveSlot = None <-> ~ In StepApprove steps)
      /\ (approveSlot <> None ->
          exists r, Nii.approveConfirmation w = Ok r
                    /\ approveSlot = Nii.reduceReceipt (Some r)).
Proof.
  intros Hin steps. subst steps.
  destruct (guarded_report w p o t report Hin)
    as (opening & R & A & ar & cr & Ho & Hr & Ha & Hap & Hco & Hone & ->).
  destruct (completeStep_ok w o t R cr Hco) as [_ Hcc].
  rewrite guarded_submitted, (tryBody_submitted w p o t _ _ _ Ho Hr Ha),
    approveStep_submitted, Hap.
  split; [assumption|].
  assert (Hrel : Nii.reduceReceipt
                   match Nii.releaseTx w with
                   | Ok _ => match Nii.releaseConfirmation w with
                             | Ok r => Some r
                             | Throw _ => None
                             end
                   | Throw _ => None
                   end = None <-> releaseConfirmed w = false).
  { unfold releaseConfirmed.
    destruct (Nii.releaseTx w); [destruct (Nii.releaseConfirmation w)|];
      simpl; split; congruence. }
  destruct (approveStep_ok w o t R A ar Hap)
    as [[Hlt ->]|(Hlt & Hclr & Happ & r & Hr' & ->)]; rewrite Hlt; simpl.
  - split; [exists []; auto|].
    eexists _, None, cr.
    repeat split; try assumption; try apply Hrel;
      simpl; intuition (try discriminate; eauto).
  - destruct (A >? 0).
    + rewrite (Hclr eq_refl). simpl.
      split; [exists [StepClear; StepApprove]; auto|].
      eexists _, _, cr.
      repeat split; try assumption; try apply Hrel;
        simpl; intuition (try discriminate; eauto).
    + simpl. split; [exists [StepApprove]; auto|].
      eexists _, _, cr.
      repeat split; try assumption; try apply Hrel;
        simpl; intuition (try discriminate; eauto).
Qed.

Lemma report_has_three_fixed_slots_witness :
  reports (Eff.trace (Nii.guarded (Sample.world 100 40) (Js.Num 1)
                        Sample.options (Js.Num 60)))
  = [map Nii.reduceReceipt
       [Some {| transactionHash := "0xaa"; blockNumber := 100; gasUsed := 50000 |};
        Some {| transactionHash := "0xcc"; blockNumber := 102; gasUsed := 45000 |};
        Some {| transactionHash := "0xdd"; blockNumber := 103; gasUsed := 90000 |}]].
Proof.
  refine (proj1 (report_has_three_fixed_slots (Sample.world 100 40) (Js.Num 1)
                   Sample.options (Js.Num 60) _ _)).
  left. reflexivity.
Defined.

(** C6.  Whatever the world answers and whatever the arguments are, a run of
    the command either prints nothing and rejects, or prints exactly one
    report, complete (three slots, the last one the receipt of the
    completion), after every required step it submitted was confirmed.  In
    particular a run in which a required step fails prints nothing and
    rejects. *)
Theorem report_all_or_nothing (w : Nii.World) (argv : Nii.Argv) :
  let run := Nii.handler w argv in
  ((reports (Eff.trace run) = [] /\ isThrow (Eff.result run) = true)
   \/ (exists report completeRecord,
          reports (Eff.trace run) = [report]
          /\ List.length report = 3%nat
          /\ Nii.completeConfirmation w = Ok completeRecord
          /\ nth_error report 2 = Some (Nii.reduceReceipt (Some completeRecord))
          /\ isOk (Nii.completeTx w) = true
          /\ (In StepApprove (submitted (Eff.trace run)) -> approveConfirmed w = true)
          /\ (In StepClear (submitted (Eff.trace run)) -> clearConfirmed w = true)))
  /\ (forall opening R A s m,
         started w argv = true ->
         Nii.openingBalance w = Ok opening ->
         Nii.depositBalance w = Ok R ->
         Nii.depositAllowance w = Ok A ->
         RequiredFailure w R A s m ->
         reports (Eff.trace run) = [] /\ isThrow (Eff.result run) = true).
Proof.
  intros run. subst run. rewrite handler_unfold. unfold started, providerAcquired.
  destruct (Nii.resolve argv) as [[[p o] t]|m0];
    [|split; [now left|discriminate]].
  destruct (Nii.providerFrom w); [|split; [now left|discriminate]].
  destruct (Nii.privateKey w); [|split; [now left|discriminate]].
  destruct (Nii.erc20ContractFrom w); [|split; [now left|discriminate]].
  cbn [Eff.trace Eff.result fst snd].
  rewrite (obs_app (obs := reports)), (obs_app (obs := submitted)).
  cbn [reports submitted stepOf app].
  split.
  - destruct (Eff.result (Nii.tryBody w p o t)) as [u|m] eqn:Hbody.
    + right.
      destruct (tryBody_ok_reads w p o t u Hbody) as (opening & R & A & Ho & Hr & Ha).
      pose proof (tryBody_reports w p o t _ _ _ Ho Hr Ha) as Hrep.
      rewrite (tryBody_result w p o t _ _ _ Ho Hr Ha) in Hbody.
      rewrite guarded_reports, guarded_submitted, Hrep,
        (tryBody_submitted w p o t _ _ _ Ho Hr Ha), approveStep_submitted.
      destruct (Eff.result (Nii.approveStep w o t R A)) as [ar|] eqn:Hap;
        [|discriminate].
      destruct (Eff.result (Nii.completeStep w o t R)) as [cr|] eqn:Hco;
        [|discriminate].
      destruct (completeStep_ok w o t R cr Hco) as [Hct Hcc].
      eexists _, cr. repeat split; try assumption.
      * destruct (approveStep_ok w o t R A ar Hap)
          as [[Hlt ->]|(Hlt & Hclr & Happ & _)]; [|intros _; assumption].
        rewrite Hlt. simpl. intuition discriminate.
      * destruct (approveStep_ok w o t R A ar Hap)
          as [[Hlt ->]|(Hlt & Hclr & Happ & _)]; rewrite Hlt; simpl.
        -- intuition discriminate.
        -- destruct (A >? 0); [intros _; now apply Hclr|].
           simpl. intuition discriminate.
    + left. rewrite guarded_reports, (tryBody_throw_reports w p o t m Hbody).
      split; [reflexivity|].
      now destruct (body_failure_aborts w p o t m Hbody) as (_ & _ & -> & _).
  - intros opening R A s m _ Ho Hr Ha Hf.
    destruct (required_failure_throws w p o t _ _ _ _ _ Ho Hr Ha Hf) as [Hthrow _].
    rewrite guarded_reports, (tryBody_throw_reports w p o t m Hthrow).
    split; [reflexivity|].
    now destruct (body_failure_aborts w p o t m Hthrow) as (_ & _ & -> & _).
Qed.

Lemma report_all_or_nothing_witness :
  reports (Eff.trace (Nii.handler Sample.completeRefused Sample.argv)) = []
  /\ isThrow (Eff.result (Nii.handler Sample.completeRefused Sample.argv)) = true.
Proof.
  refine (proj2 (report_all_or_nothing Sample.completeRefused Sample.argv)
            0 5000 0 StepComplete "transaction failed"
            eq_refl eq_refl eq_refl eq_refl _).
  apply CompleteSubmissionFails; [|reflexivity].
  intros _. split; [intros H; inversion H|reflexivity].
Defined.

(** ** The amount deposited *)

Section NiiAmounts.

Variable w : Nii.World.
Variable p : Js.JsNum.
Variable o : GasOptions.
Variable t : Js.JsNum.

Lemma approveStep_amounts R A :
  approveAmounts (Eff.trace (Nii.approveStep w o t R A)) =
  if (A <? R) && (negb (A >? 0) || clearConfirmed w)
  then [Js.JString (Ethers.formatUnits R 15)] else [].
Proof.
  unfold Nii.approveStep, Nii.clearStep, clearConfirmed.
  destruct (A <? R); [|reflexivity].
  destruct (A >? 0); answer_cases; reflexivity.
Qed.

Lemma guarded_amounts :
  approveAmounts (Eff.trace (Nii.guarded w p o t))
  = approveAmounts (Eff.trace (Nii.tryBody w p o t))
  /\ completeAmounts (Eff.trace (Nii.guarded w p o t))
     = completeAmounts (Eff.trace (Nii.tryBody w p o t)).
Proof.
  rewrite guarded_trace.
  repeat rewrite (obs_app (obs := approveAmounts)).
  repeat rewrite (obs_app (obs := completeAmounts)).
  destruct (finallyBlock_observed w) as (_ & _ & _ & -> & -> & _).
  destruct (Eff.result (Nii.tryBody w p o t)); simpl;
    now rewrite !app_nil_r.
Qed.

Lemma tryBody_amounts (opening R A : Z) :
  Nii.openingBalance w = Ok opening ->
  Nii.depositBalance w = Ok R ->
  Nii.depositAllowance w = Ok A ->
  approveAmounts (Eff.trace (Nii.tryBody w p o t))
  = approveAmounts (Eff.trace (Nii.approveStep w o t R A))
  /\ completeAmounts (Eff.trace (Nii.tryBody w p o t))
     = if isOk (Eff.result (Nii.approveStep w o t R A))
       then [Js.JString (Ethers.formatUnits R 15)] else [].
Proof.
  intros Ho Hr Ha. rewrite (tryBody_trace _ _ _ _ _ _ _ Ho Hr Ha).
  repeat rewrite (obs_app (obs := approveAmounts)).
  repeat rewrite (obs_app (obs := completeAmounts)).
  destruct (releaseStep_observed w p o t) as (_ & _ & _ & -> & -> & _).
  destruct (approveStep_observed w o t R A) as (_ & -> & _).
  simpl. destruct (Eff.result (Nii.approveStep w o t R A)).
  - rewrite (obs_app (obs := approveAmounts)), (obs_app (obs := completeAmounts)).
    destruct (completeStep_observed w o t R) as (_ & _ & _ & -> & -> & _).
    destruct (Eff.result (Nii.completeStep w o t R)); simpl;
      now rewrite !app_nil_r.
  - now rewrite app_nil_r.
Qed.

(** The approval is submitted when the allowance falls short and the
    clearing, if one is needed, went through; the completion when the
    approval is not needed or went through. *)
Lemma approveStep_reaches R A :
  isOk (Eff.result (Nii.approveStep w o t R A))
  = negb (A <? R)
    || ((A <? R) && (negb (A >? 0) || clearConfirmed w) && approveConfirmed w).
Proof.
  rewrite approveStep_result. unfold clearConfirmed, approveConfirmed.
  destruct (A <? R); [|reflexivity].
  destruct (A >? 0); cbn [negb orb andb].
  - destruct (Nii.clearTx w); [|reflexivity].
    destruct (Nii.clearConfirmation w); [|reflexivity].
    destruct (Nii.approveTx w); [|reflexivity].
    now destruct (Nii.approveConfirmation w).
  - destruct (Nii.approveTx w); [|reflexivity].
    now destruct (Nii.approveConfirmation w).
Qed.

Lemma approveStep_passes R A :
  (A <? R) && (negb (A >? 0) || clearConfirmed w) = true ->
  In (ApproveTokenDeposit (Js.JString (Ethers.formatUnits R 15)) "NII" o)
     (Eff.trace (Nii.approveStep w o t R A)).
Proof.
  unfold Nii.approveStep, Nii.clearStep, clearConfirmed.
  destruct (A <? R); [|discriminate].
  destruct (A >? 0); cbn [negb orb andb].
  - destruct (Nii.clearTx w); [|discriminate].
    destruct (Nii.clearConfirmation w); [|discriminate].
    intros _. destruct (Nii.approveTx w); [destruct (Nii.approveConfirmation w)|];
      cbn; repeat (first [left; reflexivity | right]).
  - intros _. destruct (Nii.approveTx w); [destruct (Nii.approveConfirmation w)|];
      cbn; repeat (first [left; reflexivity | right]).
Qed.

Lemma completeStep_passes R :
  In (CompleteTokenDeposit (Js.JString (Ethers.formatUnits R 15)) "NII" o)
     (Eff.trace (Nii.completeStep w o t R)).
Proof.
  unfold Nii.completeStep.
  destruct (Nii.completeTx w); [destruct (Nii.completeConfirmation w)|];
    cbn; repeat (first [left; reflexivity | right]).
Qed.

End NiiAmounts.

(** The first balance read only feeds a debug line: the rest of the body
    does not depend on its value. *)
Lemma tryBody_opening (w : Nii.World) (p : Js.JsNum) (o : GasOptions) (t : Js.JsNum) :
  exists rest : Eff.M unit,
    forall b,
      Nii.tryBody (withOpeningBalance w (Ok b)) p o t =
      (Eff.emit (BalanceOf (Nii.walletAddress w)) ;;;
       Eff.emit (DebugLog ("Opening on-chain balance: " ++ Ethers.formatUnits b 15 ++ " NII")) ;;;
       rest).
Proof.
  exists
    (releaseReceipt <- Nii.releaseStep w p o t ;;
     niiBalance <- Eff.call (BalanceOf (Nii.walletAddress w)) (Nii.depositBalance w) ;;
     Eff.emit (DebugLog ("Depositing: " ++ Ethers.formatUnits niiBalance 15 ++ " NII")) ;;;
     Eff.emit (SpinnerStart "Checking allowance") ;;;
     allowance <- Eff.call (GetDepositAllowance "NII") (Nii.depositAllowance w) ;;
     Eff.emit (SpinnerSucceed ("Allowance retrieved: " ++ Js.string_of_Z allowance)) ;;;
     approveReceipt <- Nii.approveStep w o t niiBalance allowance ;;
     completeReceipt <- Nii.completeStep w o t niiBalance ;;
     Eff.emit (ConsoleError "Please allow a few minutes for the nahmii balance to be updated!") ;;;
     Eff.emit (ConsoleLog (map Nii.reduceReceipt
                             [releaseReceipt; approveReceipt; Some completeReceipt]))).
  intros b. reflexivity.
Qed.

(** C10.  In every run of the NII workflow, each amount handed to the
    approval and each amount handed to the completion of the deposit is the
    balance that the second balance read returned, formatted with 15
    decimals, so the two are identical; that read comes after the release
    step, whatever its outcome; the amounts depend neither on the arguments
    of the command nor on the balance read before the release, which only
    feeds a debug line.  And the amount is passed: once the three reads are
    answered, the approval is called with exactly that amount whenever the
    allowance falls short and the clearing, if needed, went through, and the
    completion is called with exactly that amount whenever the approval was
    not needed or went through; neither is called otherwise. *)
Theorem deposit_amount_is_reread_balance
    (w : Nii.World) (p : Js.JsNum) (o : GasOptions) (t : Js.JsNum) :
  let events := Eff.trace (Nii.guarded w p o t) in
  (forall a,
      In a (approveAmounts events) \/ In a (completeAmounts events) ->
      exists R, Nii.depositBalance w = Ok R
                /\ a = Js.JString (Ethers.formatUnits R 15))
  /\ (forall opening,
         Nii.openingBalance w = Ok opening ->
         exists rest,
           events =
           (BalanceOf (Nii.walletAddress w)
            :: DebugLog ("Opening on-chain balance: " ++ Ethers.formatUnits opening 15 ++ " NII")
            :: Eff.trace (Nii.releaseStep w p o t)
            ++ BalanceOf (Nii.walletAddress w) :: rest)%list
           /\ approveAmounts (Eff.trace (Nii.releaseStep w p o t)) = []
           /\ completeAmounts (Eff.trace (Nii.releaseStep w p o t)) = [])
  /\ (forall p' o' t',
         approveAmounts (Eff.trace (Nii.guarded w p' o' t')) = approveAmounts events
         /\ completeAmounts (Eff.trace (Nii.guarded w p' o' t')) = completeAmounts events)
  /\ (forall b b',
         withoutDebugLog (Eff.trace (Nii.guarded (withOpeningBalance w (Ok b)) p o t))
         = withoutDebugLog (Eff.trace (Nii.guarded (withOpeningBalance w (Ok b')) p o t))
         /\ Eff.result (Nii.guarded (withOpeningBalance w (Ok b)) p o t)
            = Eff.result (Nii.guarded (withOpeningBalance w (Ok b')) p o t))
  /\ (forall opening R A,
         Nii.openingBalance w = Ok opening ->
         Nii.depositBalance w = Ok R ->
         Nii.depositAllowance w = Ok A ->
         let amount := Js.JString (Ethers.formatUnits R 15) in
         let approves := (A <? R) && (negb (A >? 0) || clearConfirmed w) in
         let completes := negb (A <? R) || (approves && approveConfirmed w) in
         approveAmounts events = (if approves then [amount] else [])
         /\ completeAmounts events = (if completes then [amount] else [])
         /\ (approves = true -> In (ApproveTokenDeposit amount "NII" o) events)
         /\ (completes = true -> In (CompleteTokenDeposit amount "NII" o) events)).
Proof.
  intros events. subst events. split; [|split; [|split; [|split]]].
  - intros a Hin.
    destruct (guarded_amounts w p o t) as [Hap Hco]. rewrite Hap, Hco in Hin.
    destruct (reads_or_not w) as [(opening & R & A & Ho & Hr & Ha)|[m Hf]].
    + exists R. split; [assumption|].
      destruct (tryBody_amounts w p o t _ _ _ Ho Hr Ha) as [Hap' Hco'].
      rewrite Hap', Hco' in Hin. destruct Hin as [Hin|Hin].
      * now apply (proj1 (proj2 (proj2 (proj2 (approveStep_observed w o t R A))))).
      * destruct (isOk (Eff.result (Nii.approveStep w o t R A))); [|contradiction].
        now destruct Hin as [<-|[]].
    + destruct (tryBody_read_failure w p o t m Hf) as (_ & _ & Hap' & Hco' & _).
      rewrite Hap', Hco' in Hin. now destruct Hin.
  - intros opening Ho.
    destruct (tryBody_continues w p o t opening Ho) as (rest & Hbody).
    rewrite guarded_trace, Hbody.
    destruct (releaseStep_observed w p o t) as (_ & _ & _ & -> & -> & _).
    eexists. split; [|split; reflexivity].
    simpl. rewrite <- app_assoc. simpl. reflexivity.
  - intros p' o' t'.
    destruct (guarded_amounts w p o t) as [-> ->].
    destruct (guarded_amounts w p' o' t') as [-> ->].
    destruct (reads_or_not w) as [(opening & R & A & Ho & Hr & Ha)|[m Hf]].
    + destruct (tryBody_amounts w p o t _ _ _ Ho Hr Ha) as [-> ->].
      destruct (tryBody_amounts w p' o' t' _ _ _ Ho Hr Ha) as [-> ->].
      now rewrite !approveStep_amounts, !approveStep_result.
    + destruct (tryBody_read_failure w p o t m Hf) as (_ & _ & -> & -> & _).
      now destruct (tryBody_read_failure w p' o' t' m Hf) as (_ & _ & -> & -> & _).
  - intros b b'.
    destruct (tryBody_opening w p o t) as [rest Hrest].
    rewrite !guarded_trace, !guarded_result, !Hrest.
    unfold withoutDebugLog. rewrite !filter_app.
    repeat rewrite bind_trace, bind_result. simpl.
    now destruct (Eff.result rest).
  - intros opening R A Ho Hr Ha. cbv zeta.
    destruct (guarded_amounts w p o t) as [-> ->].
    destruct (tryBody_amounts w p o t _ _ _ Ho Hr Ha) as [-> ->].
    rewrite approveStep_amounts, approveStep_reaches.
    split; [reflexivity|split; [reflexivity|]].
    rewrite guarded_trace, (tryBody_trace w p o t _ _ _ Ho Hr Ha).
    split.
    + intros Happroves.
      apply in_or_app. left.
      apply in_or_app. right. apply in_or_app. right. apply in_or_app. right.
      apply in_or_app. left. now apply approveStep_passes.
    + intros Hcompletes. rewrite <- (approveStep_reaches w o t R A) in Hcompletes.
      apply in_or_app. left.
      apply in_or_app. right. apply in_or_app. right. apply in_or_app. right.
      apply in_or_app. right.
      destruct (Eff.result (Nii.approveStep w o t R A)); [|discriminate].
      apply in_or_app. left. apply completeStep_passes.
Qed.

Lemma deposit_amount_is_reread_balance_witness :
  exists R,
    Nii.depositBalance (Sample.world 100 40) = Ok R
    /\ Js.JString "0.0000000000001" = Js.JString (Ethers.formatUnits R 15).
Proof.
  refine (proj1 (deposit_amount_is_reread_balance (Sample.world 100 40) (Js.Num 1)
                   Sample.options (Js.Num 60)) (Js.JString "0.0000000000001") _).
  left. left. reflexivity.
Defined.

(** ** Gas policy *)

(** ** Integers printed and read back *)

Section DecimalRoundTrip.

Import Decimal.

Lemma parseDigits_printed (d : uint) (acc : Z) :
  Js.parseDigits 10 (NilEmpty.string_of_uint d) (Some acc) = Some (readAfter d acc).
Proof.
  revert acc. induction d; intros acc; simpl; try reflexivity; apply IHd.
Qed.

Lemma readAfter_positive (d : uint) (acc : positive) :
  readAfter d (Zpos acc) = Zpos (Pos.of_uint_acc d acc).
Proof.
  revert acc. induction d; intros acc; cbn [readAfter Pos.of_uint_acc];
    try reflexivity; rewrite <- IHd; f_equal; lia.
Qed.

Lemma readAfter_zero (d : uint) : readAfter d 0 = Z.of_N (Pos.of_uint d).
Proof.
  induction d; cbn [readAfter Pos.of_uint]; try reflexivity; try exact IHd;
    change (10 * 0 + ?k) with k; apply readAfter_positive.
Qed.

(** The digits printed for a positive number read back as that number. *)
Lemma digits_read_back (p : positive) :
  Js.parseDigits 10 (NilEmpty.string_of_uint (Pos.to_uint p)) (Some 0) = Some (Zpos p).
Proof.
  rewrite parseDigits_printed, readAfter_zero, DecimalPos.Unsigned.of_to. reflexivity.
Qed.

(** A printed number is a non-empty string of digits. *)
Lemma printed_all_digits (d : uint) :
  Ethers.allDigits (NilEmpty.string_of_uint d) = true.
Proof. induction d; simpl; try reflexivity; exact IHd. Qed.

Lemma printed_nonempty (p : positive) :
  exists c rest,
    NilEmpty.string_of_uint (Pos.to_uint p) = String c rest /\ Ethers.isDigit c = true.
Proof.
  pose proof (DecimalPos.Unsigned.to_uint_nonnil p) as Hnil.
  destruct (Pos.to_uint p); [contradiction| | | | | | | | | |];
    simpl; eexists _, _; split; reflexivity.
Qed.

Lemma string_of_Z_positive (p : positive) :
  Js.string_of_Z (Zpos p) = NilEmpty.string_of_uint (Pos.to_uint p).
Proof.
  unfold Js.string_of_Z. simpl.
  pose proof (DecimalPos.Unsigned.to_uint_nonnil p) as Hnil.
  destruct (Pos.to_uint p); [contradiction| | | | | | | | | |]; reflexivity.
Qed.

End DecimalRoundTrip.

Section PrintedNumbers.

Import Decimal.

Lemma parseDigits_from_zero (s : string) (c : ascii) :
  Ethers.isDigit c = true ->
  Js.parseDigits 10 (String c s) None = Js.parseDigits 10 (String c s) (Some 0).
Proof.
  intros Hc. simpl. unfold Js.digitValue. unfold Ethers.isDigit in Hc.
  cbv zeta in *. now rewrite Hc.
Qed.

Lemma printed_without_point (d : uint) :
  contains "." (NilEmpty.string_of_uint d) = false.
Proof. induction d; simpl; try reflexivity; exact IHd. Qed.

Lemma printed_decimalChars (d : uint) :
  Ethers.decimalChars (NilEmpty.string_of_uint d) = true.
Proof. induction d; simpl; try reflexivity; exact IHd. Qed.

#[local] Arguments Js.nearestNumber : simpl never.

(** The integers up to 2^53 are Numbers. *)
Lemma nearestNumber_safe (c : Z) : 0 <= c < 2 ^ 53 -> Js.nearestNumber c = c.
Proof.
  intros [H0 H53]. unfold Js.nearestNumber.
  assert (He : Z.log2 c - 52 <= 0).
  { destruct (Z.eq_dec c 0) as [->|Hc]; [simpl; lia|].
    assert (Z.log2 c < 53) by (apply Z.log2_lt_pow2; lia). lia. }
  cbv zeta. apply Z.leb_le in He. now rewrite He.
Qed.

(** [parseInt] reads a printed natural number as [parseDigits] does. *)
Lemma parseIntString_printed (d : uint) :
  d <> Nil ->
  Js.parseIntString (NilEmpty.string_of_uint d) =
  match Js.parseDigits 10 (NilEmpty.string_of_uint d) (Some 0) with
  | Some m => Js.Num (Js.nearestNumber m)
  | None => Js.NaN
  end.
Proof.
  intros Hd. unfold Js.parseIntString.
  destruct d as [|d|d|d|d|d|d|d|d|d|d]; [contradiction| | | | | | | | | |];
    try (cbn; destruct (Js.parseDigits _ _ _) as [m|];
         [destruct (Js.nearestNumber m)|]; reflexivity).
  destruct d; cbn;
    try (destruct (Js.parseDigits _ _ _) as [m|];
         [destruct (Js.nearestNumber m)|]; reflexivity).
  reflexivity.
Qed.

Lemma parseIntString_printed_negative (d : uint) :
  d <> Nil ->
  Js.parseIntString (String "-" (NilEmpty.string_of_uint d)) =
  match Js.parseDigits 10 (NilEmpty.string_of_uint d) (Some 0) with
  | Some m => Js.Num (- Js.nearestNumber m)
  | None => Js.NaN
  end.
Proof.
  intros Hd. unfold Js.parseIntString.
  destruct d as [|d|d|d|d|d|d|d|d|d|d]; [contradiction| | | | | | | | | |];
    try (cbn; destruct (Js.parseDigits _ _ _) as [m|];
         [destruct (Js.nearestNumber m)|]; reflexivity).
  destruct d; cbn;
    try (destruct (Js.parseDigits _ _ _) as [m|];
         [destruct (Js.nearestNumber m)|]; reflexivity).
  reflexivity.
Qed.

(** [parseInt] of an integer-valued Number below 2^53 is that integer. *)
Lemma parseInt_number (z : Z) :
  Z.abs z < 2 ^ 53 -> Js.parseInt (Js.JNumber (Js.Num z)) = Js.Num z.
Proof.
  intros Hz. unfold Js.parseInt, Js.toString, Js.numToString.
  assert (Hfull : (Z.abs z <? 10 ^ 21) = true) by (apply Z.ltb_lt; lia).
  rewrite Hfull.
  destruct z as [|p|p].
  - reflexivity.
  - rewrite string_of_Z_positive,
      (parseIntString_printed _ (DecimalPos.Unsigned.to_uint_nonnil p)),
      digits_read_back.
    rewrite nearestNumber_safe by (simpl in Hz; lia). reflexivity.
  - pose proof (DecimalPos.Unsigned.to_uint_nonnil p) as Hnil.
    assert (Hprint : Js.string_of_Z (Zneg p)
                     = String "-" (NilEmpty.string_of_uint (Pos.to_uint p))).
    { unfold Js.string_of_Z. cbn [Z.to_int NilZero.string_of_int].
      destruct (Pos.to_uint p); [contradiction| | | | | | | | | |]; reflexivity. }
    rewrite Hprint, (parseIntString_printed_negative _ Hnil), digits_read_back.
    rewrite nearestNumber_safe by (simpl in Hz; lia). reflexivity.
Qed.

(** [parseUnits] of a printed positive integer is exact. *)
Lemma parseUnits_printed (p : positive) (decimals : nat) :
  Ethers.parseUnits (Js.string_of_Z (Zpos p)) decimals
  = Ok (Zpos p * 10 ^ Z.of_nat decimals).
Proof.
  rewrite string_of_Z_positive.
  pose proof (digits_read_back p) as Hread.
  pose proof (printed_decimalChars (Pos.to_uint p)) as Hchars.
  pose proof (split_without_separator "." _ (printed_without_point (Pos.to_uint p)))
    as Hsplit.
  destruct (printed_nonempty p) as (c & rest & Hs & Hc).
  rewrite Hs in *.
  rewrite <- (parseDigits_from_zero rest c Hc) in Hread.
  unfold Ethers.parseUnits.
  assert (Hminus : Ascii.eqb c "-" = false /\ Ascii.eqb c "." = false).
  { destruct c as [[] [] [] [] [] [] [] []]; try discriminate; split; reflexivity. }
  destruct Hminus as [Hminus Hpoint].
  replace (match String c rest with
           | String "-" rest0 => (true, rest0)
           | _ => (false, String c rest)
           end) with (false, String c rest)
    by (destruct c as [[] [] [] [] [] [] [] []]; try discriminate; reflexivity).
  rewrite Hchars. cbn [negb orb String.eqb].
  rewrite Hpoint, Hsplit. unfold Ethers.digitsValue. rewrite Hread. reflexivity.
Qed.

End PrintedNumbers.

(** ** The gas policy of numeric options *)

Lemma numToString_small (z : Z) :
  Z.abs z < 2 ^ 53 -> Js.numToString (Js.Num z) = Js.string_of_Z z.
Proof.
  intros Hz. unfold Js.numToString.
  assert (Hfull : (Z.abs z <? 10 ^ 21) = true) by (apply Z.ltb_lt; lia).
  now rewrite Hfull.
Qed.

(** The fee claim, for options that are integer-valued Numbers below 2^53:
    the policy is refused when one of them is at most zero, and otherwise it
    is the gas limit as given, the price in gwei times 10^9, and the timeout
    as given. *)
Lemma fees_gas_policy (argv : Fees.Argv) (g t p : Z) :
  Fees.gas argv = Js.JNumber (Js.Num g) ->
  Fees.timeout argv = Js.JNumber (Js.Num t) ->
  Fees.price argv = Js.JNumber (Js.Num p) ->
  Z.abs g < 2 ^ 53 -> Z.abs t < 2 ^ 53 -> Z.abs p < 2 ^ 53 ->
  Fees.resolve argv =
  if g <=? 0 then Throw "Gas limit must be a number higher than 0."
  else if t <=? 0 then Throw "Timeout must be a number higher than 0."
  else if p <=? 0 then Throw "Gas price must be a number higher than 0."
  else Ok ({| gasLimit := Js.Num g; gasPrice := p * 10 ^ 9 |}, Js.Num t).
Proof.
  intros Hg Ht Hp Bg Bt Bp.
  unfold Fees.resolve, Fees.validateGasLimit, Fees.validateTimeout,
    Fees.validateGasPrice.
  rewrite Hg, Ht, Hp, !parseInt_number by assumption. cbn [Js.le].
  destruct (g <=? 0); [reflexivity|].
  destruct (t <=? 0); [reflexivity|].
  destruct (Z.leb_spec p 0); [reflexivity|].
  rewrite numToString_small by assumption.
  destruct p as [|p|p]; try lia.
  now rewrite parseUnits_printed.
Qed.

Lemma fees_gas_policy_witness :
  Fees.resolve FeesSample.ascending
  = Ok ({| gasLimit := Js.Num 6000000; gasPrice := 12 * 10 ^ 9 |}, Js.Num 60).
Proof.
  exact (fees_gas_policy FeesSample.ascending 6000000 60 12 eq_refl eq_refl eq_refl
           eq_refl eq_refl eq_refl).
Defined.

(** The NII claim does the same after the period check and after replacing
    a gas limit or a price of zero by the default, 800000 or 12. *)
Lemma nii_gas_policy (argv : Nii.Argv) (n g t p : Z) :
  Nii.period argv = Js.JNumber (Js.Num n) ->
  Nii.gas argv = Js.JNumber (Js.Num g) ->
  Nii.timeout argv = Js.JNumber (Js.Num t) ->
  Nii.price argv = Js.JNumber (Js.Num p) ->
  Z.abs n < 2 ^ 53 -> Z.abs g < 2 ^ 53 -> Z.abs t < 2 ^ 53 -> Z.abs p < 2 ^ 53 ->
  Nii.resolve argv =
  let g' := if g =? 0 then 800000 else g in
  let p' := if p =? 0 then 12 else p in
  if (n <? 1) || (120 <? n) then Throw "Period must be a number from 1 to 120."
  else if g' <=? 0 then Throw "Gas limit must be a number higher than 0."
  else if t <=? 0 then Throw "Timeout must be a number higher than 0."
  else if p' <=? 0 then Throw "Gas price must be a number higher than 0."
  else Ok (Js.Num n, {| gasLimit := Js.Num g'; gasPrice := p' * 10 ^ 9 |}, Js.Num t).
Proof.
  intros Hn Hg Ht Hp Bn Bg Bt Bp.
  unfold Nii.resolve, Nii.validatePeriod, Nii.validateGasLimit,
    Nii.validateTimeout, Nii.validateGasPrice, Js.or.
  rewrite Hn, Hg, Ht, Hp. cbn [Js.truthy].
  assert (Hdefault : forall z d,
             Z.abs z < 2 ^ 53 -> Z.abs d < 2 ^ 53 ->
             Js.parseInt (if negb (z =? 0) then Js.JNumber (Js.Num z)
                          else Js.JNumber (Js.Num d))
             = Js.Num (if z =? 0 then d else z)).
  { intros z d Bz Bd. destruct (z =? 0); cbn [negb]; now apply parseInt_number. }
  rewrite (Hdefault g 800000 Bg eq_refl), (Hdefault p 12 Bp eq_refl),
    !parseInt_number by assumption.
  cbn [Js.le Js.lt Js.gt]. cbv zeta.
  destruct ((n <? 1) || (120 <? n)); [reflexivity|].
  destruct ((if g =? 0 then 800000 else g) <=? 0); [reflexivity|].
  destruct (t <=? 0); [reflexivity|].
  destruct (Z.leb_spec (if p =? 0 then 12 else p) 0); [reflexivity|].
  rewrite numToString_small by (destruct (p =? 0); [reflexivity|assumption]).
  destruct (if p =? 0 then 12 else p) as [|q|q]; try lia.
  now rewrite parseUnits_printed.
Qed.

Lemma nii_gas_policy_witness :
  Nii.resolve Sample.argv
  = Ok (Js.Num 1, {| gasLimit := Js.Num 800000; gasPrice := 12 * 10 ^ 9 |}, Js.Num 60).
Proof.
  exact (nii_gas_policy Sample.argv 1 800000 60 12 eq_refl eq_refl eq_refl eq_refl
           eq_refl eq_refl eq_refl eq_refl).
Defined.

(** ** One gas policy and one timeout per run *)

Section EveryEvent.

Variable P : Event -> Prop.

Context {A B : Type}.

Lemma everyEvent_ret (a : A) : everyEvent P (Eff.ret a).
Proof. constructor. Qed.

Lemma everyEvent_emit (e : Event) : P e -> everyEvent P (Eff.emit e).
Proof. intros H. repeat constructor. exact H. Qed.

Lemma everyEvent_call (e : Event) (r : Result A) : P e -> everyEvent P (Eff.call e r).
Proof. intros H. repeat constructor. exact H. Qed.

Lemma everyEvent_throw (m : string) : everyEvent P (@Eff.throw A m).
Proof. constructor. Qed.

Lemma everyEvent_bind (c : Eff.M A) (k : A -> Eff.M B) :
  everyEvent P c -> (forall a, everyEvent P (k a)) -> everyEvent P (Eff.bind c k).
Proof.
  unfold everyEvent. intros Hc Hk. rewrite bind_trace. apply Forall_app. split; [exact Hc|].
  destruct (Eff.result c); [apply Hk|constructor].
Qed.

Lemma everyEvent_tryCatch (c : Eff.M A) (h : string -> Eff.M A) :
  everyEvent P c -> (forall m, everyEvent P (h m)) -> everyEvent P (Eff.tryCatch c h).
Proof.
  unfold everyEvent. intros Hc Hh. rewrite tryCatch_trace. apply Forall_app. split; [exact Hc|].
  destruct (Eff.result c); [constructor|apply Hh].
Qed.

Lemma everyEvent_finally (c : Eff.M A) (f : Eff.M unit) :
  everyEvent P c -> everyEvent P f -> everyEvent P (Eff.finally c f).
Proof.
  unfold everyEvent. intros Hc Hf. rewrite finally_trace. apply Forall_app. now split.
Qed.

End EveryEvent.

Create HintDb events.

#[local] Hint Resolve everyEvent_ret everyEvent_emit everyEvent_call everyEvent_throw
  everyEvent_bind everyEvent_tryCatch everyEvent_finally : events.

#[local] Hint Extern 1 (usesPolicy _ _ _) => exact I : events.
#[local] Hint Extern 1 (usesPolicy _ _ _) => reflexivity : events.

(** Every submission of a run carries the gas options resolved at its start,
    and every wait for a confirmation its timeout. *)
Lemma one_gas_policy_per_run
    (w : Nii.World) (p : Js.JsNum) (o : GasOptions) (t : Js.JsNum) :
  everyEvent (usesPolicy o t) (Nii.guarded w p o t).
Proof.
  unfold Nii.guarded, Nii.tryBody, Nii.releaseStep, Nii.completeStep,
    Nii.catchBlock, Nii.finallyBlock.
  assert (Happ : forall R A, everyEvent (usesPolicy o t) (Nii.approveStep w o t R A)).
  { intros R A. unfold Nii.approveStep, Nii.clearStep.
    destruct (A <? R); [destruct (A >? 0)|]; auto 30 with events. }
  auto 40 with events.
Qed.

(** C7 fails on the code.  An option of type number that does not parse
    reaches the handler as [NaN]; [parseInt] keeps it, [NaN <= 0] is false,
    so the validators of the gas limit and of the timeout return it: the fee
    claim resolves its gas policy with [gasLimit = NaN] and waits with
    [timeout = NaN], and the NII claim waits for every confirmation with
    [timeout = NaN].  The validators of the range bounds, next to them, do
    test [Number.isNaN]. *)
Theorem unparsable_gas_policy_is_accepted :
  Fees.validateGasLimit (Js.JNumber Js.NaN) = Ok Js.NaN
  /\ Fees.validateTimeout (Js.JNumber Js.NaN) = Ok Js.NaN
  /\ Nii.validateTimeout (Js.JNumber Js.NaN) = Ok Js.NaN
  /\ Fees.resolve FeesSample.unparsable
     = Ok ({| gasLimit := Js.NaN; gasPrice := 12000000000 |}, Js.NaN)
  /\ (let run := Nii.handler (Sample.world 100 40) Sample.argvTimeoutNaN in
      Eff.result run = Ok tt
      /\ In (GetTransactionConfirmation "0xdd" Js.NaN) (Eff.trace run))
  /\ Fees.validateBlock (Js.JNumber Js.NaN) "First"
     = Throw "First block number must be a number higher than 0.".
Proof. vm_compute. intuition. Qed.

(** ** Ranges *)

Lemma validateBound_spec (v : Js.JsValue) (name : string) :
  (Fees.validateBlock v name =
   if badBound (Js.parseInt v)
   then Throw (name ++ " block number must be a number higher than 0.")
   else Ok (Js.parseInt v))
  /\ (Fees.validateAccrual v name =
      if badBound (Js.parseInt v)
      then Throw (name ++ " accrual index must be a number higher than 0.")
      else Ok (Js.parseInt v)).
Proof. split; reflexivity. Qed.

Lemma goodBound_nonnegative (n : Js.JsNum) :
  badBound n = false -> exists z, n = Js.Num z /\ 0 <= z.
Proof.
  destruct n as [|z]; [discriminate|]. unfold badBound. simpl.
  intros H. exists z. split; [reflexivity|]. lia.
Qed.

(** The range the handler builds from the option it reads. *)
Lemma range_of_text (argv : Fees.Argv) (s : string) :
  rangeText argv = Js.JString s ->
  s <> "" ->
  Fees.range argv =
  if badBound (Js.parseInt (firstBound s))
  then Throw ("First" ++ (if Js.truthy (Fees.blocks argv)
                          then " block number must be a number higher than 0."
                          else " accrual index must be a number higher than 0."))
  else if badBound (Js.parseInt (lastBound s))
  then Throw ("Last" ++ (if Js.truthy (Fees.blocks argv)
                         then " block number must be a number higher than 0."
                         else " accrual index must be a number higher than 0."))
  else Ok (Some {| Fees.type := rangeKind argv;
                   Fees.first := Js.parseInt (firstBound s);
                   Fees.last := Js.parseInt (lastBound s) |}).
Proof.
  unfold rangeText, rangeKind, Fees.range, Fees.buildRange, Fees.splitRange,
    firstBound, lastBound.
  intros Htext Hs.
  assert (Htruthy : Js.truthy (Js.JString s) = true).
  { simpl. destruct (String.eqb_spec s ""); [contradiction|reflexivity]. }
  destruct (Js.truthy (Fees.blocks argv)) eqn:Hb.
  - rewrite Htext.
    rewrite (proj1 (validateBound_spec _ _)).
    destruct (badBound (Js.parseInt (Js.element (Js.split "-" s) 0))); [reflexivity|].
    rewrite (proj1 (validateBound_spec _ _)).
    now destruct (badBound _).
  - rewrite Htext, Htruthy.
    rewrite (proj2 (validateBound_spec _ _)).
    destruct (badBound (Js.parseInt (Js.element (Js.split "-" s) 0))); [reflexivity|].
    rewrite (proj2 (validateBound_spec _ _)).
    now destruct (badBound _).
Qed.

(** C8 fails on the code: [--accruals=5-2] yields the range [{first: 5,
    last: 2}], whose last bound is below its first. *)
Lemma range_last_below_first :
  Fees.range FeesSample.descending
  = Ok (Some {| Fees.type := Fees.accrualSymbol;
                Fees.first := Js.Num 5;
                Fees.last := Js.Num 2 |})
  /\ ~ (forall r f l,
           Fees.range FeesSample.descending = Ok (Some r) ->
           Fees.first r = Js.Num f -> Fees.last r = Js.Num l ->
           0 <= f /\ f <= l).
Proof.
  split; [reflexivity|].
  intros H.
  specialize (H _ 5 2 eq_refl eq_refl eq_refl). lia.
Qed.

(** C8 as amended.  For the option the handler reads, a non-empty string
    [s]: the handler fails with "First ... must be a number higher than 0."
    or "Last ... must be a number higher than 0." exactly when [parseInt]
    reads no non-negative integer at the head of the first bound, or of the
    last bound (the text after the first dash, the first bound again when
    that text is missing or empty); otherwise it builds the range of the two
    integers read, both of them non-negative, without comparing them; and a
    string with no dash yields [first = last = parseInt s]. *)
Theorem range_bounds (argv : Fees.Argv) (s : string) :
  rangeText argv = Js.JString s ->
  s <> "" ->
  (badBound (Js.parseInt (firstBound s)) || badBound (Js.parseInt (lastBound s)) = true ->
   exists m, Fees.range argv = Throw m
             /\ (m = "First block number must be a number higher than 0."
                 \/ m = "First accrual index must be a number higher than 0."
                 \/ m = "Last block number must be a number higher than 0."
                 \/ m = "Last accrual index must be a number higher than 0."))
  /\ (badBound (Js.parseInt (firstBound s)) || badBound (Js.parseInt (lastBound s)) = false ->
      exists f l,
        Fees.range argv
        = Ok (Some {| Fees.type := rangeKind argv;
                      Fees.first := Js.Num f;
                      Fees.last := Js.Num l |})
        /\ Js.parseInt (firstBound s) = Js.Num f
        /\ Js.parseInt (lastBound s) = Js.Num l
        /\ 0 <= f /\ 0 <= l)
  /\ (contains "-" s = false ->
      firstBound s = Js.JString s /\ lastBound s = Js.JString s
      /\ forall r, Fees.range argv = Ok (Some r) ->
                   Fees.first r = Js.parseIntString s
                   /\ Fees.last r = Js.parseIntString s).
Proof.
  intros Htext Hs. rewrite (range_of_text argv s Htext Hs).
  split; [|split].
  - intros Hbad. apply orb_true_iff in Hbad.
    destruct (badBound (Js.parseInt (firstBound s))).
    + eexists. split; [reflexivity|].
      destruct (Js.truthy (Fees.blocks argv)); simpl; auto.
    + destruct Hbad as [Hbad|Hbad]; [discriminate|]. rewrite Hbad.
      eexists. split; [reflexivity|].
      destruct (Js.truthy (Fees.blocks argv)); simpl; auto.
  - intros Hgood. apply orb_false_iff in Hgood. destruct Hgood as [Hf Hl].
    rewrite Hf, Hl.
    destruct (goodBound_nonnegative _ Hf) as (f & Ef & Hf0).
    destruct (goodBound_nonnegative _ Hl) as (l & El & Hl0).
    exists f, l. rewrite Ef, El. repeat split; assumption.
  - intros Hdash.
    assert (Hfirst : firstBound s = Js.JString s).
    { unfold firstBound. now rewrite (split_without_separator _ _ Hdash). }
    assert (Hlast : lastBound s = Js.JString s).
    { unfold lastBound. rewrite Hfirst.
      now rewrite (split_without_separator _ _ Hdash). }
    repeat split; try assumption; rewrite Hfirst, Hlast in H;
      destruct (badBound (Js.parseInt (Js.JString s))); try discriminate;
      now injection H as <-.
Qed.

Lemma range_bounds_witness :
  exists f l,
    Fees.range FeesSample.ascending
    = Ok (Some {| Fees.type := rangeKind FeesSample.ascending;
                  Fees.first := Js.Num f;
                  Fees.last := Js.Num l |})
    /\ Js.parseInt (firstBound "0-2") = Js.Num f
    /\ Js.parseInt (lastBound "0-2") = Js.Num l
    /\ 0 <= f /\ 0 <= l.
Proof.
  refine (proj1 (proj2 (range_bounds FeesSample.ascending "0-2" eq_refl _)) eq_refl).
  discriminate.
Defined.

(** ** Amounts *)

(** The normalizer of the pay command is exact. *)

Section ParseUnitsExact.

Lemma allDigits_app (s u : string) :
  Ethers.allDigits (s ++ u) = Ethers.allDigits s && Ethers.allDigits u.
Proof.
  induction s as [|c s IH]; [reflexivity|].
  change (String c s ++ u) with (String c (s ++ u)).
  cbn [Ethers.allDigits]. now rewrite IH, andb_assoc.
Qed.

Lemma digit_is_no_sign (c : ascii) :
  Ethers.isDigit c = true ->
  Ascii.eqb c "-" = false /\ Ascii.eqb c "." = false
  /\ Js.digitValue 10 c = Some (Js.code c - 48).
Proof.
  intros H. destruct c as [[] [] [] [] [] [] [] []]; try discriminate;
    repeat split; reflexivity.
Qed.

Lemma allDigits_no_point (s : string) :
  Ethers.allDigits s = true ->
  contains "." s = false /\ Ethers.decimalChars s = true.
Proof.
  induction s as [|c s IH]; [now split|].
  cbn [Ethers.allDigits contains Ethers.decimalChars]. intros H.
  apply andb_true_iff in H. destruct H as [Hc Hs].
  destruct (IH Hs) as [-> ->]. destruct (digit_is_no_sign c Hc) as (_ & -> & _).
  now rewrite Hc.
Qed.

Lemma decimalChars_app (s u : string) :
  Ethers.decimalChars (s ++ u) = Ethers.decimalChars s && Ethers.decimalChars u.
Proof.
  induction s as [|c s IH]; [reflexivity|].
  change (String c s ++ u) with (String c (s ++ u)).
  cbn [Ethers.decimalChars]. now rewrite IH, andb_assoc.
Qed.

Lemma split_at_separator (c : ascii) (s u : string) :
  contains c s = false ->
  Js.split c (s ++ String c u) = s :: Js.split c u.
Proof.
  induction s as [|c' s IH].
  - intros _. change ("" ++ String c u) with (String c u).
    cbn [Js.split]. now rewrite Ascii.eqb_refl.
  - change (String c' s ++ String c u) with (String c' (s ++ String c u)).
    cbn [contains Js.split]. destruct (Ascii.eqb c' c); [discriminate|].
    cbn [orb]. intros H. now rewrite (IH H).
Qed.

(** Reading digits after digits. *)
Lemma parseDigits_app (s u : string) (acc : option Z) :
  Ethers.allDigits s = true ->
  Js.parseDigits 10 (s ++ u) acc = Js.parseDigits 10 u (Js.parseDigits 10 s acc).
Proof.
  revert acc. induction s as [|c s IH]; intros acc H; [reflexivity|].
  change (String c s ++ u) with (String c (s ++ u)).
  cbn [Ethers.allDigits] in H. apply andb_true_iff in H. destruct H as [Hc Hs].
  cbn [Js.parseDigits]. destruct (digit_is_no_sign c Hc) as (_ & _ & ->).
  now apply IH.
Qed.

Lemma parseDigits_some (s : string) (a : Z) :
  exists v, Js.parseDigits 10 s (Some a) = Some v.
Proof.
  revert a. induction s as [|c s IH]; intros a; [now exists a|].
  cbn [Js.parseDigits]. destruct (Js.digitValue 10 c); [apply IH|now exists a].
Qed.

Lemma parseDigits_start (s : string) :
  Ethers.allDigits s = true -> s <> "" ->
  Js.parseDigits 10 s None = Js.parseDigits 10 s (Some 0).
Proof.
  destruct s as [|c s]; [contradiction|]. cbn [Ethers.allDigits]. intros H _.
  apply andb_true_iff in H. now apply parseDigits_from_zero.
Qed.

Lemma digitsValue_padEnd (n : nat) (s : string) :
  Ethers.allDigits s = true -> s <> "" ->
  Ethers.allDigits (Ethers.padEnd n s) = true
  /\ Ethers.padEnd n s <> ""
  /\ Ethers.digitsValue (Ethers.padEnd n s) = Ethers.digitsValue s * 10 ^ Z.of_nat n.
Proof.
  revert s. induction n as [|n IH]; intros s Hs Hne.
  - cbn [Ethers.padEnd]. repeat split; try assumption. cbn. lia.
  - cbn [Ethers.padEnd].
    assert (Hs' : Ethers.allDigits (s ++ "0") = true)
      by (rewrite allDigits_app, Hs; reflexivity).
    assert (Hne' : s ++ "0" <> "") by (destruct s; [contradiction|discriminate]).
    destruct (IH _ Hs' Hne') as (H1 & H2 & H3).
    repeat split; try assumption. rewrite H3. unfold Ethers.digitsValue.
    rewrite (parseDigits_start _ Hs' Hne'), (parseDigits_start _ Hs Hne),
      (parseDigits_app _ _ _ Hs).
    destruct (parseDigits_some s 0) as [v ->]. cbn [Js.parseDigits].
    change (Js.digitValue 10 "0") with (Some 0).
    rewrite Nat2Z.inj_succ, Z.pow_succ_r by lia. lia.
Qed.

(** [whole.fraction] with at most [decimals] fractional digits is read as
    [whole.fraction * 10^decimals], exactly. *)
Lemma parseUnits_exact (whole fraction : string) (decimals : nat) :
  Ethers.allDigits whole = true -> whole <> "" ->
  Ethers.allDigits fraction = true -> fraction <> "" ->
  (String.length fraction <= decimals)%nat ->
  Ethers.parseUnits (whole ++ String "." fraction) decimals
  = Ok (Ethers.digitsValue whole * 10 ^ Z.of_nat decimals
        + Ethers.digitsValue fraction
          * 10 ^ Z.of_nat (decimals - String.length fraction)).
Proof.
  intros Hw Hwne Hf Hfne Hlen.
  destruct (allDigits_no_point whole Hw) as [Hwp Hwc].
  destruct (allDigits_no_point fraction Hf) as [Hfp Hfc].
  unfold Ethers.parseUnits.
  destruct whole as [|c whole]; [contradiction|].
  change (String c whole ++ String "." fraction)
    with (String c (whole ++ String "." fraction)).
  pose proof Hw as Hw'. cbn [Ethers.allDigits] in Hw'.
  apply andb_true_iff in Hw'. destruct Hw' as [Hc _].
  destruct (digit_is_no_sign c Hc) as (Hminus & Hpoint & _).
  replace (match String c (whole ++ String "." fraction) with
           | String "-" rest => (true, rest)
           | _ => (false, String c (whole ++ String "." fraction))
           end) with (false, String c (whole ++ String "." fraction))
    by (destruct c as [[] [] [] [] [] [] [] []]; try discriminate; reflexivity).
  change (String c (whole ++ String "." fraction))
    with (String c whole ++ String "." fraction).
  rewrite decimalChars_app, Hwc. cbn [Ethers.decimalChars].
  rewrite Ascii.eqb_refl, orb_true_r, Hfc.
  rewrite (split_at_separator "." _ _ Hwp), (split_without_separator "." _ Hfp).
  change (String c whole ++ String "." fraction)
    with (String c (whole ++ String "." fraction)).
  cbn [negb andb orb String.eqb]. rewrite Hpoint.
  assert (Hd : (decimals <? String.length fraction)%nat = false)
    by (apply Nat.ltb_ge; exact Hlen).
  rewrite Hd.
  destruct (digitsValue_padEnd (decimals - String.length fraction) fraction Hf Hfne)
    as (_ & _ & ->).
  reflexivity.
Qed.

Lemma parseUnits_exact_witness :
  Ethers.parseUnits "1.1" 18
  = Ok (Ethers.digitsValue "1" * 10 ^ Z.of_nat 18
        + Ethers.digitsValue "1" * 10 ^ Z.of_nat (18 - String.length "1")).
Proof.
  refine (parseUnits_exact "1" "1" 18 eq_refl _ eq_refl _ _);
    [discriminate|discriminate|].
  repeat constructor.
Defined.

End ParseUnitsExact.

(** C4 fails on the code.  The handler of src/unnamed/part_000 computes the
    amount with Numbers: for 0.07 of a currency with 15 decimals it creates a
    payment of "70000000000000.01" base units, not an integer, and for 1.1 of
    a currency with 18 decimals a payment of "1100000000000000100" base units,
    100 more than the exact amount; the handler of src/commands/pay.js, on
    integers, creates the exact "70000000000000" and "1100000000000000000". *)
Theorem float_amount_is_not_exact :
  paymentAmounts
    (Eff.trace (Pay.floatHandler PaySample.world (PaySample.pay "0.07" "HBT")))
  = ["70000000000000.01"]
  /\ paymentAmounts
       (Eff.trace (Pay.handler PaySample.world (PaySample.pay "0.07" "HBT")))
     = ["70000000000000"]
  /\ paymentAmounts
       (Eff.trace (Pay.floatHandler PaySample.world (PaySample.pay "1.1" "TT1")))
     = ["1100000000000000100"]
  /\ paymentAmounts
       (Eff.trace (Pay.handler PaySample.world (PaySample.pay "1.1" "TT1")))
     = ["1100000000000000000"]
  /\ JsDouble.exactValue (Pay.floatAmount "1.1" 18) = Some (1100000000000000128, 1)
  /\ JsDouble.exactValue (Pay.floatAmount "0.07" 15) = Some (8960000000000001, 128).
Proof. vm_compute. repeat split. Qed.

(** ** Zero amounts *)

Lemma parseUnits_zero (d : nat) : Ethers.parseUnits "0" d = Ok 0.
Proof. reflexivity. Qed.

(** C9, on the model of the deposit command written from the spec (its
    source, src/commands/deposit.js, is not among the sources).  For every
    decimals count the normalizer rejects the amount "0" with the
    zero-amount error, and the command rejects it before anything else
    happens: no event at all precedes the error, the provider is not
    created.  More generally the normalizer fails with the zero-amount error
    exactly for the amounts that read as zero base units. *)
Theorem deposit_rejects_zero (d : nat) :
  Deposit.normalize "0" d = Throw Deposit.ZeroAmount
  /\ (forall rest providerFrom,
         Deposit.handler rest providerFrom d "0" = ([], Throw Deposit.ZeroAmount))
  /\ (forall amount,
         Deposit.normalize amount d = Throw Deposit.ZeroAmount
         <-> Ethers.parseUnits amount d = Ok 0).
Proof.
  split; [reflexivity|split; [reflexivity|]].
  intros amount. unfold Deposit.normalize, Deposit.InvalidAmount, Deposit.ZeroAmount.
  destruct (Ethers.parseUnits amount d) as [wei|m].
  - destruct (Z.ltb_spec wei 0) as [Hneg|Hpos].
    + split; intros Heq; [discriminate|injection Heq; lia].
    + destruct (Z.eqb_spec wei 0) as [->|Hwei]; [split; reflexivity|].
      split; intros Heq; [discriminate|injection Heq; lia].
  - split; discriminate.
Qed.

(** ** Progress of skipped steps, and receipts *)

(** Steps that are skipped are shown as skipped on the spinner: steps 3 to 6
    when the allowance suffices, steps 3 and 4 when there is no allowance to
    clear. *)
Lemma skipped_steps_are_shown
    (w : Nii.World) (o : GasOptions) (t : Js.JsNum) (R A : Z) :
  (R <= A ->
   Nii.approveStep w o t R A
   = ([SpinnerSucceed "3/8 - Skipped"; SpinnerSucceed "4/8 - Skipped";
       SpinnerSucceed "5/8 - Skipped"; SpinnerSucceed "6/8 - Skipped"],
      Ok None))
  /\ (A < R -> A <= 0 ->
      exists rest,
        Eff.trace (Nii.approveStep w o t R A)
        = SpinnerSucceed "3/8 - Skipped" :: SpinnerSucceed "4/8 - Skipped"
          :: SpinnerStart ("5/8 - Approving transfer of " ++ Js.string_of_Z R ++ " NII")
          :: ApproveTokenDeposit (Js.JString (Ethers.formatUnits R 15)) "NII" o
          :: rest).
Proof.
  unfold Nii.approveStep, Nii.clearStep. split.
  - intros H. apply Z.ltb_ge in H. now rewrite H.
  - intros Hlt Hpos. apply Z.ltb_lt in Hlt. rewrite Hlt.
    destruct (Z.gtb_spec A 0); [lia|].
    answer_cases; eexists; reflexivity.
Qed.

Lemma skipped_steps_are_shown_witness :
  Nii.approveStep (Sample.world 5000 5000) Sample.options (Js.Num 60) 5000 5000
  = ([SpinnerSucceed "3/8 - Skipped"; SpinnerSucceed "4/8 - Skipped";
      SpinnerSucceed "5/8 - Skipped"; SpinnerSucceed "6/8 - Skipped"],
     Ok None).
Proof.
  refine (proj1 (skipped_steps_are_shown (Sample.world 5000 5000) Sample.options
                   (Js.Num 60) 5000 5000) _).
  lia.
Defined.

(** The receipt of a confirmation keeps its hash and block number, prints
    the gas used in base 10 and links to the transaction; no confirmation
    gives [null]. *)
Lemma reduceReceipt_shape (r : ConfirmationRecord) :
  Nii.reduceReceipt None = None
  /\ Nii.reduceReceipt (Some r)
     = Some {| receiptTransactionHash := transactionHash r;
               receiptBlockNumber := blockNumber r;
               receiptGasUsed := Js.string_of_Z (gasUsed r);
               href := "https://ropsten.etherscan.io/tx/" ++ transactionHash r |}.
Proof. split; reflexivity. Qed.

(** * Properties of the other commands and of the whole fee claim *)

(** ** Laws of runs over any events *)

Section RunLaws.

Context {E A B : Type}.

Lemma run_bind_trace (c : Run.M E A) (k : A -> Run.M E B) :
  Run.trace (Run.bind c k) =
  (Run.trace c ++ match Run.result c with
                  | Ok a => Run.trace (k a)
                  | Throw _ => []
                  end)%list.
Proof.
  destruct c as [t [a|m]]; simpl.
  - now destruct (k a).
  - now rewrite app_nil_r.
Qed.

Lemma run_bind_result (c : Run.M E A) (k : A -> Run.M E B) :
  Run.result (Run.bind c k) =
  match Run.result c with
  | Ok a => Run.result (k a)
  | Throw m => Throw m
  end.
Proof. destruct c as [t [a|m]]; simpl; [now destruct (k a)|reflexivity]. Qed.

Lemma run_tryCatch_trace (c : Run.M E A) (h : string -> Run.M E A) :
  Run.trace (Run.tryCatch c h) =
  (Run.trace c ++ match Run.result c with
                  | Ok _ => []
                  | Throw m => Run.trace (h m)
                  end)%list.
Proof.
  destruct c as [t [a|m]]; simpl.
  - now rewrite app_nil_r.
  - now destruct (h m).
Qed.

Lemma run_tryCatch_result (c : Run.M E A) (h : string -> Run.M E A) :
  Run.result (Run.tryCatch c h) =
  match Run.result c with
  | Ok a => Ok a
  | Throw m => Run.result (h m)
  end.
Proof. destruct c as [t [a|m]]; simpl; [reflexivity|now destruct (h m)]. Qed.

Lemma run_finally_trace (c : Run.M E A) (f : Run.M E unit) :
  Run.trace (Run.finally c f) = (Run.trace c ++ Run.trace f)%list.
Proof. now destruct c, f. Qed.

Lemma run_finally_result (c : Run.M E A) (f : Run.M E unit) :
  Run.result (Run.finally c f) =
  match Run.result f with
  | Ok _ => Run.result c
  | Throw m => Throw m
  end.
Proof. now destruct c, f. Qed.

Lemma count_app (p : E -> bool) (t u : list E) :
  Run.count p (t ++ u) = (Run.count p t + Run.count p u)%nat.
Proof. unfold Run.count. now rewrite filter_app, length_app. Qed.

Lemma run_eta (c : Run.M E A) : c = (Run.trace c, Run.result c).
Proof. now destruct c. Qed.

Variable P : E -> Prop.

Lemma every_ret (a : A) : Run.every P (@Run.ret E A a).
Proof. constructor. Qed.

Lemma every_lift (r : Result A) : Run.every P (@Run.lift E A r).
Proof. constructor. Qed.

Lemma every_throw (m : string) : Run.every P (@Run.throw E A m).
Proof. constructor. Qed.

Lemma every_emit (e : E) : P e -> Run.every P (Run.emit e).
Proof. intros H. repeat constructor. exact H. Qed.

Lemma every_call (e : E) (r : Result A) : P e -> Run.every P (Run.call e r).
Proof. intros H. repeat constructor. exact H. Qed.

Lemma every_bind (c : Run.M E A) (k : A -> Run.M E B) :
  Run.every P c -> (forall a, Run.every P (k a)) -> Run.every P (Run.bind c k).
Proof.
  unfold Run.every. intros Hc Hk. rewrite run_bind_trace. apply Forall_app.
  split; [exact Hc|]. destruct (Run.result c); [apply Hk|constructor].
Qed.

Lemma every_tryCatch (c : Run.M E A) (h : string -> Run.M E A) :
  Run.every P c -> (forall m, Run.every P (h m)) -> Run.every P (Run.tryCatch c h).
Proof.
  unfold Run.every. intros Hc Hh. rewrite run_tryCatch_trace. apply Forall_app.
  split; [exact Hc|]. destruct (Run.result c); [constructor|apply Hh].
Qed.

Lemma every_finally (c : Run.M E A) (f : Run.M E unit) :
  Run.every P c -> Run.every P f -> Run.every P (Run.finally c f).
Proof.
  unfold Run.every. intros Hc Hf. rewrite run_finally_trace. apply Forall_app. now split.
Qed.

End RunLaws.

Lemma run_bind_lift {E A B : Type} (a : A) (k : A -> Run.M E B) :
  Run.bind (Run.lift (Ok a)) k = k a.
Proof. unfold Run.bind, Run.lift. now destruct (k a). Qed.

Lemma every_when {E : Type} (P : E -> Prop) (b : bool) (c : Run.M E unit) :
  Run.every P c -> Run.every P (Run.when b c).
Proof. intros H. destruct b; [exact H|constructor]. Qed.

Create HintDb runs.

#[local] Hint Resolve every_ret every_lift every_throw every_emit every_call every_bind
  every_tryCatch every_finally every_when : runs.

(** ** Pending payments *)

Section PaymentsShown.

Variable strip0x : option string -> Result string.
Variable w : Payments.World.

(** The filter keeps a sub-list of the payments, in their order. *)
Lemma filter_kept (keep : Payments.Payment -> Result bool) (ps kept : list Payments.Payment) :
  Payments.filter keep ps = Ok kept ->
  exists f, kept = List.filter f ps /\ forall p, In p ps -> keep p = Ok (f p).
Proof.
  revert kept. induction ps as [|p ps IH]; intros kept H; simpl in H.
  - injection H as <-. exists (fun _ => true). split; [reflexivity|intros p []].
  - destruct (keep p) as [b|m] eqn:Hp; [|discriminate].
    destruct (Payments.filter keep ps) as [others|m] eqn:Hps; [|discriminate].
    injection H as <-.
    destruct (IH others eq_refl) as (f & -> & Hf).
    remember (fun q => match keep q with Ok c => c | Throw _ => false end) as g.
    assert (Hg : forall q, In q (p :: ps) -> keep q = Ok (g q)).
    { intros q [<-|Hq]; subst g; [now rewrite Hp|now rewrite (Hf q Hq)]. }
    exists g. split; [|exact Hg].
    assert (Hsame : List.filter f ps = List.filter g ps).
    { apply filter_ext_in. intros q Hq.
      pose proof (Hf q Hq) as H1. pose proof (Hg q (or_intror Hq)) as H2. congruence. }
    simpl. rewrite Hsame.
    replace (g p) with b by (pose proof (Hg p (or_introl eq_refl)); congruence).
    reflexivity.
Qed.

(** The filter fails as soon as the callback fails on one payment. *)
Lemma filter_throws (keep : Payments.Payment -> Result bool) (ps : list Payments.Payment)
    (p : Payments.Payment) :
  In p ps -> isOk (keep p) = false -> isOk (Payments.filter keep ps) = false.
Proof.
  induction ps as [|q ps IH]; intros Hin Hp; [destruct Hin|].
  simpl. destruct Hin as [->|Hin].
  - destruct (keep p); [discriminate|reflexivity].
  - destruct (keep q); [|reflexivity].
    specialize (IH Hin Hp). destruct (Payments.filter keep ps); [discriminate|reflexivity].
Qed.

Lemma handler_unfolded :
  Payments.handler strip0x w =
  match Payments.providerFrom w with
  | Throw m => ([Payments.ProviderFrom], Throw m)
  | Ok _ =>
      match Payments.pendingPayments w with
      | Throw m =>
          ([Payments.ProviderFrom; Payments.GetPendingPayments; Payments.DebugLog m;
            Payments.StopUpdate],
           Throw "Unable to show pending payments.")
      | Ok answer =>
          match Payments.mine strip0x w answer with
          | Throw m =>
              ([Payments.ProviderFrom; Payments.GetPendingPayments; Payments.DebugLog m;
                Payments.StopUpdate],
               Throw "Unable to show pending payments.")
          | Ok shown =>
              ([Payments.ProviderFrom; Payments.GetPendingPayments;
                Payments.ConsoleLog shown; Payments.StopUpdate],
               Ok tt)
          end
      end
  end.
Proof.
  unfold Payments.handler.
  destruct (Payments.providerFrom w); [|reflexivity].
  destruct (Payments.pendingPayments w) as [answer|m]; [|reflexivity].
  cbn. destruct (Payments.mine strip0x w answer); reflexivity.
Qed.

End PaymentsShown.

(** For an SDK whose [strip0x] maps every string to a string: when the API
    answers an array of payments that all name a sender and a recipient, the
    command prints, once, the payments of that array whose sender or
    recipient is the configured wallet up to [strip0x] and letter case, in
    the order of the array, stops the provider and succeeds. *)
Theorem payments_shown
    (strip0x : option string -> Result string) (strip : string -> string)
    (w : Payments.World) (ps : list Payments.Payment) :
  (forall a, strip0x (Some a) = Ok (strip a)) ->
  Payments.providerFrom w = Ok tt ->
  Payments.pendingPayments w = Ok (Payments.Array ps) ->
  (forall p, In p ps ->
     exists s r, Payments.address (Payments.sender p) = Some s
                 /\ Payments.address (Payments.recipient p) = Some r) ->
  exists keep,
    Payments.handler strip0x w
    = ([Payments.ProviderFrom; Payments.GetPendingPayments;
        Payments.ConsoleLog (List.filter keep ps); Payments.StopUpdate],
       Ok tt)
    /\ forall p, In p ps ->
         (keep p = true <->
          exists a,
            (Payments.address (Payments.sender p) = Some a
             \/ Payments.address (Payments.recipient p) = Some a)
            /\ toLowerCase (strip a) = toLowerCase (strip (Payments.walletAddress w))).
Proof.
  intros Hstrip Hprov Hpending Hparties.
  set (same := fun a => String.eqb (toLowerCase (strip a))
                          (toLowerCase (strip (Payments.walletAddress w)))).
  assert (Hkeep : forall p, In p ps ->
            exists s r, Payments.address (Payments.sender p) = Some s
                        /\ Payments.address (Payments.recipient p) = Some r
                        /\ Payments.isMyPayment strip0x w p = Ok (same s || same r)).
  { intros p Hp. destruct (Hparties p Hp) as (s & r & Hs & Hr).
    exists s, r. split; [exact Hs|split; [exact Hr|]].
    unfold Payments.isMyPayment, Payments.isSameAddress, Payments.walletOf.
    destruct (Payments.sender p) as [[ws]|]; [|discriminate]. simpl in Hs. subst ws.
    destruct (Payments.recipient p) as [[wr]|]; [|discriminate]. simpl in Hr. subst wr.
    cbn [Payments.wallet]. rewrite !Hstrip. fold (same s). fold (same r).
    destruct (same s); reflexivity. }
  assert (Hall : forall p, In p ps -> isOk (Payments.isMyPayment strip0x w p) = true).
  { intros p Hp. destruct (Hkeep p Hp) as (s & r & _ & _ & ->). reflexivity. }
  assert (Hok : exists kept, Payments.filter (Payments.isMyPayment strip0x w) ps = Ok kept).
  { clear Hkeep Hparties Hpending. induction ps as [|p l IH]; [now exists []|].
    simpl. pose proof (Hall p (or_introl eq_refl)) as Hp.
    destruct (Payments.isMyPayment strip0x w p) as [b|]; [|discriminate].
    destruct IH as [kept ->]; [intros q Hq; apply Hall; now right|].
    eexists. reflexivity. }
  destruct Hok as [kept Hkept].
  destruct (filter_kept _ _ _ Hkept) as (f & -> & Hf).
  exists f. split.
  - rewrite handler_unfolded, Hprov, Hpending. cbn [Payments.mine]. now rewrite Hkept.
  - intros p Hp. destruct (Hkeep p Hp) as (s & r & Hs & Hr & Hmine).
    rewrite (Hf p Hp) in Hmine. injection Hmine as ->.
    rewrite orb_true_iff. unfold same. rewrite !String.eqb_eq. split.
    + intros [H|H]; [exists s|exists r]; (split; [|exact H]); [now left|now right].
    + intros (a & [Ha|Ha] & H); [left|right]; congruence.
Qed.

(** Whatever the SDK's [strip0x] does and whatever the API answers: without
    a provider the command fails with the provider's error and nothing else
    happens; with a provider, [stopUpdate] runs exactly once, as the last
    call; the command either prints one list and succeeds, or prints nothing
    and fails with 'Unable to show pending payments.', whatever the cause
    was; and a printed list holds only payments of the answered array (it is
    empty when the answer is no array). *)
Theorem payments_outcome
    (strip0x : option string -> Result string) (w : Payments.World) :
  let run := Payments.handler strip0x w in
  match Payments.providerFrom w with
  | Throw m => run = ([Payments.ProviderFrom], Throw m)
  | Ok _ =>
      Run.count Payments.isStopUpdate (Run.trace run) = 1%nat
      /\ List.last (Run.trace run) Payments.ProviderFrom = Payments.StopUpdate
      /\ (Run.result run = Ok tt
          /\ Run.count Payments.isConsoleLog (Run.trace run) = 1%nat
          \/ Run.result run = Throw "Unable to show pending payments."
             /\ Run.count Payments.isConsoleLog (Run.trace run) = 0%nat)
      /\ forall shown, In (Payments.ConsoleLog shown) (Run.trace run) ->
           match Payments.pendingPayments w with
           | Ok (Payments.Array ps) => incl shown ps
           | _ => shown = []
           end
  end.
Proof.
  cbv zeta. rewrite handler_unfolded.
  destruct (Payments.providerFrom w); [|reflexivity].
  destruct (Payments.pendingPayments w) as [answer|m].
  - destruct (Payments.mine strip0x w answer) as [shown|m] eqn:Hmine.
    + split; [reflexivity|split; [reflexivity|split; [left; split; reflexivity|]]].
      intros l Hin. cbn in Hin.
      destruct Hin as [H|[H|[H|[H|[]]]]]; try discriminate. injection H as <-.
      destruct answer as [|[]|ps]; cbn in Hmine; try discriminate.
      * now injection Hmine as <-.
      * destruct (filter_kept _ _ _ Hmine) as (f & -> & _).
        intros p Hp. apply filter_In in Hp. tauto.
    + split; [reflexivity|split; [reflexivity|split; [right; split; reflexivity|]]].
      intros l Hin. cbn in Hin.
      destruct Hin as [H|[H|[H|[H|[]]]]]; discriminate.
  - split; [reflexivity|split; [reflexivity|split; [right; split; reflexivity|]]].
    intros l Hin. cbn in Hin.
    destruct Hin as [H|[H|[H|[H|[]]]]]; discriminate.
Qed.

(** One payment without a sender in the answered array is enough for the
    command to print nothing and fail, whatever the other payments are. *)
Theorem payments_malformed_entry
    (strip0x : option string -> Result string) (w : Payments.World)
    (ps : list Payments.Payment) (p : Payments.Payment) :
  Payments.providerFrom w = Ok tt ->
  Payments.pendingPayments w = Ok (Payments.Array ps) ->
  In p ps -> Payments.sender p = None ->
  let run := Payments.handler strip0x w in
  Run.result run = Throw "Unable to show pending payments."
  /\ Run.count Payments.isConsoleLog (Run.trace run) = 0%nat
  /\ Run.count Payments.isStopUpdate (Run.trace run) = 1%nat.
Proof.
  intros Hprov Hpending Hin Hsender. cbv zeta.
  rewrite handler_unfolded, Hprov, Hpending. cbn [Payments.mine].
  assert (Hp : isOk (Payments.isMyPayment strip0x w p) = false).
  { unfold Payments.isMyPayment. now rewrite Hsender. }
  pose proof (filter_throws _ ps p Hin Hp) as Hthrows.
  destruct (Payments.filter (Payments.isMyPayment strip0x w) ps); [discriminate|].
  repeat split.
Qed.

Lemma payments_malformed_entry_witness :
  let run := Payments.handler PaymentsSample.strip0x
               (PaymentsSample.world
                  (Ok (Payments.Array (PaymentsSample.testPayments
                                        ++ [PaymentsSample.anonymous])))) in
  Run.result run = Throw "Unable to show pending payments."
  /\ Run.count Payments.isConsoleLog (Run.trace run) = 0%nat
  /\ Run.count Payments.isStopUpdate (Run.trace run) = 1%nat.
Proof.
  refine (payments_malformed_entry PaymentsSample.strip0x
            (PaymentsSample.world
               (Ok (Payments.Array (PaymentsSample.testPayments
                                     ++ [PaymentsSample.anonymous]))))
            (PaymentsSample.testPayments ++ [PaymentsSample.anonymous])
            PaymentsSample.anonymous eq_refl eq_refl _ eq_refl).
  apply in_or_app. right. now left.
Defined.

Lemma payments_shown_witness :
  exists keep,
    Payments.handler PaymentsSample.strip0x
      (PaymentsSample.world (Ok (Payments.Array PaymentsSample.testPayments)))
    = ([Payments.ProviderFrom; Payments.GetPendingPayments;
        Payments.ConsoleLog (List.filter keep PaymentsSample.testPayments);
        Payments.StopUpdate],
       Ok tt)
    /\ forall p, In p PaymentsSample.testPayments ->
         (keep p = true <->
          exists a,
            (Payments.address (Payments.sender p) = Some a
             \/ Payments.address (Payments.recipient p) = Some a)
            /\ toLowerCase (PaymentsSample.strip a)
               = toLowerCase (PaymentsSample.strip PaymentsSample.wallet1)).
Proof.
  refine (payments_shown PaymentsSample.strip0x PaymentsSample.strip
            (PaymentsSample.world (Ok (Payments.Array PaymentsSample.testPayments)))
            PaymentsSample.testPayments _ eq_refl eq_refl _).
  - reflexivity.
  - intros p Hp. simpl in Hp.
    destruct Hp as [<-|[<-|[<-|[<-|[<-|[]]]]]]; eexists _, _; split; reflexivity.
Defined.

(** ** The balance *)

(** The command succeeds exactly when the key and the balance are obtained,
    and then prints the balance once.  Otherwise it prints no balance and
    fails with 'Unable to retrieve the balance.': the cause is not part of
    the error and is written to the console only at debug level.  When the
    key cannot be read, the balance is not asked for. *)
Theorem balance_outcome (w : Balance.World) :
  let run := Balance.handler w in
  let fine := isOk (Balance.privateKey w) && isOk (Balance.nahmiiBalance w) in
  Run.result run = (if fine then Ok tt else Throw "Unable to retrieve the balance.")
  /\ Run.count Balance.isConsoleLog (Run.trace run) = (if fine then 1 else 0)%nat
  /\ Run.count Balance.isConsoleError (Run.trace run)
     = (if negb fine && Balance.logLevelDebug w then 1 else 0)%nat
  /\ (In Balance.GetNahmiiBalance (Run.trace run)
      <-> isOk (Balance.privateKey w) = true).
Proof.
  unfold Balance.handler.
  destruct (Balance.privateKey w), (Balance.nahmiiBalance w), (Balance.logLevelDebug w);
    cbn; repeat split; intros; try discriminate; try tauto;
    repeat match goal with H : _ \/ _ |- _ => destruct H end;
    try discriminate; try contradiction.
Qed.

(** ** The fee claim *)

Lemma count_none {E A : Type} (p : E -> bool) (c : Run.M E A) :
  Run.every (fun e => p e = false) c -> Run.count p (Run.trace c) = O.
Proof.
  unfold Run.every, Run.count. induction 1 as [|e t He _ IH]; [reflexivity|].
  simpl. now rewrite He.
Qed.

#[local] Hint Extern 2 (Run.every _ (let '(_, _) := ?a in _)) => destruct a : runs.
#[local] Hint Extern 2 (Run.every _ (if ?b then _ else _)) => destruct b : runs.
#[local] Hint Extern 1 (FeesClaim.isStopUpdate _ = false) => reflexivity : runs.
#[local] Hint Extern 1 (FeesClaim.isClaimantCall _ = false) => reflexivity : runs.
#[local] Hint Extern 1 (FeesClaim.usesArguments _ _ _ _) => cbn; intuition : runs.
#[local] Hint Extern 1 (_ <> FeesClaim.SpinnerFail) => discriminate : runs.

Section FeesBlocks.

Variable w : FeesClaim.World.
Variable argvCurrency : string.
Variable range : option Fees.Range.
Variable options : GasOptions.
Variable timeout : Js.JsNum.

Lemma fees_tryBody_every (P : FeesClaim.Event -> Prop) :
  (forall e, FeesClaim.isStopUpdate e = false -> e <> FeesClaim.SpinnerFail -> P e) ->
  Run.every P (FeesClaim.tryBody w argvCurrency range options timeout).
Proof.
  intros HP.
  assert (Hemit : forall e, FeesClaim.isStopUpdate e = false -> e <> FeesClaim.SpinnerFail ->
                    Run.every P (Run.emit e)) by (intros; apply every_emit; auto).
  assert (Hcall : forall (A : Type) e (r : Result A),
                    FeesClaim.isStopUpdate e = false -> e <> FeesClaim.SpinnerFail ->
                    Run.every P (Run.call e r)) by (intros; apply every_call; auto).
  unfold FeesClaim.tryBody, FeesClaim.claimStep, FeesClaim.withdrawStep.
  auto 40 with runs.
Qed.

Lemma fees_guarded_trace :
  Run.trace (FeesClaim.guarded w argvCurrency range options timeout) =
  (Run.trace (FeesClaim.tryBody w argvCurrency range options timeout)
   ++ match Run.result (FeesClaim.tryBody w argvCurrency range options timeout) with
      | Ok _ => []
      | Throw m => [FeesClaim.DebugLog m; FeesClaim.SpinnerFail]
      end
   ++ [FeesClaim.StopUpdate])%list.
Proof.
  unfold FeesClaim.guarded. rewrite run_finally_trace, run_tryCatch_trace, <- app_assoc.
  now destruct (Run.result (FeesClaim.tryBody w argvCurrency range options timeout)).
Qed.

Lemma fees_guarded_result :
  Run.result (FeesClaim.guarded w argvCurrency range options timeout) =
  match Run.result (FeesClaim.tryBody w argvCurrency range options timeout) with
  | Ok _ => Ok tt
  | Throw m => Throw ("Claiming of fees failed: " ++ m)
  end.
Proof.
  unfold FeesClaim.guarded. rewrite run_finally_result, run_tryCatch_result.
  cbn [Run.emit Run.result snd].
  now destruct (Run.result (FeesClaim.tryBody w argvCurrency range options timeout)) as [[]|].
Qed.

Lemma fees_guarded_cleanup :
  Run.count FeesClaim.isStopUpdate
    (Run.trace (FeesClaim.guarded w argvCurrency range options timeout)) = 1%nat.
Proof.
  rewrite fees_guarded_trace, !count_app.
  rewrite (count_none FeesClaim.isStopUpdate)
    by (apply fees_tryBody_every; intros e He _; exact He).
  now destruct (Run.result (FeesClaim.tryBody w argvCurrency range options timeout)).
Qed.

End FeesBlocks.

(** [provider.stopUpdate()] runs exactly once in every run that reaches the
    [try], whatever fails inside it, and never otherwise: a rejected range
    or gas option ends the run before anything is called, and a failure to
    obtain the provider, the key or the network ends it without cleanup. *)
Theorem fees_cleanup_count (w : FeesClaim.World) (argv : Fees.Argv) (argvCurrency : string) :
  Run.count FeesClaim.isStopUpdate (Run.trace (FeesClaim.handler w argv argvCurrency))
  = (if FeesClaim.started w argv then 1 else 0)%nat
  /\ (isOk (Fees.range argv) && isOk (Fees.resolve argv) = false ->
      Run.trace (FeesClaim.handler w argv argvCurrency) = []).
Proof.
  unfold FeesClaim.handler, FeesClaim.started.
  destruct (Fees.range argv) as [range|]; [|split; reflexivity].
  destruct (Fees.resolve argv) as [[options timeout]|]; [|split; reflexivity].
  split; [|discriminate].
  cbn [Run.lift Run.bind app isOk andb].
  destruct (FeesClaim.providerFrom w); [|reflexivity].
  destruct (FeesClaim.privateKey w); [|reflexivity].
  destruct (FeesClaim.network w); [|reflexivity].
  cbn [Run.call Run.bind app isOk andb].
  pose proof (fees_guarded_cleanup w argvCurrency range options timeout) as H.
  destruct (FeesClaim.guarded w argvCurrency range options timeout) as [t r].
  exact H.
Qed.

(** Without [--accruals] and without [--blocks] (both are optional on the
    command line) the claim connects, reads the key and the network, and
    then fails on the missing range with the message of a TypeError; no fee
    is read or claimed, and the provider is stopped. *)
Theorem fees_without_range
    (w : FeesClaim.World) (argv : Fees.Argv) (argvCurrency : string)
    (options : GasOptions) (timeout : Js.JsNum) :
  Js.truthy (Fees.blocks argv) = false ->
  Js.truthy (Fees.accruals argv) = false ->
  Fees.resolve argv = Ok (options, timeout) ->
  FeesClaim.providerFrom w = Ok tt ->
  FeesClaim.privateKey w = Ok tt ->
  FeesClaim.network w = Ok tt ->
  FeesClaim.handler w argv argvCurrency
  = ([FeesClaim.ProviderFrom; FeesClaim.PrivateKey; FeesClaim.GetNetwork;
      FeesClaim.DebugLog (cannotRead "type"); FeesClaim.SpinnerFail; FeesClaim.StopUpdate],
     Throw ("Claiming of fees failed: " ++ cannotRead "type")).
Proof.
  intros Hb Ha Hr Hp Hk Hn. unfold FeesClaim.handler, Fees.range.
  rewrite Hb, Ha, Hr, Hp, Hk, Hn. reflexivity.
Qed.

Lemma fees_without_range_witness :
  FeesClaim.handler (FeesClaimSample.world "1.5" "0" "1.5") FeesClaimSample.noRange "NII"
  = ([FeesClaim.ProviderFrom; FeesClaim.PrivateKey; FeesClaim.GetNetwork;
      FeesClaim.DebugLog (cannotRead "type"); FeesClaim.SpinnerFail; FeesClaim.StopUpdate],
     Throw ("Claiming of fees failed: " ++ cannotRead "type")).
Proof.
  exact (fees_without_range (FeesClaimSample.world "1.5" "0" "1.5") FeesClaimSample.noRange
           "NII" FeesClaimSample.options (Js.Num 60)
           eq_refl eq_refl eq_refl eq_refl eq_refl eq_refl).
Defined.

(** Every read and every claim of fees is made for the range of the command
    line, every transaction is submitted with the gas options resolved at
    the start, and every wait for a confirmation uses the resolved timeout. *)
Theorem fees_one_range_and_policy
    (w : FeesClaim.World) (argvCurrency : string) (r : Fees.Range)
    (options : GasOptions) (timeout : Js.JsNum) :
  Run.every (FeesClaim.usesArguments r options timeout)
    (FeesClaim.guarded w argvCurrency (Some r) options timeout).
Proof.
  unfold FeesClaim.guarded, FeesClaim.tryBody, FeesClaim.claimStep, FeesClaim.withdrawStep,
    FeesClaim.catchBlock, FeesClaim.rangeInUse.
  rewrite run_bind_lift.
  auto 40 with runs.
Qed.

(** A run of the guarded part either succeeds without ever failing the
    spinner, or fails the spinner once and rejects with 'Claiming of fees
    failed: ' followed by the message of the cause; the cause is logged, the
    spinner failed and the provider stopped, in this order, at the end. *)
Theorem fees_failure_is_wrapped
    (w : FeesClaim.World) (argvCurrency : string) (range : option Fees.Range)
    (options : GasOptions) (timeout : Js.JsNum) :
  let run := FeesClaim.guarded w argvCurrency range options timeout in
  (Run.result run = Ok tt /\ ~ In FeesClaim.SpinnerFail (Run.trace run))
  \/ exists cause before,
       Run.result run = Throw ("Claiming of fees failed: " ++ cause)
       /\ Run.trace run
          = (before ++ [FeesClaim.DebugLog cause; FeesClaim.SpinnerFail;
                        FeesClaim.StopUpdate])%list
       /\ ~ In FeesClaim.SpinnerFail before.
Proof.
  cbv zeta. rewrite fees_guarded_trace, fees_guarded_result.
  pose proof (fees_tryBody_every w argvCurrency range options timeout
                (fun e => e <> FeesClaim.SpinnerFail) (fun e _ H => H)) as Hbody.
  unfold Run.every in Hbody. rewrite Forall_forall in Hbody.
  destruct (Run.result (FeesClaim.tryBody w argvCurrency range options timeout)) as [[]|m].
  - left. split; [reflexivity|]. intros Hin. apply in_app_or in Hin.
    destruct Hin as [Hin|[H|[]]]; [exact (Hbody _ Hin eq_refl)|discriminate].
  - right. exists m, (Run.trace (FeesClaim.tryBody w argvCurrency range options timeout)).
    split; [reflexivity|split; [reflexivity|]].
    intros Hin. exact (Hbody _ Hin eq_refl).
Qed.

Section FeesSteps.

Variable w : FeesClaim.World.
Variable options : GasOptions.
Variable timeout : Js.JsNum.
Variable info : FeesClaim.TokenInfo.

Lemma claimStep_outcome (r : Fees.Range) (claimableAmount : string) :
  let step := FeesClaim.claimStep w options timeout r info claimableAmount in
  Run.count FeesClaim.isClaim (Run.trace step)
  = (if FeesClaim.isPositive claimableAmount then 1 else 0)%nat
  /\ Run.count FeesClaim.isWithdrawal (Run.trace step) = O
  /\ isOk (Run.result step) = claimSettled w claimableAmount.
Proof.
  unfold FeesClaim.claimStep, claimSettled.
  destruct (FeesClaim.isPositive claimableAmount); [|repeat split].
  destruct (FeesClaim.claimTx w); [|repeat split].
  destruct (FeesClaim.claimConfirmation w); repeat split.
Qed.

Lemma withdrawStep_outcome :
  let step := FeesClaim.withdrawStep w options timeout info in
  Run.count FeesClaim.isClaim (Run.trace step) = O
  /\ Run.count FeesClaim.isWithdrawal (Run.trace step)
     = (if withdrawalDue w then 1 else 0)%nat
  /\ isOk (Run.result step) = withdrawalSettled w.
Proof.
  unfold FeesClaim.withdrawStep, withdrawalDue, withdrawalSettled.
  destruct (FeesClaim.withdrawable w) as [amount|]; [|repeat split].
  cbn [Run.bind Run.call Run.emit app].
  destruct (FeesClaim.isPositive amount); [|repeat split].
  destruct (FeesClaim.monetaryAmount w); [|repeat split].
  destruct (FeesClaim.withdrawTx w); [|repeat split].
  destruct (FeesClaim.withdrawConfirmation w); repeat split.
Qed.

End FeesSteps.

(** Once the token and the two amounts are read: a claim is submitted
    exactly when the claimable amount is above zero; a withdrawal is
    submitted exactly when, in addition, that claim was confirmed (or not
    needed), the withdrawable amount read afterwards is above zero and is
    accepted as a monetary amount; and the run succeeds exactly when claim
    and withdrawal were confirmed or not needed. *)
Theorem fees_submissions
    (w : FeesClaim.World) (argvCurrency : string) (r : Fees.Range)
    (options : GasOptions) (timeout : Js.JsNum)
    (info : FeesClaim.TokenInfo) (claimableAmount stagedAmount : string) :
  FeesClaim.tokenInfo w = Ok info ->
  FeesClaim.currencyFrom w = Ok tt ->
  FeesClaim.claimable w = Ok claimableAmount ->
  FeesClaim.staged w = Ok stagedAmount ->
  let run := FeesClaim.guarded w argvCurrency (Some r) options timeout in
  Run.count FeesClaim.isClaim (Run.trace run)
  = (if FeesClaim.isPositive claimableAmount then 1 else 0)%nat
  /\ Run.count FeesClaim.isWithdrawal (Run.trace run)
     = (if claimSettled w claimableAmount && withdrawalDue w then 1 else 0)%nat
  /\ (Run.result run = Ok tt
      <-> claimSettled w claimableAmount && withdrawalSettled w = true).
Proof.
  intros Hinfo Hcur Hc Hs. cbv zeta.
  destruct (claimStep_outcome w options timeout info r claimableAmount)
    as (Hcc & Hcw & Hcr).
  destruct (withdrawStep_outcome w options timeout info) as (Hwc & Hww & Hwr).
  cbv zeta in Hcc, Hcw, Hcr, Hwc, Hww, Hwr.
  remember (FeesClaim.claimStep w options timeout r info claimableAmount) as claim
    eqn:Hclaim.
  remember (FeesClaim.withdrawStep w options timeout info) as withdraw eqn:Hwithdraw.
  assert (Hbody :
    exists before,
      Run.count FeesClaim.isClaim before = O
      /\ Run.count FeesClaim.isWithdrawal before = O
      /\ Run.trace (FeesClaim.tryBody w argvCurrency (Some r) options timeout)
         = (before ++ Run.trace claim
            ++ match Run.result claim with
               | Ok _ => Run.trace withdraw
               | Throw _ => []
               end)%list
      /\ isOk (Run.result (FeesClaim.tryBody w argvCurrency (Some r) options timeout))
         = isOk (Run.result claim) && isOk (Run.result withdraw)).
  { unfold FeesClaim.tryBody, FeesClaim.rangeInUse, FeesClaim.all.
    rewrite Hinfo, Hcur, Hc, Hs, run_bind_lift.
    exists ([FeesClaim.GetTokenInfo argvCurrency;
             FeesClaim.CurrencyFrom (FeesClaim.currency info);
             FeesClaim.SpinnerStart "Obtaining claimable amount";
             FeesClaim.ClaimableFees (Fees.type r) (Fees.first r) (Fees.last r);
             FeesClaim.WithdrawableFees;
             FeesClaim.SpinnerSucceed ("Claimable amount of " ++ FeesClaim.symbol info
                                       ++ " is " ++ claimableAmount)]
            ++ Run.trace (Run.when (FeesClaim.isPositive stagedAmount)
                 (Run.emit (FeesClaim.SpinnerSucceed
                    ("Previously claimed (and not withdrawn) amount of "
                     ++ FeesClaim.symbol info ++ " is " ++ stagedAmount)))))%list.
    split; [now destruct (FeesClaim.isPositive stagedAmount)|].
    split; [now destruct (FeesClaim.isPositive stagedAmount)|].
    split.
    - repeat (rewrite run_bind_trace;
              cbn [Run.call Run.emit Run.lift Run.trace Run.result fst snd app]).
      rewrite <- Hclaim, <- Hwithdraw.
      destruct (FeesClaim.isPositive stagedAmount); reflexivity.
    - repeat (rewrite run_bind_result;
              cbn [Run.call Run.emit Run.lift Run.trace Run.result fst snd]).
      rewrite <- Hclaim, <- Hwithdraw.
      destruct (FeesClaim.isPositive stagedAmount);
        cbn [Run.when Run.emit Run.ret Run.result snd];
        destruct (Run.result claim) as [[]|]; reflexivity. }
  destruct Hbody as (before & Hbc & Hbw & Htrace & Hresult).
  rewrite fees_guarded_trace, fees_guarded_result, Htrace, !count_app, Hbc, Hbw, Hcc, Hcw.
  rewrite <- Hcr, <- Hwr.
  assert (Hcatch : forall p,
            (p = FeesClaim.isClaim \/ p = FeesClaim.isWithdrawal) ->
            Run.count p
              (match Run.result (FeesClaim.tryBody w argvCurrency (Some r) options timeout)
               with
               | Ok _ => []
               | Throw m => [FeesClaim.DebugLog m; FeesClaim.SpinnerFail]
               end ++ [FeesClaim.StopUpdate]) = O).
  { intros p [->| ->];
      now destruct (Run.result (FeesClaim.tryBody w argvCurrency (Some r) options timeout)). }
  rewrite <- !count_app, !Hcatch by auto.
  rewrite Nat.add_0_r.
  split; [|split].
  - destruct (Run.result claim); rewrite ?Hwc; cbn;
      now destruct (FeesClaim.isPositive claimableAmount).
  - destruct (Run.result claim); cbn [isOk andb]; rewrite ?Hww; cbn;
      now destruct (withdrawalDue w).
  - rewrite <- Hresult.
    destruct (Run.result (FeesClaim.tryBody w argvCurrency (Some r) options timeout))
      as [[]|m]; cbn [isOk]; split; intros; try reflexivity; discriminate.
Qed.

Lemma fees_submissions_witness :
  let run := FeesClaim.guarded (FeesClaimSample.world "1.5" "0" "2.25") "NII"
               (Some FeesClaimSample.range) FeesClaimSample.options (Js.Num 60) in
  Run.count FeesClaim.isClaim (Run.trace run) = 1%nat
  /\ Run.count FeesClaim.isWithdrawal (Run.trace run) = 1%nat
  /\ Run.result run = Ok tt.
Proof.
  destruct (fees_submissions (FeesClaimSample.world "1.5" "0" "2.25") "NII"
              FeesClaimSample.range FeesClaimSample.options (Js.Num 60)
              FeesClaimSample.nii "1.5" "0" eq_refl eq_refl eq_refl eq_refl)
    as (Hclaim & Hwithdraw & Hresult).
  split; [exact Hclaim|split; [exact Hwithdraw|]].
  apply Hresult. reflexivity.
Defined.

(** ** Payments: currency, outcome *)

Lemma upperChar_idempotent (c : ascii) : Js.upperChar (Js.upperChar c) = Js.upperChar c.
Proof. destruct c as [[] [] [] [] [] [] [] []]; reflexivity. Qed.

Lemma toUpperCase_idempotent (s : string) :
  Js.toUpperCase (Js.toUpperCase s) = Js.toUpperCase s.
Proof. induction s as [|c s IH]; simpl; [reflexivity|]. now rewrite upperChar_idempotent, IH. Qed.

Lemma find_sameSymbol_upper (c : string) (tokens : list Pay.Token) :
  find (Pay.sameSymbol (Js.toUpperCase c)) tokens = find (Pay.sameSymbol c) tokens.
Proof.
  induction tokens as [|t l IH]; [reflexivity|]. simpl.
  unfold Pay.sameSymbol at 1 3. now rewrite toUpperCase_idempotent, IH.
Qed.

(** The currency of a payment is read without regard to letter case: the
    command does the same for a symbol and for the symbol in upper case, in
    the handler that parses the amount as a decimal string and in the one
    that computes it with Numbers. *)
Theorem pay_currency_ignores_case (w : Pay.World) (argv : Pay.Argv) :
  Pay.handler w (withCurrency argv (Js.toUpperCase (Pay.argvCurrency argv)))
  = Pay.handler w argv
  /\ Pay.floatHandler w (withCurrency argv (Js.toUpperCase (Pay.argvCurrency argv)))
     = Pay.floatHandler w argv.
Proof.
  unfold Pay.handler, Pay.floatHandler, Pay.getCurrencyBySymbol, Pay.submit, withCurrency.
  cbn [Pay.amount Pay.argvCurrency Pay.recipient].
  rewrite toUpperCase_idempotent.
  destruct (Pay.supportedTokens w) as [tokens|]; [|split; reflexivity].
  cbn [Eff.call Eff.bind Eff.emit Eff.ret app].
  now rewrite find_sameSymbol_upper.
Qed.

(** Whatever the arguments and the answers: the command either succeeds,
    and then it ended by creating one payment, reading the key, signing,
    registering and printing the response, in this order; or it fails with
    'Payment failed: ' followed by the message of the cause, without
    printing a response, and the cause is written to the console exactly at
    debug level.  At most one payment is created in a run. *)
Theorem pay_outcome (w : Pay.World) (argv : Pay.Argv) :
  let run := Pay.handler w argv in
  (List.length (paymentAmounts (Eff.trace run)) <= 1)%nat
  /\ ((exists before amount currency sender recipient response,
         Eff.result run = Ok tt
         /\ Eff.trace run
            = (before ++ [NewPayment amount currency sender recipient; PrivateKey;
                          PaymentSign; PaymentRegister; ConsoleDebug response])%list)
      \/ (exists cause,
            Eff.result run = Throw ("Payment failed: " ++ cause)
            /\ List.filter isConsoleDebug (Eff.trace run) = []
            /\ List.filter isConsoleError (Eff.trace run)
               = if Pay.logLevelDebug w then [ConsoleError cause] else [])).
Proof.
  unfold Pay.handler, Pay.getCurrencyBySymbol, Pay.submit, Pay.catchBlock.
  destruct (String.eqb (Js.toUpperCase (Pay.argvCurrency argv)) "ETH").
  - cbn [Eff.ret Eff.bind Eff.emit Eff.lift Pay.defined app Pay.decimals].
    destruct (Pay.normalize (Pay.amount argv) 18) as [amount|m];
      destruct (Pay.logLevelDebug w), (Pay.privateKey w) as [[]|m1];
      try destruct (Pay.register w) as [response|m2];
      cbn; (split; [lia|]);
      first [ right; eexists; repeat split; reflexivity
            | left; exists [NewStriimProvider]; repeat eexists ].
  - destruct (Pay.supportedTokens w) as [tokens|m0].
    + cbn [Eff.call Eff.bind Eff.ret Eff.emit app].
      destruct (find (Pay.sameSymbol (Pay.argvCurrency argv)) tokens) as [token|].
      * cbn [Eff.lift Pay.defined Eff.bind app].
        destruct (Pay.normalize (Pay.amount argv) (Pay.decimals token)) as [amount|m];
          destruct (Pay.logLevelDebug w), (Pay.privateKey w) as [[]|m1];
          try destruct (Pay.register w) as [response|m2];
          cbn; (split; [lia|]);
          first [ right; eexists; repeat split; reflexivity
                | left; exists [NewStriimProvider; GetSupportedTokens]; repeat eexists ].
      * destruct (Pay.logLevelDebug w); cbn; (split; [lia|]);
          right; eexists; repeat split; reflexivity.
    + destruct (Pay.logLevelDebug w); cbn; (split; [lia|]);
        right; eexists; repeat split; reflexivity.
Qed.

(** A currency that is neither ETH nor among the supported tokens is not
    reported as such: the command fails on reading the decimals of a token
    that was not found, after the list of tokens was fetched and before any
    payment is created. *)
Theorem pay_unknown_currency (w : Pay.World) (argv : Pay.Argv) (tokens : list Pay.Token) :
  String.eqb (Js.toUpperCase (Pay.argvCurrency argv)) "ETH" = false ->
  Pay.supportedTokens w = Ok tokens ->
  (forall t, In t tokens -> Pay.sameSymbol (Pay.argvCurrency argv) t = false) ->
  let run := Pay.handler w argv in
  Eff.result run = Throw ("Payment failed: " ++ cannotRead "decimals")
  /\ Eff.trace run
     = (NewStriimProvider :: GetSupportedTokens
        :: if Pay.logLevelDebug w then [ConsoleError (cannotRead "decimals")] else [])
  /\ paymentAmounts (Eff.trace run) = [].
Proof.
  intros Heth Htokens Hnone. cbv zeta.
  assert (Hfind : find (Pay.sameSymbol (Pay.argvCurrency argv)) tokens = None).
  { clear Htokens. induction tokens as [|t l IH]; [reflexivity|]. simpl.
    rewrite (Hnone t (or_introl eq_refl)). apply IH. intros t' Ht'. apply Hnone. now right. }
  unfold Pay.handler, Pay.getCurrencyBySymbol, Pay.catchBlock.
  rewrite Heth, Htokens. cbn [Eff.call Eff.bind Eff.ret Eff.emit app].
  rewrite Hfind. destruct (Pay.logLevelDebug w); repeat split.
Qed.

Lemma pay_unknown_currency_witness :
  let run := Pay.handler PaySample.world (PaySample.pay "1" "XYZ") in
  Eff.result run = Throw ("Payment failed: " ++ cannotRead "decimals")
  /\ Eff.trace run = [NewStriimProvider; GetSupportedTokens]
  /\ paymentAmounts (Eff.trace run) = [].
Proof.
  refine (pay_unknown_currency PaySample.world (PaySample.pay "1" "XYZ")
            [PaySample.hbt; PaySample.wtf; PaySample.tt1] eq_refl eq_refl _).
  intros t [<-|[<-|[<-|[]]]]; reflexivity.
Defined.

(** The handler that computes the amount with Numbers does not reject an
    amount that is no number: it creates a payment whose amount is the text
    'NaN' for the token it found, and goes on to sign and register it. *)
Theorem float_handler_accepts_any_text
    (w : Pay.World) (argv : Pay.Argv) (tokens : list Pay.Token) (token : Pay.Token) :
  Pay.supportedTokens w = Ok tokens ->
  find (Pay.sameSymbol (Pay.argvCurrency argv)) tokens = Some token ->
  JsDouble.parseFloat (Pay.amount argv) = S754_nan ->
  let run := Pay.floatHandler w argv in
  paymentAmounts (Eff.trace run) = ["NaN"]
  /\ (Pay.privateKey w = Ok tt -> In PaymentRegister (Eff.trace run))
  /\ (Pay.privateKey w = Ok tt -> isOk (Pay.register w) = true -> Eff.result run = Ok tt).
Proof.
  intros Htokens Hfind Hnan. cbv zeta.
  unfold Pay.floatHandler, Pay.submit, Pay.catchBlock, Pay.floatAmount.
  rewrite Htokens. cbn [Eff.call Eff.bind Eff.ret Eff.emit app].
  rewrite Hfind, Hnan. cbn [Eff.lift Pay.defined Eff.bind app].
  change (JsDouble.toString (JsDouble.mul S754_nan (JsDouble.pow10 (Pay.decimals token))))
    with "NaN".
  destruct (Pay.logLevelDebug w), (Pay.privateKey w) as [[]|m1];
    try destruct (Pay.register w) as [response|m2];
    cbn; repeat split; intros; try discriminate; try reflexivity;
    repeat (first [left; reflexivity | right]).
Qed.

Lemma float_handler_accepts_any_text_witness :
  let run := Pay.floatHandler PaySample.world (PaySample.pay "foo" "HBT") in
  paymentAmounts (Eff.trace run) = ["NaN"]
  /\ In PaymentRegister (Eff.trace run)
  /\ Eff.result run = Ok tt.
Proof.
  destruct (float_handler_accepts_any_text PaySample.world (PaySample.pay "foo" "HBT")
              [PaySample.hbt; PaySample.wtf; PaySample.tt1] PaySample.hbt
              eq_refl eq_refl eq_refl) as (H1 & H2 & H3).
  split; [exact H1|split; [exact (H2 eq_refl)|exact (H3 eq_refl eq_refl)]].
Defined.

(** ** The NII claim: period, cleanup, order of the steps, spinner *)

#[local] Hint Extern 1 (releasesIndex _ _) => exact I : events.
#[local] Hint Extern 1 (releasesIndex _ _) => reflexivity : events.

Lemma guarded_releasesIndex
    (w : Nii.World) (p : Js.JsNum) (o : GasOptions) (t : Js.JsNum) :
  everyEvent (releasesIndex (Js.sub p (Js.Num 1))) (Nii.guarded w p o t).
Proof.
  unfold Nii.guarded, Nii.tryBody, Nii.releaseStep, Nii.completeStep,
    Nii.catchBlock, Nii.finallyBlock.
  assert (Happ : forall R A,
            everyEvent (releasesIndex (Js.sub p (Js.Num 1))) (Nii.approveStep w o t R A)).
  { intros R A. unfold Nii.approveStep, Nii.clearStep.
    destruct (A <? R); [destruct (A >? 0)|]; auto 30 with events. }
  auto 40 with events.
Qed.

Lemma validatePeriod_accepts (v : Js.JsValue) (p : Js.JsNum) :
  Nii.validatePeriod v = Ok p ->
  p = Js.parseInt v /\ (p = Js.NaN \/ exists n, p = Js.Num n /\ 1 <= n <= 120).
Proof.
  unfold Nii.validatePeriod. intros H.
  destruct (Js.lt (Js.parseInt v) (Js.Num 1) || Js.gt (Js.parseInt v) (Js.Num 120))
    eqn:Hbounds; [discriminate|].
  injection H as <-. split; [reflexivity|].
  destruct (Js.parseInt v) as [|n]; [now left|right].
  exists n. split; [reflexivity|].
  apply orb_false_iff in Hbounds. unfold Js.gt in Hbounds. simpl in Hbounds. lia.
Qed.

Lemma resolve_period (argv : Nii.Argv) (p : Js.JsNum) (o : GasOptions) (t : Js.JsNum) :
  Nii.resolve argv = Ok (p, o, t) -> Nii.validatePeriod (Nii.period argv) = Ok p.
Proof.
  unfold Nii.resolve. intros H.
  destruct (Nii.validatePeriod (Nii.period argv)); [|discriminate].
  destruct (Nii.validateGasLimit _); [|discriminate].
  destruct (Nii.validateTimeout _); [|discriminate].
  destruct (Nii.validateGasPrice _); [|discriminate].
  destruct (Ethers.parseUnits _ _); [|discriminate].
  now injection H as -> _ _.
Qed.

(** A claim is registered for the index one below the period of the command
    line, and for no other: whenever the release is called, its index is
    [parseInt(period) - 1], which lies in 0..119, or is NaN when the period
    does not parse (the period check lets NaN through). *)
Theorem nii_release_index
    (w : Nii.World) (argv : Nii.Argv) (i : Js.JsNum) (o : GasOptions) :
  In (Release i o) (Eff.trace (Nii.handler w argv)) ->
  i = Js.sub (Js.parseInt (Nii.period argv)) (Js.Num 1)
  /\ (i = Js.NaN \/ exists n, i = Js.Num n /\ 0 <= n <= 119).
Proof.
  rewrite handler_unfold. intros Hin.
  destruct (Nii.resolve argv) as [[[p o'] t]|] eqn:Hresolve; [|destruct Hin].
  destruct (validatePeriod_accepts _ _ (resolve_period _ _ _ _ Hresolve)) as [Hp Hrange].
  assert (Hi : i = Js.sub p (Js.Num 1)).
  { destruct (Nii.providerFrom w);
      [|simpl in Hin; intuition discriminate].
    destruct (Nii.privateKey w);
      [|simpl in Hin; intuition discriminate].
    destruct (Nii.erc20ContractFrom w);
      [|simpl in Hin; intuition discriminate].
    cbn [Eff.trace fst] in Hin. apply in_app_or in Hin.
    destruct Hin as [Hin|Hin]; [simpl in Hin; intuition discriminate|].
    pose proof (guarded_releasesIndex w p o' t) as Hall.
    unfold everyEvent in Hall. rewrite Forall_forall in Hall.
    exact (Hall _ Hin). }
  subst i. split; [now rewrite Hp|].
  destruct Hrange as [->|(n & -> & Hn)]; [now left|right].
  exists (n - 1). split; [reflexivity|lia].
Qed.

Lemma nii_release_index_witness :
  Js.Num 0 = Js.sub (Js.parseInt (Nii.period Sample.argv)) (Js.Num 1)
  /\ (Js.Num 0 = Js.NaN \/ exists n, Js.Num 0 = Js.Num n /\ 0 <= n <= 119).
Proof.
  refine (nii_release_index (Sample.world 100 40) Sample.argv (Js.Num 0) Sample.options _).
  vm_compute. tauto.
Defined.

(** How often [provider.stopUpdate()] runs: once when the run reaches the
    [try] and the balance read that precedes it in the [finally] block
    answers, and not at all otherwise, whatever else succeeds or fails. *)
Theorem nii_cleanup_count (w : Nii.World) (argv : Nii.Argv) :
  stopUpdates (Eff.trace (Nii.handler w argv))
  = (if started w argv && isOk (Nii.closingBalance w) then 1 else 0)%nat.
Proof.
  rewrite handler_unfold. unfold started, providerAcquired.
  destruct (Nii.resolve argv) as [[[p o] t]|]; [|reflexivity].
  destruct (Nii.providerFrom w); [|reflexivity].
  destruct (Nii.privateKey w); [|reflexivity].
  destruct (Nii.erc20ContractFrom w); [|reflexivity].
  cbn [Eff.trace fst isOk andb]. now rewrite stopUpdates_app, guarded_stopUpdates.
Qed.

Section NiiOrder.

Variable w : Nii.World.
Variable p : Js.JsNum.
Variable o : GasOptions.
Variable t : Js.JsNum.

Lemma tryBody_steps :
  submitted (Eff.trace (Nii.tryBody w p o t)) = []
  \/ exists rest,
       submitted (Eff.trace (Nii.tryBody w p o t)) = StepRelease :: rest
       /\ inOrder (StepRelease :: rest) = true.
Proof.
  pose proof (releaseStep_result w p o t) as Hres.
  pose proof (releaseStep_observed w p o t) as (Hsub & _).
  cbv zeta in Hsub.
  destruct (Nii.openingBalance w) as [opening|m] eqn:Ho.
  - destruct (Nii.depositBalance w) as [R|m] eqn:Hr.
    + destruct (Nii.depositAllowance w) as [A|m] eqn:Ha.
      * right. rewrite (tryBody_submitted w p o t _ _ _ Ho Hr Ha), approveStep_submitted.
        eexists. split; [reflexivity|].
        destruct (A <? R); [destruct (A >? 0); [destruct (clearConfirmed w)|]|];
          now destruct (isOk (Eff.result (Nii.approveStep w o t R A))).
      * right. exists []. split; [|reflexivity].
        unfold Nii.tryBody. rewrite Ho, Hr, Ha.
        destruct (Nii.releaseStep w p o t) as [tr rr]. simpl in Hres, Hsub. subst rr.
        cbn. rewrite (obs_app (obs := submitted)), Hsub. reflexivity.
    + right. exists []. split; [|reflexivity].
      unfold Nii.tryBody. rewrite Ho, Hr.
      destruct (Nii.releaseStep w p o t) as [tr rr]. simpl in Hres, Hsub. subst rr.
      cbn. rewrite (obs_app (obs := submitted)), Hsub. reflexivity.
  - left. unfold Nii.tryBody. now rewrite Ho.
Qed.

End NiiOrder.

(** The on-chain steps of a run are submitted in the order release, clear,
    approve, complete, none of them twice, and the release comes first: no
    other step is submitted in a run that did not submit the release. *)
Theorem nii_steps_in_order (w : Nii.World) (argv : Nii.Argv) :
  let steps := submitted (Eff.trace (Nii.handler w argv)) in
  inOrder steps = true
  /\ (steps = [] \/ exists rest, steps = StepRelease :: rest).
Proof.
  cbv zeta. rewrite handler_unfold.
  destruct (Nii.resolve argv) as [[[p o] t]|]; [|split; [reflexivity|now left]].
  destruct (Nii.providerFrom w); [|split; [reflexivity|now left]].
  destruct (Nii.privateKey w); [|split; [reflexivity|now left]].
  destruct (Nii.erc20ContractFrom w); [|split; [reflexivity|now left]].
  cbn [Eff.trace fst]. rewrite (obs_app (obs := submitted)), guarded_submitted.
  cbn [submitted stepOf app].
  destruct (tryBody_steps w p o t) as [->|(rest & -> & Hrest)].
  - split; [reflexivity|now left].
  - split; [exact Hrest|right; now exists rest].
Qed.

Lemma spinner_app (b : bool) (t u : list Event) :
  spinner b (t ++ u) =
  match spinner b t with
  | Some b' => spinner b' u
  | None => None
  end.
Proof.
  revert b. induction t as [|e t IH]; intros b; [reflexivity|].
  destruct e; simpl; try apply IH. destruct b; [reflexivity|apply IH].
Qed.

Section NiiSpinner.

Variable w : Nii.World.
Variable p : Js.JsNum.
Variable o : GasOptions.
Variable t : Js.JsNum.

Lemma releaseStep_spinner :
  spinner false (Eff.trace (Nii.releaseStep w p o t)) = Some false.
Proof.
  unfold Nii.releaseStep.
  destruct (Nii.releaseTx w); [destruct (Nii.releaseConfirmation w)|]; reflexivity.
Qed.

Lemma approveStep_spinner (R A : Z) :
  spinner false (Eff.trace (Nii.approveStep w o t R A))
  = Some (isThrow (Eff.result (Nii.approveStep w o t R A))).
Proof.
  unfold Nii.approveStep, Nii.clearStep.
  destruct (A <? R); [|reflexivity].
  destruct (A >? 0).
  - destruct (Nii.clearTx w); [|reflexivity].
    destruct (Nii.clearConfirmation w); [|reflexivity].
    destruct (Nii.approveTx w); [|reflexivity].
    destruct (Nii.approveConfirmation w); reflexivity.
  - destruct (Nii.approveTx w); [|reflexivity].
    destruct (Nii.approveConfirmation w); reflexivity.
Qed.

Lemma completeStep_spinner (R : Z) :
  spinner false (Eff.trace (Nii.completeStep w o t R))
  = Some (isThrow (Eff.result (Nii.completeStep w o t R))).
Proof.
  unfold Nii.completeStep.
  destruct (Nii.completeTx w); [|reflexivity].
  destruct (Nii.completeConfirmation w); reflexivity.
Qed.

Lemma tryBody_spinner :
  exists spinning,
    spinner false (Eff.trace (Nii.tryBody w p o t)) = Some spinning
    /\ (isOk (Eff.result (Nii.tryBody w p o t)) = true -> spinning = false).
Proof.
  pose proof (releaseStep_result w p o t) as Hres.
  pose proof releaseStep_spinner as Hrel.
  destruct (Nii.openingBalance w) as [opening|m] eqn:Ho.
  - destruct (Nii.depositBalance w) as [R|m] eqn:Hr.
    + destruct (Nii.depositAllowance w) as [A|m] eqn:Ha.
      * rewrite (tryBody_trace w p o t _ _ _ Ho Hr Ha),
          (tryBody_result w p o t _ _ _ Ho Hr Ha).
        rewrite spinner_app. cbn [spinner].
        rewrite spinner_app, Hrel.
        rewrite spinner_app. cbn [spinner].
        rewrite spinner_app, approveStep_spinner.
        destruct (Eff.result (Nii.approveStep w o t R A)) as [receipt|m];
          [|exists true; split; [reflexivity|discriminate]].
        cbn [isThrow isOk negb]. rewrite spinner_app, completeStep_spinner.
        destruct (Eff.result (Nii.completeStep w o t R)) as [receipt'|m];
          [|exists true; split; [reflexivity|discriminate]].
        exists false. split; reflexivity.
      * exists true. unfold Nii.tryBody. rewrite Ho, Hr, Ha.
        destruct (Nii.releaseStep w p o t) as [tr rr]. simpl in Hres, Hrel. subst rr.
        cbn. rewrite spinner_app, Hrel. split; [reflexivity|discriminate].
    + exists false. unfold Nii.tryBody. rewrite Ho, Hr.
      destruct (Nii.releaseStep w p o t) as [tr rr]. simpl in Hres, Hrel. subst rr.
      cbn. rewrite spinner_app, Hrel. split; reflexivity.
  - exists false. unfold Nii.tryBody. rewrite Ho. split; reflexivity.
Qed.

Lemma guarded_spinner : spinner false (Eff.trace (Nii.guarded w p o t)) = Some false.
Proof.
  rewrite guarded_trace, spinner_app.
  destruct tryBody_spinner as (spinning & -> & Hok).
  rewrite spinner_app.
  assert (Hfinally : forall b, spinner b (Eff.trace (Nii.finallyBlock w)) = Some b).
  { intros b. unfold Nii.finallyBlock. now destruct (Nii.closingBalance w). }
  destruct (Eff.result (Nii.tryBody w p o t)).
  - rewrite (Hok eq_refl). cbn [spinner]. apply Hfinally.
  - cbn [spinner]. apply Hfinally.
Qed.

End NiiSpinner.

(** The spinner is never started while it is spinning, and no run ends with
    the spinner spinning: whatever fails, a started spinner is stopped with
    a success or a failure mark. *)
Theorem nii_spinner_is_stopped (w : Nii.World) (argv : Nii.Argv) :
  spinner false (Eff.trace (Nii.handler w argv)) = Some false.
Proof.
  rewrite handler_unfold.
  destruct (Nii.resolve argv) as [[[p o] t]|]; [|reflexivity].
  destruct (Nii.providerFrom w); [|reflexivity].
  destruct (Nii.privateKey w); [|reflexivity].
  destruct (Nii.erc20ContractFrom w); [|reflexivity].
  cbn [Eff.trace fst]. rewrite spinner_app. cbn [spinner]. apply guarded_spinner.
Qed.

(** ** The spinner of the fee claim *)

Lemma feesSpinner_app (b : bool) (t u : list FeesClaim.Event) :
  feesSpinner b (t ++ u) =
  match feesSpinner b t with
  | Some b' => feesSpinner b' u
  | None => None
  end.
Proof.
  revert b. induction t as [|e t IH]; intros b; [reflexivity|].
  destruct e; simpl; try apply IH. destruct b; [reflexivity|apply IH].
Qed.

Section FeesSpinner.

Variable w : FeesClaim.World.
Variable argvCurrency : string.
Variable range : option Fees.Range.
Variable options : GasOptions.
Variable timeout : Js.JsNum.

Lemma claimStep_spinner (r : Fees.Range) (info : FeesClaim.TokenInfo) (amount : string) :
  let step := FeesClaim.claimStep w options timeout r info amount in
  feesSpinner false (Run.trace step) = Some (isThrow (Run.result step)).
Proof.
  unfold FeesClaim.claimStep.
  destruct (FeesClaim.isPositive amount); [|reflexivity].
  destruct (FeesClaim.claimTx w); [|reflexivity].
  destruct (FeesClaim.claimConfirmation w); reflexivity.
Qed.

Lemma withdrawStep_spinner (info : FeesClaim.TokenInfo) :
  let step := FeesClaim.withdrawStep w options timeout info in
  feesSpinner false (Run.trace step) = Some (isThrow (Run.result step)).
Proof.
  unfold FeesClaim.withdrawStep.
  destruct (FeesClaim.withdrawable w) as [amount|]; [|reflexivity].
  cbn [Run.bind Run.call Run.emit app].
  destruct (FeesClaim.isPositive amount); [|reflexivity].
  destruct (FeesClaim.monetaryAmount w); [|reflexivity].
  destruct (FeesClaim.withdrawTx w); [|reflexivity].
  destruct (FeesClaim.withdrawConfirmation w); reflexivity.
Qed.

Lemma fees_tryBody_spinner :
  let body := FeesClaim.tryBody w argvCurrency range options timeout in
  exists spinning,
    feesSpinner false (Run.trace body) = Some spinning
    /\ (isOk (Run.result body) = true -> spinning = false).
Proof.
  cbv zeta. unfold FeesClaim.tryBody, FeesClaim.rangeInUse.
  destruct range as [r|]; [|exists false; split; reflexivity].
  rewrite run_bind_lift.
  destruct (FeesClaim.tokenInfo w) as [info|]; [|exists false; split; reflexivity].
  destruct (FeesClaim.currencyFrom w) as [[]|]; [|exists false; split; reflexivity].
  destruct (FeesClaim.all w) as [[claimableAmount stagedAmount]|];
    [|exists true; split; [reflexivity|discriminate]].
  pose proof (claimStep_spinner r info claimableAmount) as Hclaim.
  pose proof (withdrawStep_spinner info) as Hwithdraw.
  cbv zeta in Hclaim, Hwithdraw.
  repeat (rewrite run_bind_trace;
          cbn [Run.call Run.emit Run.lift Run.trace Run.result fst snd app]).
  repeat (rewrite run_bind_result;
          cbn [Run.call Run.emit Run.lift Run.trace Run.result fst snd]).
  cbn [feesSpinner].
  assert (Hstaged :
      Run.result (Run.when (FeesClaim.isPositive stagedAmount)
                    (Run.emit (FeesClaim.SpinnerSucceed
                       ("Previously claimed (and not withdrawn) amount of "
                        ++ FeesClaim.symbol info ++ " is " ++ stagedAmount)))) = Ok tt
      /\ forall u,
           feesSpinner false
             (Run.trace (Run.when (FeesClaim.isPositive stagedAmount)
                (Run.emit (FeesClaim.SpinnerSucceed
                   ("Previously claimed (and not withdrawn) amount of "
                    ++ FeesClaim.symbol info ++ " is " ++ stagedAmount)))) ++ u)
           = feesSpinner false u).
  { destruct (FeesClaim.isPositive stagedAmount); split; reflexivity. }
  destruct Hstaged as [-> ->].
  rewrite feesSpinner_app, Hclaim.
  destruct (Run.result (FeesClaim.claimStep w options timeout r info claimableAmount))
    as [[]|]; [|exists true; split; [reflexivity|discriminate]].
  cbn [isThrow isOk negb]. rewrite Hwithdraw.
  destruct (Run.result (FeesClaim.withdrawStep w options timeout info)) as [[]|];
    [exists false|exists true]; split; try reflexivity; discriminate.
Qed.

End FeesSpinner.

(** The spinner of the fee claim is never started while it is spinning, and
    no run ends with the spinner spinning. *)
Theorem fees_spinner_is_stopped
    (w : FeesClaim.World) (argv : Fees.Argv) (argvCurrency : string) :
  feesSpinner false (Run.trace (FeesClaim.handler w argv argvCurrency)) = Some false.
Proof.
  unfold FeesClaim.handler.
  destruct (Fees.range argv) as [range|]; [|reflexivity].
  destruct (Fees.resolve argv) as [[options timeout]|]; [|reflexivity].
  cbn [Run.lift Run.bind app].
  destruct (FeesClaim.providerFrom w); [|reflexivity].
  destruct (FeesClaim.privateKey w); [|reflexivity].
  destruct (FeesClaim.network w); [|reflexivity].
  cbn [Run.call Run.bind app].
  pose proof (fees_guarded_trace w argvCurrency range options timeout) as Htrace.
  destruct (fees_tryBody_spinner w argvCurrency range options timeout)
    as (spinning & Hbody & Hok).
  destruct (FeesClaim.guarded w argvCurrency range options timeout) as [t r].
  cbn [Run.trace fst] in Htrace. subst t. cbn [Run.trace fst feesSpinner].
  rewrite feesSpinner_app, Hbody.
  destruct (Run.result (FeesClaim.tryBody w argvCurrency range options timeout)).
  - now rewrite (Hok eq_refl).
  - reflexivity.
Qed.
